(** * Endless-runner game engine: a shallow embedding of [src/lib/gameEngine.ts]

    The TypeScript classes [Vector2D], [Particle], [Player], [Obstacle],
    [Coin], [PowerUp] and [GameEngine] are translated method by method.

    Numbers.  A JavaScript [number] that holds a lane index, a life count, a
    millisecond timestamp or a spawn interval is an integer of [Z]; every
    other [number] (coordinates, velocities, delta times, the score) is an
    exact rational of [Q], so rounding of IEEE doubles is not part of the
    model.  Equality on [Q] is [==] unless both sides are the same literal.

    Environment.  [Math.random()] is an oracle [nat -> Q] indexed by the
    number of draws made so far; the animation-frame timestamp and the value
    of [Date.now()] are inputs of the frame that reads them (a tick is
    synchronous: its reads of the millisecond clock, one in [update] and one
    per [activatePowerUp], get the same value); the optional observer
    callbacks ([onPlaySound], [onStateChange], [onScoreChange],
    [onFpsChange]) append to an event log.  Object identity of the spawned
    entities is a serial number [uid] taken from an allocation counter.

    Left out, because nothing in the simulation reads them: the canvas
    drawing of the [render] methods, the [keys] set, [animationId] and
    [stop()]. *)

From Stdlib Require Import ZArith QArith Qround Qabs Qminmax Lia Lqa List Bool.
From Stdlib Require Import String.
From Stdlib Require Import Qpower.
From stdpp Require Import base decidable countable gmap list.
Import ListNotations.

Local Open Scope Z_scope.

(** ** Utility functions *)

Definition Qltb (a b : Q) : bool := negb (Qle_bool b a).

(** [clamp] is only ever applied to lane indices. *)
Definition clamp (value min max : Z) : Z := Z.max min (Z.min max value).

Definition lerp (start end_ factor : Q) : Q := (start + (end_ - start) * factor)%Q.

(** [random(min, max)] given the result [r] of its [Math.random()] call. *)
Definition random (min max r : Q) : Q := (r * (max - min) + min)%Q.

(** [lanePositions[lane]].  Out of range the source reads [undefined]; the
    table always has three entries and every index used on it is in
    [{0,1,2}] (see [laneIndex_range] and [Player_update_fields]), so the
    value [0] below is never read. *)
Definition laneAt (lanePositions : list Q) (lane : Z) : Q :=
  if lane <? 0 then 0%Q else default 0%Q (lanePositions !! Z.to_nat lane).

(** [Math.floor(Math.random() * 3)] given the draw [r]. *)
Definition laneIndex (r : Q) : Z := Qfloor (r * 3).

(** ** Vector2D *)

Module Vector2D.
Record t : Type := mk { x : Q; y : Q }.

Definition add (this other : t) : t := mk (x this + x other) (y this + y other).

Definition multiply (this : t) (scalar : Q) : t := mk (x this * scalar) (y this * scalar).

(** [distance] is [Math.sqrt(dx*dx + dy*dy)]; [Q] has no square root, so the
    model keeps the radicand.  The only use, [Coin.update], compares the
    distance with 150, which over the reals is the comparison of the
    radicand with 150 * 150. *)
Definition distanceSquared (this other : t) : Q :=
  let dx := (x this - x other)%Q in
  let dy := (y this - y other)%Q in
  (dx * dx + dy * dy)%Q.
End Vector2D.

(** ** Hit boxes *)

Module Hitbox.
Record t : Type := mk { x : Q; y : Q; width : Q; height : Q }.
End Hitbox.

(** ** Particle *)

Module Particle.
Record t : Type := mk {
  position : Vector2D.t;
  velocity : Vector2D.t;
  color : string;
  life : Q;
  maxLife : Q
}.

(** [new Particle(position, velocity, color)] with the default [life = 1000].
    The source passes the entity's own [Vector2D] object, which the particle
    shares until its first [update] replaces it; the model gives the
    particle the coordinates at creation.  Particles are read by [render]
    only. *)
Definition new (position velocity : Vector2D.t) (color : string) : t :=
  mk position velocity color 1000 1000.

(** [update] mutates the particle and returns whether it is still alive. *)
Definition update (deltaTime : Q) (this : t) : t * bool :=
  let position' := Vector2D.add (position this) (Vector2D.multiply (velocity this) deltaTime) in
  let velocity' := Vector2D.multiply (velocity this) 0.98 in
  let life' := (life this - deltaTime * 1000)%Q in
  (mk position' velocity' (color this) life' (maxLife this), Qltb 0 life').
End Particle.

(** ** Player *)

Module Player.
Record t : Type := mk {
  position : Vector2D.t;
  velocity : Vector2D.t;
  currentLane : Z;
  targetLane : Z;
  isJumping : bool;
  isSliding : bool;
  groundY : Q;
  jumpHeight : Q;
  slideTime : Q;
  width : Q;
  height : Q;
  animationFrame : Q;
  invulnerable : bool;
  invulnerableTime : Q
}.

Definition set_position (v : Vector2D.t) (r : t) : t :=
  {| position := v; velocity := velocity r; currentLane := currentLane r; targetLane :=
     targetLane r; isJumping := isJumping r; isSliding := isSliding r; groundY :=
     groundY r; jumpHeight := jumpHeight r; slideTime := slideTime r; width := width r;
     height := height r; animationFrame := animationFrame r; invulnerable :=
     invulnerable r; invulnerableTime := invulnerableTime r |}.
Definition set_velocity (v : Vector2D.t) (r : t) : t :=
  {| position := position r; velocity := v; currentLane := currentLane r; targetLane :=
     targetLane r; isJumping := isJumping r; isSliding := isSliding r; groundY :=
     groundY r; jumpHeight := jumpHeight r; slideTime := slideTime r; width := width r;
     height := height r; animationFrame := animationFrame r; invulnerable :=
     invulnerable r; invulnerableTime := invulnerableTime r |}.
Definition set_currentLane (v : Z) (r : t) : t :=
  {| position := position r; velocity := velocity r; currentLane := v; targetLane :=
     targetLane r; isJumping := isJumping r; isSliding := isSliding r; groundY :=
     groundY r; jumpHeight := jumpHeight r; slideTime := slideTime r; width := width r;
     height := height r; animationFrame := animationFrame r; invulnerable :=
     invulnerable r; invulnerableTime := invulnerableTime r |}.
Definition set_targetLane (v : Z) (r : t) : t :=
  {| position := position r; velocity := velocity r; currentLane := currentLane r;
     targetLane := v; isJumping := isJumping r; isSliding := isSliding r; groundY :=
     groundY r; jumpHeight := jumpHeight r; slideTime := slideTime r; width := width r;
     height := height r; animationFrame := animationFrame r; invulnerable :=
     invulnerable r; invulnerableTime := invulnerableTime r |}.
Definition set_isJumping (v : bool) (r : t) : t :=
  {| position := position r; velocity := velocity r; currentLane := currentLane r;
     targetLane := targetLane r; isJumping := v; isSliding := isSliding r; groundY :=
     groundY r; jumpHeight := jumpHeight r; slideTime := slideTime r; width := width r;
     height := height r; animationFrame := animationFrame r; invulnerable :=
     invulnerable r; invulnerableTime := invulnerableTime r |}.
Definition set_isSliding (v : bool) (r : t) : t :=
  {| position := position r; velocity := velocity r; currentLane := currentLane r;
     targetLane := targetLane r; isJumping := isJumping r; isSliding := v; groundY :=
     groundY r; jumpHeight := jumpHeight r; slideTime := slideTime r; width := width r;
     height := height r; animationFrame := animationFrame r; invulnerable :=
     invulnerable r; invulnerableTime := invulnerableTime r |}.
Definition set_slideTime (v : Q) (r : t) : t :=
  {| position := position r; velocity := velocity r; currentLane := currentLane r;
     targetLane := targetLane r; isJumping := isJumping r; isSliding := isSliding r;
     groundY := groundY r; jumpHeight := jumpHeight r; slideTime := v; width := width r;
     height := height r; animationFrame := animationFrame r; invulnerable :=
     invulnerable r; invulnerableTime := invulnerableTime r |}.
Definition set_animationFrame (v : Q) (r : t) : t :=
  {| position := position r; velocity := velocity r; currentLane := currentLane r;
     targetLane := targetLane r; isJumping := isJumping r; isSliding := isSliding r;
     groundY := groundY r; jumpHeight := jumpHeight r; slideTime := slideTime r; width
     := width r; height := height r; animationFrame := v; invulnerable := invulnerable
     r; invulnerableTime := invulnerableTime r |}.
Definition set_invulnerable (v : bool) (r : t) : t :=
  {| position := position r; velocity := velocity r; currentLane := currentLane r;
     targetLane := targetLane r; isJumping := isJumping r; isSliding := isSliding r;
     groundY := groundY r; jumpHeight := jumpHeight r; slideTime := slideTime r; width
     := width r; height := height r; animationFrame := animationFrame r; invulnerable :=
     v; invulnerableTime := invulnerableTime r |}.
Definition set_invulnerableTime (v : Q) (r : t) : t :=
  {| position := position r; velocity := velocity r; currentLane := currentLane r;
     targetLane := targetLane r; isJumping := isJumping r; isSliding := isSliding r;
     groundY := groundY r; jumpHeight := jumpHeight r; slideTime := slideTime r; width
     := width r; height := height r; animationFrame := animationFrame r; invulnerable :=
     invulnerable r; invulnerableTime := v |}.

(** [new Player(x, y, groundY)] *)
Definition new (x y groundY : Q) : t :=
  {| position := Vector2D.mk x y; velocity := Vector2D.mk 0 0;
     currentLane := 1; targetLane := 1; isJumping := false; isSliding := false;
     groundY := groundY; jumpHeight := 150; slideTime := 0; width := 40; height := 60;
     animationFrame := 0; invulnerable := false; invulnerableTime := 0 |}.

(** Lane switching: the first five lines of [update]. *)
Definition updateLane (deltaTime : Q) (lanePositions : list Q) (this : t) : t :=
  let this := set_targetLane (clamp (targetLane this) 0 2) this in
  let targetX := laneAt lanePositions (targetLane this) in
  let this := set_position
    (Vector2D.mk (lerp (Vector2D.x (position this)) targetX (deltaTime * 8))
                 (Vector2D.y (position this))) this in
  if Qltb (Qabs (Vector2D.x (position this) - targetX)) 5
  then set_currentLane (targetLane this) this
  else this.

(** Jumping physics. *)
Definition updateJump (deltaTime : Q) (this : t) : t :=
  if isJumping this then
    let this := set_velocity
      (Vector2D.mk (Vector2D.x (velocity this))
                   (Vector2D.y (velocity this) + 800 * deltaTime)) this in
    let this := set_position
      (Vector2D.mk (Vector2D.x (position this))
                   (Vector2D.y (position this) + Vector2D.y (velocity this) * deltaTime)) this in
    if Qle_bool (groundY this) (Vector2D.y (position this)) then
      let this := set_position (Vector2D.mk (Vector2D.x (position this)) (groundY this)) this in
      let this := set_velocity (Vector2D.mk (Vector2D.x (velocity this)) 0) this in
      set_isJumping false this
    else this
  else this.

(** Sliding mechanics. *)
Definition updateSlide (deltaTime : Q) (this : t) : t :=
  if isSliding this then
    let this := set_slideTime (slideTime this - deltaTime * 1000) this in
    if Qle_bool (slideTime this) 0 then set_isSliding false this else this
  else this.

(** Invulnerability timer. *)
Definition updateInvulnerable (deltaTime : Q) (this : t) : t :=
  if invulnerable this then
    let this := set_invulnerableTime (invulnerableTime this - deltaTime * 1000) this in
    if Qle_bool (invulnerableTime this) 0 then set_invulnerable false this else this
  else this.

(** [update(deltaTime, lanePositions)]: the five blocks of the method in
    source order. *)
Definition update (deltaTime : Q) (lanePositions : list Q) (this : t) : t :=
  let this := updateLane deltaTime lanePositions this in
  let this := updateJump deltaTime this in
  let this := updateSlide deltaTime this in
  let this := updateInvulnerable deltaTime this in
  set_animationFrame (animationFrame this + deltaTime * 10) this.

Definition jump (this : t) : t :=
  if negb (isJumping this) && negb (isSliding this) then
    let this := set_isJumping true this in
    set_velocity (Vector2D.mk (Vector2D.x (velocity this)) (-600)) this
  else this.

Definition slide (this : t) : t :=
  if negb (isJumping this) && negb (isSliding this) then
    let this := set_isSliding true this in
    set_slideTime 800 this
  else this.

Definition moveLane (direction : Z) (this : t) : t :=
  set_targetLane (clamp (targetLane this + direction) 0 2) this.

Definition getHitbox (this : t) : Hitbox.t :=
  let height := if isSliding this then (height this * 0.6)%Q else height this in
  let y := if isSliding this
           then (Vector2D.y (position this) + Player.height this * 0.4)%Q
           else Vector2D.y (position this) in
  Hitbox.mk (Vector2D.x (position this) - width this / 2) (y - height) (width this) height.
End Player.

(** ** Obstacle *)

Inductive ObstacleType : Type := barrier | train | low.

Module Obstacle.
Record t : Type := mk {
  uid : nat;
  position : Vector2D.t;
  lane : Z;
  type : ObstacleType;
  width : Q;
  height : Q
}.

(** [new Obstacle(position, lane, type)]: the size is fixed by the type. *)
Definition new (uid : nat) (position : Vector2D.t) (lane : Z) (type : ObstacleType) : t :=
  match type with
  | barrier => mk uid position lane type 40 80
  | train => mk uid position lane type 60 100
  | low => mk uid position lane type 50 40
  end.

Definition update (deltaTime gameSpeed : Q) (this : t) : t :=
  mk (uid this)
     (Vector2D.mk (Vector2D.x (position this))
                  (Vector2D.y (position this) + gameSpeed * deltaTime))
     (lane this) (type this) (width this) (height this).

Definition getHitbox (this : t) : Hitbox.t :=
  Hitbox.mk (Vector2D.x (position this) - width this / 2)
            (Vector2D.y (position this) - height this)
            (width this) (height this).
End Obstacle.

(** ** Coin *)

Module Coin.
Record t : Type := mk {
  uid : nat;
  position : Vector2D.t;
  lane : Z;
  width : Q;
  height : Q;
  collected : bool;
  animationFrame : Q;
  magnetTarget : option Vector2D.t
}.

Definition set_position (v : Vector2D.t) (r : t) : t :=
  {| uid := uid r; position := v; lane := lane r; width := width r; height := height r;
     collected := collected r; animationFrame := animationFrame r; magnetTarget :=
     magnetTarget r |}.
Definition set_collected (v : bool) (r : t) : t :=
  {| uid := uid r; position := position r; lane := lane r; width := width r; height :=
     height r; collected := v; animationFrame := animationFrame r; magnetTarget :=
     magnetTarget r |}.
Definition set_animationFrame (v : Q) (r : t) : t :=
  {| uid := uid r; position := position r; lane := lane r; width := width r; height :=
     height r; collected := collected r; animationFrame := v; magnetTarget :=
     magnetTarget r |}.

(** [new Coin(position, lane)] *)
Definition new (uid : nat) (position : Vector2D.t) (lane : Z) : t :=
  {| uid := uid; position := position; lane := lane; width := 20; height := 20;
     collected := false; animationFrame := 0; magnetTarget := None |}.

(** [force = Math.min(1, 300 / distance)] is computed only when
    [distance < 150], where [300 / distance] exceeds 2 (and is [Infinity] at
    distance 0): the minimum is 1. *)
Definition magnetForce : Q := 1.

Definition update (deltaTime gameSpeed : Q) (playerPos : Vector2D.t) (magnetActive : bool)
    (this : t) : t :=
  let this := set_animationFrame (animationFrame this + deltaTime * 15) this in
  let this :=
    if magnetActive && negb (collected this) then
      if Qltb (Vector2D.distanceSquared (position this) playerPos) (150 * 150) then
        let force := magnetForce in
        let this := set_position
          (Vector2D.mk (lerp (Vector2D.x (position this)) (Vector2D.x playerPos) (deltaTime * force * 5))
                       (Vector2D.y (position this))) this in
        set_position
          (Vector2D.mk (Vector2D.x (position this))
                       (lerp (Vector2D.y (position this)) (Vector2D.y playerPos) (deltaTime * force * 5))) this
      else this
    else this in
  match magnetTarget this with
  | None => set_position
      (Vector2D.mk (Vector2D.x (position this))
                   (Vector2D.y (position this) + gameSpeed * deltaTime)) this
  | Some _ => this
  end.

Definition getHitbox (this : t) : Hitbox.t :=
  Hitbox.mk (Vector2D.x (position this) - width this / 2)
            (Vector2D.y (position this) - height this / 2)
            (width this) (height this).
End Coin.

(** ** PowerUp *)

Inductive PowerUpType : Type := magnet | speed | shield.

#[global] Instance PowerUpType_eq_dec : EqDecision PowerUpType.
Proof. solve_decision. Defined.

#[global] Instance PowerUpType_countable : Countable PowerUpType.
Proof.
  refine (inj_countable'
    (fun k => match k with magnet => 0%nat | speed => 1%nat | shield => 2%nat end)
    (fun n => match n with 0%nat => magnet | 1%nat => speed | _ => shield end) _).
  intros []; reflexivity.
Defined.

Module PowerUp.
Record t : Type := mk {
  uid : nat;
  position : Vector2D.t;
  lane : Z;
  type : PowerUpType;
  width : Q;
  height : Q;
  collected : bool;
  animationFrame : Q
}.

Definition set_position (v : Vector2D.t) (r : t) : t :=
  {| uid := uid r; position := v; lane := lane r; type := type r; width := width r;
     height := height r; collected := collected r; animationFrame := animationFrame r
     |}.
Definition set_collected (v : bool) (r : t) : t :=
  {| uid := uid r; position := position r; lane := lane r; type := type r; width :=
     width r; height := height r; collected := v; animationFrame := animationFrame r |}.
Definition set_animationFrame (v : Q) (r : t) : t :=
  {| uid := uid r; position := position r; lane := lane r; type := type r; width :=
     width r; height := height r; collected := collected r; animationFrame := v |}.

(** [new PowerUp(position, lane, type)] *)
Definition new (uid : nat) (position : Vector2D.t) (lane : Z) (type : PowerUpType) : t :=
  {| uid := uid; position := position; lane := lane; type := type; width := 30; height := 30;
     collected := false; animationFrame := 0 |}.

Definition update (deltaTime gameSpeed : Q) (this : t) : t :=
  let this := set_position
    (Vector2D.mk (Vector2D.x (position this))
                 (Vector2D.y (position this) + gameSpeed * deltaTime)) this in
  set_animationFrame (animationFrame this + deltaTime * 8) this.

Definition getHitbox (this : t) : Hitbox.t :=
  Hitbox.mk (Vector2D.x (position this) - width this / 2)
            (Vector2D.y (position this) - height this / 2)
            (width this) (height this).
End PowerUp.

(** ** The engine *)

Inductive GameState : Type := menu | playing | paused | gameOver.

#[global] Instance GameState_eq_dec : EqDecision GameState.
Proof. solve_decision. Defined.

(** What the engine tells its observers, in call order. *)
Inductive Event : Type :=
  | PlaySound (soundName : string)
  | StateChange (newState : GameState)
  | ScoreChange (score : Z)
  | FpsChange (fps : Q).

(** The outcome of running a constructor: it returns the object or throws. *)
Inductive Completion (A : Type) : Type :=
  | Returns (value : A)
  | Throws (message : string).
Arguments Returns {A} value.
Arguments Throws {A} message.

Module GameEngine.
Record t : Type := mk {
  state : GameState;
  lastTime : Q;
  fpsCounter : Z;
  fpsTime : Q;
  player : Player.t;
  obstacles : list Obstacle.t;
  coins : list Coin.t;
  powerUps : list PowerUp.t;
  particles : list Particle.t;
  lanePositions : list Q;
  gameSpeed : Q;
  baseSpeed : Q;
  score : Q;
  highScore : Q;
  lives : Z;
  groundY : Q;
  lastObstacleSpawn : Z;
  lastCoinSpawn : Z;
  lastPowerUpSpawn : Z;
  obstacleSpawnInterval : Z;
  activePowerUps : gmap PowerUpType Z;
  touchStartX : Q;
  touchStartY : Q;
  (* the constructor argument that selects the input handlers *)
  isMobile : bool;
  (* [this.canvas.height] *)
  canvasHeight : Q;
  (* the results of [Math.random()] and how many were consumed *)
  mathRandom : nat -> Q;
  randomCalls : nat;
  (* allocation counter behind [uid] *)
  nextUid : nat;
  (* observer calls, oldest first *)
  events : list Event
}.

Definition set_state (v : GameState) (r : t) : t :=
  {| state := v; lastTime := lastTime r; fpsCounter := fpsCounter r; fpsTime := fpsTime
     r; player := player r; obstacles := obstacles r; coins := coins r; powerUps :=
     powerUps r; particles := particles r; lanePositions := lanePositions r; gameSpeed
     := gameSpeed r; baseSpeed := baseSpeed r; score := score r; highScore := highScore
     r; lives := lives r; groundY := groundY r; lastObstacleSpawn := lastObstacleSpawn
     r; lastCoinSpawn := lastCoinSpawn r; lastPowerUpSpawn := lastPowerUpSpawn r;
     obstacleSpawnInterval := obstacleSpawnInterval r; activePowerUps := activePowerUps
     r; touchStartX := touchStartX r; touchStartY := touchStartY r; isMobile := isMobile
     r; canvasHeight := canvasHeight r; mathRandom := mathRandom r; randomCalls :=
     randomCalls r; nextUid := nextUid r; events := events r |}.
Definition set_lastTime (v : Q) (r : t) : t :=
  {| state := state r; lastTime := v; fpsCounter := fpsCounter r; fpsTime := fpsTime r;
     player := player r; obstacles := obstacles r; coins := coins r; powerUps :=
     powerUps r; particles := particles r; lanePositions := lanePositions r; gameSpeed
     := gameSpeed r; baseSpeed := baseSpeed r; score := score r; highScore := highScore
     r; lives := lives r; groundY := groundY r; lastObstacleSpawn := lastObstacleSpawn
     r; lastCoinSpawn := lastCoinSpawn r; lastPowerUpSpawn := lastPowerUpSpawn r;
     obstacleSpawnInterval := obstacleSpawnInterval r; activePowerUps := activePowerUps
     r; touchStartX := touchStartX r; touchStartY := touchStartY r; isMobile := isMobile
     r; canvasHeight := canvasHeight r; mathRandom := mathRandom r; randomCalls :=
     randomCalls r; nextUid := nextUid r; events := events r |}.
Definition set_fpsCounter (v : Z) (r : t) : t :=
  {| state := state r; lastTime := lastTime r; fpsCounter := v; fpsTime := fpsTime r;
     player := player r; obstacles := obstacles r; coins := coins r; powerUps :=
     powerUps r; particles := particles r; lanePositions := lanePositions r; gameSpeed
     := gameSpeed r; baseSpeed := baseSpeed r; score := score r; highScore := highScore
     r; lives := lives r; groundY := groundY r; lastObstacleSpawn := lastObstacleSpawn
     r; lastCoinSpawn := lastCoinSpawn r; lastPowerUpSpawn := lastPowerUpSpawn r;
     obstacleSpawnInterval := obstacleSpawnInterval r; activePowerUps := activePowerUps
     r; touchStartX := touchStartX r; touchStartY := touchStartY r; isMobile := isMobile
     r; canvasHeight := canvasHeight r; mathRandom := mathRandom r; randomCalls :=
     randomCalls r; nextUid := nextUid r; events := events r |}.
Definition set_fpsTime (v : Q) (r : t) : t :=
  {| state := state r; lastTime := lastTime r; fpsCounter := fpsCounter r; fpsTime := v;
     player := player r; obstacles := obstacles r; coins := coins r; powerUps :=
     powerUps r; particles := particles r; lanePositions := lanePositions r; gameSpeed
     := gameSpeed r; baseSpeed := baseSpeed r; score := score r; highScore := highScore
     r; lives := lives r; groundY := groundY r; lastObstacleSpawn := lastObstacleSpawn
     r; lastCoinSpawn := lastCoinSpawn r; lastPowerUpSpawn := lastPowerUpSpawn r;
     obstacleSpawnInterval := obstacleSpawnInterval r; activePowerUps := activePowerUps
     r; touchStartX := touchStartX r; touchStartY := touchStartY r; isMobile := isMobile
     r; canvasHeight := canvasHeight r; mathRandom := mathRandom r; randomCalls :=
     randomCalls r; nextUid := nextUid r; events := events r |}.
Definition set_player (v : Player.t) (r : t) : t :=
  {| state := state r; lastTime := lastTime r; fpsCounter := fpsCounter r; fpsTime :=
     fpsTime r; player := v; obstacles := obstacles r; coins := coins r; powerUps :=
     powerUps r; particles := particles r; lanePositions := lanePositions r; gameSpeed
     := gameSpeed r; baseSpeed := baseSpeed r; score := score r; highScore := highScore
     r; lives := lives r; groundY := groundY r; lastObstacleSpawn := lastObstacleSpawn
     r; lastCoinSpawn := lastCoinSpawn r; lastPowerUpSpawn := lastPowerUpSpawn r;
     obstacleSpawnInterval := obstacleSpawnInterval r; activePowerUps := activePowerUps
     r; touchStartX := touchStartX r; touchStartY := touchStartY r; isMobile := isMobile
     r; canvasHeight := canvasHeight r; mathRandom := mathRandom r; randomCalls :=
     randomCalls r; nextUid := nextUid r; events := events r |}.
Definition set_obstacles (v : list Obstacle.t) (r : t) : t :=
  {| state := state r; lastTime := lastTime r; fpsCounter := fpsCounter r; fpsTime :=
     fpsTime r; player := player r; obstacles := v; coins := coins r; powerUps :=
     powerUps r; particles := particles r; lanePositions := lanePositions r; gameSpeed
     := gameSpeed r; baseSpeed := baseSpeed r; score := score r; highScore := highScore
     r; lives := lives r; groundY := groundY r; lastObstacleSpawn := lastObstacleSpawn
     r; lastCoinSpawn := lastCoinSpawn r; lastPowerUpSpawn := lastPowerUpSpawn r;
     obstacleSpawnInterval := obstacleSpawnInterval r; activePowerUps := activePowerUps
     r; touchStartX := touchStartX r; touchStartY := touchStartY r; isMobile := isMobile
     r; canvasHeight := canvasHeight r; mathRandom := mathRandom r; randomCalls :=
     randomCalls r; nextUid := nextUid r; events := events r |}.
Definition set_coins (v : list Coin.t) (r : t) : t :=
  {| state := state r; lastTime := lastTime r; fpsCounter := fpsCounter r; fpsTime :=
     fpsTime r; player := player r; obstacles := obstacles r; coins := v; powerUps :=
     powerUps r; particles := particles r; lanePositions := lanePositions r; gameSpeed
     := gameSpeed r; baseSpeed := baseSpeed r; score := score r; highScore := highScore
     r; lives := lives r; groundY := groundY r; lastObstacleSpawn := lastObstacleSpawn
     r; lastCoinSpawn := lastCoinSpawn r; lastPowerUpSpawn := lastPowerUpSpawn r;
     obstacleSpawnInterval := obstacleSpawnInterval r; activePowerUps := activePowerUps
     r; touchStartX := touchStartX r; touchStartY := touchStartY r; isMobile := isMobile
     r; canvasHeight := canvasHeight r; mathRandom := mathRandom r; randomCalls :=
     randomCalls r; nextUid := nextUid r; events := events r |}.
Definition set_powerUps (v : list PowerUp.t) (r : t) : t :=
  {| state := state r; lastTime := lastTime r; fpsCounter := fpsCounter r; fpsTime :=
     fpsTime r; player := player r; obstacles := obstacles r; coins := coins r; powerUps
     := v; particles := particles r; lanePositions := lanePositions r; gameSpeed :=
     gameSpeed r; baseSpeed := baseSpeed r; score := score r; highScore := highScore r;
     lives := lives r; groundY := groundY r; lastObstacleSpawn := lastObstacleSpawn r;
     lastCoinSpawn := lastCoinSpawn r; lastPowerUpSpawn := lastPowerUpSpawn r;
     obstacleSpawnInterval := obstacleSpawnInterval r; activePowerUps := activePowerUps
     r; touchStartX := touchStartX r; touchStartY := touchStartY r; isMobile := isMobile
     r; canvasHeight := canvasHeight r; mathRandom := mathRandom r; randomCalls :=
     randomCalls r; nextUid := nextUid r; events := events r |}.
Definition set_particles (v : list Particle.t) (r : t) : t :=
  {| state := state r; lastTime := lastTime r; fpsCounter := fpsCounter r; fpsTime :=
     fpsTime r; player := player r; obstacles := obstacles r; coins := coins r; powerUps
     := powerUps r; particles := v; lanePositions := lanePositions r; gameSpeed :=
     gameSpeed r; baseSpeed := baseSpeed r; score := score r; highScore := highScore r;
     lives := lives r; groundY := groundY r; lastObstacleSpawn := lastObstacleSpawn r;
     lastCoinSpawn := lastCoinSpawn r; lastPowerUpSpawn := lastPowerUpSpawn r;
     obstacleSpawnInterval := obstacleSpawnInterval r; activePowerUps := activePowerUps
     r; touchStartX := touchStartX r; touchStartY := touchStartY r; isMobile := isMobile
     r; canvasHeight := canvasHeight r; mathRandom := mathRandom r; randomCalls :=
     randomCalls r; nextUid := nextUid r; events := events r |}.
Definition set_gameSpeed (v : Q) (r : t) : t :=
  {| state := state r; lastTime := lastTime r; fpsCounter := fpsCounter r; fpsTime :=
     fpsTime r; player := player r; obstacles := obstacles r; coins := coins r; powerUps
     := powerUps r; particles := particles r; lanePositions := lanePositions r;
     gameSpeed := v; baseSpeed := baseSpeed r; score := score r; highScore := highScore
     r; lives := lives r; groundY := groundY r; lastObstacleSpawn := lastObstacleSpawn
     r; lastCoinSpawn := lastCoinSpawn r; lastPowerUpSpawn := lastPowerUpSpawn r;
     obstacleSpawnInterval := obstacleSpawnInterval r; activePowerUps := activePowerUps
     r; touchStartX := touchStartX r; touchStartY := touchStartY r; isMobile := isMobile
     r; canvasHeight := canvasHeight r; mathRandom := mathRandom r; randomCalls :=
     randomCalls r; nextUid := nextUid r; events := events r |}.
Definition set_score (v : Q) (r : t) : t :=
  {| state := state r; lastTime := lastTime r; fpsCounter := fpsCounter r; fpsTime :=
     fpsTime r; player := player r; obstacles := obstacles r; coins := coins r; powerUps
     := powerUps r; particles := particles r; lanePositions := lanePositions r;
     gameSpeed := gameSpeed r; baseSpeed := baseSpeed r; score := v; highScore :=
     highScore r; lives := lives r; groundY := groundY r; lastObstacleSpawn :=
     lastObstacleSpawn r; lastCoinSpawn := lastCoinSpawn r; lastPowerUpSpawn :=
     lastPowerUpSpawn r; obstacleSpawnInterval := obstacleSpawnInterval r;
     activePowerUps := activePowerUps r; touchStartX := touchStartX r; touchStartY :=
     touchStartY r; isMobile := isMobile r; canvasHeight := canvasHeight r; mathRandom
     := mathRandom r; randomCalls := randomCalls r; nextUid := nextUid r; events :=
     events r |}.
Definition set_highScore (v : Q) (r : t) : t :=
  {| state := state r; lastTime := lastTime r; fpsCounter := fpsCounter r; fpsTime :=
     fpsTime r; player := player r; obstacles := obstacles r; coins := coins r; powerUps
     := powerUps r; particles := particles r; lanePositions := lanePositions r;
     gameSpeed := gameSpeed r; baseSpeed := baseSpeed r; score := score r; highScore :=
     v; lives := lives r; groundY := groundY r; lastObstacleSpawn := lastObstacleSpawn
     r; lastCoinSpawn := lastCoinSpawn r; lastPowerUpSpawn := lastPowerUpSpawn r;
     obstacleSpawnInterval := obstacleSpawnInterval r; activePowerUps := activePowerUps
     r; touchStartX := touchStartX r; touchStartY := touchStartY r; isMobile := isMobile
     r; canvasHeight := canvasHeight r; mathRandom := mathRandom r; randomCalls :=
     randomCalls r; nextUid := nextUid r; events := events r |}.
Definition set_lives (v : Z) (r : t) : t :=
  {| state := state r; lastTime := lastTime r; fpsCounter := fpsCounter r; fpsTime :=
     fpsTime r; player := player r; obstacles := obstacles r; coins := coins r; powerUps
     := powerUps r; particles := particles r; lanePositions := lanePositions r;
     gameSpeed := gameSpeed r; baseSpeed := baseSpeed r; score := score r; highScore :=
     highScore r; lives := v; groundY := groundY r; lastObstacleSpawn :=
     lastObstacleSpawn r; lastCoinSpawn := lastCoinSpawn r; lastPowerUpSpawn :=
     lastPowerUpSpawn r; obstacleSpawnInterval := obstacleSpawnInterval r;
     activePowerUps := activePowerUps r; touchStartX := touchStartX r; touchStartY :=
     touchStartY r; isMobile := isMobile r; canvasHeight := canvasHeight r; mathRandom
     := mathRandom r; randomCalls := randomCalls r; nextUid := nextUid r; events :=
     events r |}.
Definition set_lastObstacleSpawn (v : Z) (r : t) : t :=
  {| state := state r; lastTime := lastTime r; fpsCounter := fpsCounter r; fpsTime :=
     fpsTime r; player := player r; obstacles := obstacles r; coins := coins r; powerUps
     := powerUps r; particles := particles r; lanePositions := lanePositions r;
     gameSpeed := gameSpeed r; baseSpeed := baseSpeed r; score := score r; highScore :=
     highScore r; lives := lives r; groundY := groundY r; lastObstacleSpawn := v;
     lastCoinSpawn := lastCoinSpawn r; lastPowerUpSpawn := lastPowerUpSpawn r;
     obstacleSpawnInterval := obstacleSpawnInterval r; activePowerUps := activePowerUps
     r; touchStartX := touchStartX r; touchStartY := touchStartY r; isMobile := isMobile
     r; canvasHeight := canvasHeight r; mathRandom := mathRandom r; randomCalls :=
     randomCalls r; nextUid := nextUid r; events := events r |}.
Definition set_lastCoinSpawn (v : Z) (r : t) : t :=
  {| state := state r; lastTime := lastTime r; fpsCounter := fpsCounter r; fpsTime :=
     fpsTime r; player := player r; obstacles := obstacles r; coins := coins r; powerUps
     := powerUps r; particles := particles r; lanePositions := lanePositions r;
     gameSpeed := gameSpeed r; baseSpeed := baseSpeed r; score := score r; highScore :=
     highScore r; lives := lives r; groundY := groundY r; lastObstacleSpawn :=
     lastObstacleSpawn r; lastCoinSpawn := v; lastPowerUpSpawn := lastPowerUpSpawn r;
     obstacleSpawnInterval := obstacleSpawnInterval r; activePowerUps := activePowerUps
     r; touchStartX := touchStartX r; touchStartY := touchStartY r; isMobile := isMobile
     r; canvasHeight := canvasHeight r; mathRandom := mathRandom r; randomCalls :=
     randomCalls r; nextUid := nextUid r; events := events r |}.
Definition set_lastPowerUpSpawn (v : Z) (r : t) : t :=
  {| state := state r; lastTime := lastTime r; fpsCounter := fpsCounter r; fpsTime :=
     fpsTime r; player := player r; obstacles := obstacles r; coins := coins r; powerUps
     := powerUps r; particles := particles r; lanePositions := lanePositions r;
     gameSpeed := gameSpeed r; baseSpeed := baseSpeed r; score := score r; highScore :=
     highScore r; lives := lives r; groundY := groundY r; lastObstacleSpawn :=
     lastObstacleSpawn r; lastCoinSpawn := lastCoinSpawn r; lastPowerUpSpawn := v;
     obstacleSpawnInterval := obstacleSpawnInterval r; activePowerUps := activePowerUps
     r; touchStartX := touchStartX r; touchStartY := touchStartY r; isMobile := isMobile
     r; canvasHeight := canvasHeight r; mathRandom := mathRandom r; randomCalls :=
     randomCalls r; nextUid := nextUid r; events := events r |}.
Definition set_obstacleSpawnInterval (v : Z) (r : t) : t :=
  {| state := state r; lastTime := lastTime r; fpsCounter := fpsCounter r; fpsTime :=
     fpsTime r; player := player r; obstacles := obstacles r; coins := coins r; powerUps
     := powerUps r; particles := particles r; lanePositions := lanePositions r;
     gameSpeed := gameSpeed r; baseSpeed := baseSpeed r; score := score r; highScore :=
     highScore r; lives := lives r; groundY := groundY r; lastObstacleSpawn :=
     lastObstacleSpawn r; lastCoinSpawn := lastCoinSpawn r; lastPowerUpSpawn :=
     lastPowerUpSpawn r; obstacleSpawnInterval := v; activePowerUps := activePowerUps r;
     touchStartX := touchStartX r; touchStartY := touchStartY r; isMobile := isMobile r;
     canvasHeight := canvasHeight r; mathRandom := mathRandom r; randomCalls :=
     randomCalls r; nextUid := nextUid r; events := events r |}.
Definition set_activePowerUps (v : gmap PowerUpType Z) (r : t) : t :=
  {| state := state r; lastTime := lastTime r; fpsCounter := fpsCounter r; fpsTime :=
     fpsTime r; player := player r; obstacles := obstacles r; coins := coins r; powerUps
     := powerUps r; particles := particles r; lanePositions := lanePositions r;
     gameSpeed := gameSpeed r; baseSpeed := baseSpeed r; score := score r; highScore :=
     highScore r; lives := lives r; groundY := groundY r; lastObstacleSpawn :=
     lastObstacleSpawn r; lastCoinSpawn := lastCoinSpawn r; lastPowerUpSpawn :=
     lastPowerUpSpawn r; obstacleSpawnInterval := obstacleSpawnInterval r;
     activePowerUps := v; touchStartX := touchStartX r; touchStartY := touchStartY r;
     isMobile := isMobile r; canvasHeight := canvasHeight r; mathRandom := mathRandom r;
     randomCalls := randomCalls r; nextUid := nextUid r; events := events r |}.
Definition set_touchStartX (v : Q) (r : t) : t :=
  {| state := state r; lastTime := lastTime r; fpsCounter := fpsCounter r; fpsTime :=
     fpsTime r; player := player r; obstacles := obstacles r; coins := coins r; powerUps
     := powerUps r; particles := particles r; lanePositions := lanePositions r;
     gameSpeed := gameSpeed r; baseSpeed := baseSpeed r; score := score r; highScore :=
     highScore r; lives := lives r; groundY := groundY r; lastObstacleSpawn :=
     lastObstacleSpawn r; lastCoinSpawn := lastCoinSpawn r; lastPowerUpSpawn :=
     lastPowerUpSpawn r; obstacleSpawnInterval := obstacleSpawnInterval r;
     activePowerUps := activePowerUps r; touchStartX := v; touchStartY := touchStartY r;
     isMobile := isMobile r; canvasHeight := canvasHeight r; mathRandom := mathRandom r;
     randomCalls := randomCalls r; nextUid := nextUid r; events := events r |}.
Definition set_touchStartY (v : Q) (r : t) : t :=
  {| state := state r; lastTime := lastTime r; fpsCounter := fpsCounter r; fpsTime :=
     fpsTime r; player := player r; obstacles := obstacles r; coins := coins r; powerUps
     := powerUps r; particles := particles r; lanePositions := lanePositions r;
     gameSpeed := gameSpeed r; baseSpeed := baseSpeed r; score := score r; highScore :=
     highScore r; lives := lives r; groundY := groundY r; lastObstacleSpawn :=
     lastObstacleSpawn r; lastCoinSpawn := lastCoinSpawn r; lastPowerUpSpawn :=
     lastPowerUpSpawn r; obstacleSpawnInterval := obstacleSpawnInterval r;
     activePowerUps := activePowerUps r; touchStartX := touchStartX r; touchStartY := v;
     isMobile := isMobile r; canvasHeight := canvasHeight r; mathRandom := mathRandom r;
     randomCalls := randomCalls r; nextUid := nextUid r; events := events r |}.
Definition set_randomCalls (v : nat) (r : t) : t :=
  {| state := state r; lastTime := lastTime r; fpsCounter := fpsCounter r; fpsTime :=
     fpsTime r; player := player r; obstacles := obstacles r; coins := coins r; powerUps
     := powerUps r; particles := particles r; lanePositions := lanePositions r;
     gameSpeed := gameSpeed r; baseSpeed := baseSpeed r; score := score r; highScore :=
     highScore r; lives := lives r; groundY := groundY r; lastObstacleSpawn :=
     lastObstacleSpawn r; lastCoinSpawn := lastCoinSpawn r; lastPowerUpSpawn :=
     lastPowerUpSpawn r; obstacleSpawnInterval := obstacleSpawnInterval r;
     activePowerUps := activePowerUps r; touchStartX := touchStartX r; touchStartY :=
     touchStartY r; isMobile := isMobile r; canvasHeight := canvasHeight r; mathRandom
     := mathRandom r; randomCalls := v; nextUid := nextUid r; events := events r |}.
Definition set_nextUid (v : nat) (r : t) : t :=
  {| state := state r; lastTime := lastTime r; fpsCounter := fpsCounter r; fpsTime :=
     fpsTime r; player := player r; obstacles := obstacles r; coins := coins r; powerUps
     := powerUps r; particles := particles r; lanePositions := lanePositions r;
     gameSpeed := gameSpeed r; baseSpeed := baseSpeed r; score := score r; highScore :=
     highScore r; lives := lives r; groundY := groundY r; lastObstacleSpawn :=
     lastObstacleSpawn r; lastCoinSpawn := lastCoinSpawn r; lastPowerUpSpawn :=
     lastPowerUpSpawn r; obstacleSpawnInterval := obstacleSpawnInterval r;
     activePowerUps := activePowerUps r; touchStartX := touchStartX r; touchStartY :=
     touchStartY r; isMobile := isMobile r; canvasHeight := canvasHeight r; mathRandom
     := mathRandom r; randomCalls := randomCalls r; nextUid := v; events := events r |}.
Definition set_events (v : list Event) (r : t) : t :=
  {| state := state r; lastTime := lastTime r; fpsCounter := fpsCounter r; fpsTime :=
     fpsTime r; player := player r; obstacles := obstacles r; coins := coins r; powerUps
     := powerUps r; particles := particles r; lanePositions := lanePositions r;
     gameSpeed := gameSpeed r; baseSpeed := baseSpeed r; score := score r; highScore :=
     highScore r; lives := lives r; groundY := groundY r; lastObstacleSpawn :=
     lastObstacleSpawn r; lastCoinSpawn := lastCoinSpawn r; lastPowerUpSpawn :=
     lastPowerUpSpawn r; obstacleSpawnInterval := obstacleSpawnInterval r;
     activePowerUps := activePowerUps r; touchStartX := touchStartX r; touchStartY :=
     touchStartY r; isMobile := isMobile r; canvasHeight := canvasHeight r; mathRandom
     := mathRandom r; randomCalls := randomCalls r; nextUid := nextUid r; events := v
     |}.

(** [new GameEngine(ctx, width, height, isMobile)].  Of [ctx] only
    [ctx.canvas.height] is ever read by the simulation; [mathRandom] is the
    environment's random source.  The constructor body has no validation and
    no [throw]: it computes the lane table and the ground line, creates the
    player and registers the input handlers. *)
Definition construct (canvasHeight width height : Q) (isMobile : bool)
    (mathRandom : nat -> Q) : t :=
  let lanePositions := [ (width * 0.25)%Q; (width * 0.5)%Q; (width * 0.75)%Q ] in
  let groundY := (height * 0.8)%Q in
  {| state := menu; lastTime := 0; fpsCounter := 0; fpsTime := 0;
     player := Player.new (laneAt lanePositions 1) groundY groundY;
     obstacles := []; coins := []; powerUps := []; particles := [];
     lanePositions := lanePositions;
     gameSpeed := 300; baseSpeed := 300; score := 0; highScore := 0; lives := 3;
     groundY := groundY;
     lastObstacleSpawn := 0; lastCoinSpawn := 0; lastPowerUpSpawn := 0;
     obstacleSpawnInterval := 2000;
     activePowerUps := ∅; touchStartX := 0; touchStartY := 0;
     isMobile := isMobile; canvasHeight := canvasHeight;
     mathRandom := mathRandom; randomCalls := 0; nextUid := 0; events := [] |}.

Definition new (canvasHeight width height : Q) (isMobile : bool)
    (mathRandom : nat -> Q) : Completion t :=
  Returns (construct canvasHeight width height isMobile mathRandom).

(** [Math.random()] *)
Definition Math_random (this : t) : Q * t :=
  (mathRandom this (randomCalls this), set_randomCalls (S (randomCalls this)) this).

(** A call of an observer callback. *)
Definition emit (e : Event) (this : t) : t := set_events (events this ++ [e]) this.

(** [this.activePowerUps.has(type)] *)
Definition has (type : PowerUpType) (this : t) : bool :=
  match activePowerUps this !! type with Some _ => true | None => false end.

Definition setState (newState : GameState) (this : t) : t :=
  emit (StateChange newState) (set_state newState this).

Definition resetGame (this : t) : t :=
  let this := set_score 0 this in
  let this := set_lives 3 this in
  let this := set_gameSpeed (baseSpeed this) this in
  let this := set_obstacles [] this in
  let this := set_coins [] this in
  let this := set_powerUps [] this in
  let this := set_particles [] this in
  let this := set_activePowerUps ∅ this in
  let this := set_lastObstacleSpawn 0 this in
  let this := set_lastCoinSpawn 0 this in
  let this := set_lastPowerUpSpawn 0 this in
  let this := set_player
    (Player.new (laneAt (lanePositions this) 1) (groundY this) (groundY this)) this in
  emit (ScoreChange 0) this.

Definition startGame (this : t) : t := setState playing (resetGame this).

Definition pauseGame (this : t) : t :=
  if bool_decide (state this = playing) then setState paused this else this.

Definition resumeGame (this : t) : t :=
  if bool_decide (state this = paused) then setState playing this else this.

Definition setHighScore (score : Q) (this : t) : t := set_highScore score this.

(** [createParticles(position, color, count)]: two draws per particle. *)
Fixpoint createParticles (position : Vector2D.t) (color : string) (count : nat) (this : t) : t :=
  match count with
  | O => this
  | S count' =>
      let (r1, this) := Math_random this in
      let (r2, this) := Math_random this in
      let velocity := Vector2D.mk (random (-100) 100 r1) (random (-100) (-200) r2) in
      let this := set_particles (particles this ++ [Particle.new position velocity color]) this in
      createParticles position color count' this
  end.

(** [types[Math.floor(Math.random() * types.length)]] for the two three-entry
    tables; an index outside [{0,1,2}] would read [undefined], which no draw
    of [[0,1)] produces (see [laneIndex_range]). *)
Definition obstacleTypeAt (i : Z) : ObstacleType :=
  match i with 0 => barrier | 1 => train | _ => low end.

Definition powerUpTypeAt (i : Z) : PowerUpType :=
  match i with 0 => magnet | 1 => speed | _ => shield end.

Definition spawnObstacle (this : t) : t :=
  let (r1, this) := Math_random this in
  let lane := laneIndex r1 in
  let (r2, this) := Math_random this in
  let type := obstacleTypeAt (Qfloor (r2 * 3)) in
  let obstacle := Obstacle.new (nextUid this)
    (Vector2D.mk (laneAt (lanePositions this) lane) (-100)) lane type in
  let this := set_nextUid (S (nextUid this)) this in
  set_obstacles (obstacles this ++ [obstacle]) this.

(** The cluster size of [spawnCoin] from its first draw [r1] and, when that
    is not below 0.3, its second draw [r2]. *)
Definition numCoins (r1 r2 : Q) : nat :=
  if Qltb r1 0.3 then 3 else if Qltb r2 0.6 then 2 else 1.

(** The body of the [for] loop of [spawnCoin] at index [i]: the lane and the
    coin it creates. *)
Definition clusterCoin (lanePositions : list Q) (baseLane : Z) (uid i : nat) : Coin.t :=
  let lane := Z.min 2 (baseLane + Z.of_nat i) in
  Coin.new uid
    (Vector2D.mk (laneAt lanePositions lane) (-100 - inject_Z (Z.of_nat i) * 30)) lane.

(** The [for] loop of [spawnCoin], from index [i] with [n] rounds left. *)
Fixpoint spawnCoinLoop (baseLane : Z) (n i : nat) (this : t) : t :=
  match n with
  | O => this
  | S n' =>
      let coin := clusterCoin (lanePositions this) baseLane (nextUid this) i in
      let this := set_nextUid (S (nextUid this)) this in
      let this := set_coins (coins this ++ [coin]) this in
      spawnCoinLoop baseLane n' (S i) this
  end.

Definition spawnCoin (this : t) : t :=
  let (r1, this) := Math_random this in
  let '(n, this) :=
    if Qltb r1 0.3 then (3%nat, this)
    else let (r2, this) := Math_random this in
         (if Qltb r2 0.6 then 2%nat else 1%nat, this) in
  let (r3, this) := Math_random this in
  let baseLane := laneIndex r3 in
  spawnCoinLoop baseLane n 0 this.

Definition spawnPowerUp (this : t) : t :=
  let (r1, this) := Math_random this in
  let lane := laneIndex r1 in
  let (r2, this) := Math_random this in
  let type := powerUpTypeAt (Qfloor (r2 * 3)) in
  let powerUp := PowerUp.new (nextUid this)
    (Vector2D.mk (laneAt (lanePositions this) lane) (-100)) lane type in
  let this := set_nextUid (S (nextUid this)) this in
  set_powerUps (powerUps this ++ [powerUp]) this.

Definition isColliding (rect1 rect2 : Hitbox.t) : bool :=
  Qltb (Hitbox.x rect1) (Hitbox.x rect2 + Hitbox.width rect2) &&
  Qltb (Hitbox.x rect2) (Hitbox.x rect1 + Hitbox.width rect1) &&
  Qltb (Hitbox.y rect1) (Hitbox.y rect2 + Hitbox.height rect2) &&
  Qltb (Hitbox.y rect2) (Hitbox.y rect1 + Hitbox.height rect1).

Definition duration (type : PowerUpType) : Z :=
  match type with magnet => 8000 | speed => 6000 | shield => 10000 end.

(** [activatePowerUp(type)], with [now] the value of its [Date.now()]. *)
Definition activatePowerUp (type : PowerUpType) (now : Z) (this : t) : t :=
  let this := set_activePowerUps (<[type := now + duration type]> (activePowerUps this)) this in
  match type with
  | shield =>
      let this := set_player (Player.set_invulnerable true (player this)) this in
      set_player (Player.set_invulnerableTime (inject_Z (duration type)) (player this)) this
  | _ => this
  end.

Definition handlePlayerHit (this : t) : t :=
  if has shield this then this
  else
    let this := set_lives (lives this - 1) this in
    let this := emit (PlaySound "hit") this in
    let this := createParticles (Player.position (player this)) "#FF4444" 10 this in
    let this := set_player (Player.set_invulnerable true (player this)) this in
    let this := set_player (Player.set_invulnerableTime 2000 (player this)) this in
    if lives this <=? 0 then
      let this := setState gameOver this in
      emit (PlaySound "gameover") this
    else this.

Definition powerUpColor (type : PowerUpType) : string :=
  match type with magnet => "#9B59B6" | speed => "#E74C3C" | shield => "#3498DB" end.

(** The coin loop of [checkCollisions]: the coins are flagged in place, so
    the loop returns the list with its (possibly flagged) elements. *)
Fixpoint collectCoins (playerHitbox : Hitbox.t) (cs : list Coin.t) (this : t)
    : list Coin.t * t :=
  match cs with
  | [] => ([], this)
  | coin :: rest =>
      if negb (Coin.collected coin) && isColliding playerHitbox (Coin.getHitbox coin) then
        let coin := Coin.set_collected true coin in
        let this := set_score (score this + 10) this in
        let this := emit (PlaySound "coin") this in
        let this := createParticles (Coin.position coin) "#FFD700" 5 this in
        let (rest', this) := collectCoins playerHitbox rest this in
        (coin :: rest', this)
      else
        let (rest', this) := collectCoins playerHitbox rest this in
        (coin :: rest', this)
  end.

(** The power-up loop of [checkCollisions]. *)
Fixpoint collectPowerUps (playerHitbox : Hitbox.t) (now : Z) (ps : list PowerUp.t) (this : t)
    : list PowerUp.t * t :=
  match ps with
  | [] => ([], this)
  | powerUp :: rest =>
      if negb (PowerUp.collected powerUp)
         && isColliding playerHitbox (PowerUp.getHitbox powerUp) then
        let powerUp := PowerUp.set_collected true powerUp in
        let this := activatePowerUp (PowerUp.type powerUp) now this in
        let this := emit (PlaySound "powerup") this in
        let this := createParticles (PowerUp.position powerUp)
                      (powerUpColor (PowerUp.type powerUp)) 8 this in
        let (rest', this) := collectPowerUps playerHitbox now rest this in
        (powerUp :: rest', this)
      else
        let (rest', this) := collectPowerUps playerHitbox now rest this in
        (powerUp :: rest', this)
  end.

(** The obstacle loop: [handlePlayerHit(); break] at the first overlap. *)
Fixpoint hitFirstObstacle (playerHitbox : Hitbox.t) (os : list Obstacle.t) (this : t) : t :=
  match os with
  | [] => this
  | obstacle :: rest =>
      if isColliding playerHitbox (Obstacle.getHitbox obstacle)
      then handlePlayerHit this
      else hitFirstObstacle playerHitbox rest this
  end.

(** The last block of [checkCollisions] (lines 776-784). *)
Definition checkObstacles (playerHitbox : Hitbox.t) (this : t) : t :=
  if negb (Player.invulnerable (player this))
  then hitFirstObstacle playerHitbox (obstacles this) this
  else this.

(** The state when the obstacle block of [checkCollisions] is entered. *)
Definition afterPickups (now : Z) (this : t) : t :=
  let playerHitbox := Player.getHitbox (player this) in
  let (coins', this) := collectCoins playerHitbox (coins this) this in
  let this := set_coins coins' this in
  let (powerUps', this) := collectPowerUps playerHitbox now (powerUps this) this in
  set_powerUps powerUps' this.

(** [checkCollisions()]; [now] is what [Date.now()] returns to the
    activations it makes.  The player's hit box is taken once, on entry. *)
Definition checkCollisions (now : Z) (this : t) : t :=
  let playerHitbox := Player.getHitbox (player this) in
  checkObstacles playerHitbox (afterPickups now this).

(** The three spawn gates of [update], in source order. *)
Definition spawnGates (currentTime : Z) (this : t) : t :=
  let this :=
    if currentTime - lastObstacleSpawn this >? obstacleSpawnInterval this
    then set_lastObstacleSpawn currentTime (spawnObstacle this) else this in
  let this :=
    if currentTime - lastCoinSpawn this >? 1500
    then set_lastCoinSpawn currentTime (spawnCoin this) else this in
  if currentTime - lastPowerUpSpawn this >? 15000
  then set_lastPowerUpSpawn currentTime (spawnPowerUp this) else this.

(** The four [filter] calls of [update]: each callback first updates the
    element in place, then decides whether it stays. *)
Definition advanceEntities (deltaTime : Q) (this : t) : t :=
  let this := set_obstacles
    (List.filter
       (fun obstacle => Qltb (Vector2D.y (Obstacle.position obstacle)) (canvasHeight this + 100))
       (List.map (Obstacle.update deltaTime (gameSpeed this)) (obstacles this))) this in
  let magnetActive := has magnet this in
  let this := set_coins
    (List.filter
       (fun coin => Qltb (Vector2D.y (Coin.position coin)) (canvasHeight this + 50)
                    && negb (Coin.collected coin))
       (List.map (Coin.update deltaTime (gameSpeed this) (Player.position (player this)) magnetActive)
                 (coins this))) this in
  let this := set_powerUps
    (List.filter
       (fun powerUp => Qltb (Vector2D.y (PowerUp.position powerUp)) (canvasHeight this + 50)
                       && negb (PowerUp.collected powerUp))
       (List.map (PowerUp.update deltaTime (gameSpeed this)) (powerUps this))) this in
  set_particles
    (List.map fst (List.filter snd (List.map (Particle.update deltaTime) (particles this)))) this.

(** The expiry loop of [update]: entries with [currentTime > endTime] are deleted. *)
Definition expirePowerUps (currentTime : Z) (this : t) : t :=
  set_activePowerUps
    (filter (fun entry : PowerUpType * Z => ¬ (currentTime > entry.2)) (activePowerUps this))
    this.

(** Game speed, spawn interval and score: the last block of [update]. *)
Definition updateDifficulty (deltaTime : Q) (this : t) : t :=
  let speedIncrease := Qfloor (score this / 500) * 50 in
  let this := set_gameSpeed (baseSpeed this + inject_Z speedIncrease) this in
  let this := set_obstacleSpawnInterval
    (Z.max 800 (2000 - Qfloor (score this / 200) * 100)) this in
  let this := set_score (score this + deltaTime * 10) this in
  emit (ScoreChange (Qfloor (score this))) this.

(** [update(deltaTime)] up to and including the collision check; [now] is
    the value of [Date.now()]. *)
Definition updateEntities (deltaTime : Q) (now : Z) (this : t) : t :=
  let currentTime := now in
  let this := set_player (Player.update deltaTime (lanePositions this) (player this)) this in
  let this := spawnGates currentTime this in
  let this := advanceEntities deltaTime this in
  let this := expirePowerUps currentTime this in
  checkCollisions now this.

(** [update(deltaTime)] *)
Definition update (deltaTime : Q) (now : Z) (this : t) : t :=
  updateDifficulty deltaTime (updateEntities deltaTime now this).

(** [gameLoop(currentTime)]; [render()] draws and changes nothing. *)
Definition gameLoop (currentTime : Q) (now : Z) (this : t) : t :=
  let deltaTime := Qmin ((currentTime - lastTime this) / 1000) 0.016 in
  let this := set_lastTime currentTime this in
  let this := set_fpsCounter (fpsCounter this + 1) this in
  let this := set_fpsTime (fpsTime this + deltaTime) this in
  let this :=
    if Qle_bool 1 (fpsTime this) then
      let this := emit (FpsChange (inject_Z (fpsCounter this) / fpsTime this)) this in
      let this := set_fpsCounter 0 this in
      set_fpsTime 0 this
    else this in
  if bool_decide (state this = playing) then update deltaTime now this else this.

(** [start()] *)
Definition start (now : Z) (this : t) : t := gameLoop 0 now this.

(** The [touchend] listener, registered when [isMobile]. *)
Definition onTouchEnd (clientX clientY : Q) (this : t) : t :=
  if bool_decide (state this = menu) || bool_decide (state this = gameOver) then startGame this
  else if negb (bool_decide (state this = playing)) then this
  else
    let deltaX := (clientX - touchStartX this)%Q in
    let deltaY := (clientY - touchStartY this)%Q in
    let threshold := 30%Q in
    if Qltb (Qabs deltaY) (Qabs deltaX) then
      if Qltb threshold deltaX then set_player (Player.moveLane 1 (player this)) this
      else if Qltb deltaX (- threshold) then set_player (Player.moveLane (-1) (player this)) this
      else this
    else
      if Qltb deltaY (- threshold) then
        emit (PlaySound "jump") (set_player (Player.jump (player this)) this)
      else if Qltb threshold deltaY then
        emit (PlaySound "slide") (set_player (Player.slide (player this)) this)
      else this.

(** The [keydown] listener, registered when not [isMobile].  The [keys] set
    it fills is read nowhere and is left out. *)
Definition onKeyDown (code : string) (this : t) : t :=
  if bool_decide (state this = menu) || bool_decide (state this = gameOver) then
    if String.eqb code "Enter" || String.eqb code "Space" then startGame this else this
  else if bool_decide (state this = playing) then
    if String.eqb code "ArrowLeft" then set_player (Player.moveLane (-1) (player this)) this
    else if String.eqb code "ArrowRight" then set_player (Player.moveLane 1 (player this)) this
    else if String.eqb code "ArrowUp" || String.eqb code "Space" then
      emit (PlaySound "jump") (set_player (Player.jump (player this)) this)
    else if String.eqb code "ArrowDown" then
      emit (PlaySound "slide") (set_player (Player.slide (player this)) this)
    else if String.eqb code "Escape" then pauseGame this
    else this
  else if bool_decide (state this = paused) && String.eqb code "Escape" then resumeGame this
  else this.

(** The [click] listener of the canvas. *)
Definition onClick (this : t) : t :=
  if bool_decide (state this = menu) || bool_decide (state this = gameOver) then startGame this
  else this.
(** Normal form of a chain of field updates on an explicit record. *)
Ltac engine_norm :=
  cbv beta iota delta
    [set_state set_lastTime set_fpsCounter set_fpsTime set_player set_obstacles set_coins
     set_powerUps set_particles set_gameSpeed set_score set_highScore set_lives
     set_lastObstacleSpawn set_lastCoinSpawn set_lastPowerUpSpawn set_obstacleSpawnInterval
     set_activePowerUps set_touchStartX set_touchStartY set_randomCalls set_nextUid
     set_events emit setState
     state lastTime fpsCounter fpsTime player obstacles coins powerUps particles
     lanePositions gameSpeed baseSpeed score highScore lives groundY lastObstacleSpawn
     lastCoinSpawn lastPowerUpSpawn obstacleSpawnInterval activePowerUps touchStartX
     touchStartY isMobile canvasHeight mathRandom randomCalls nextUid events].
(** The same on a hypothesis. *)
Ltac engine_norm_in H :=
  cbv beta iota delta
    [set_state set_lastTime set_fpsCounter set_fpsTime set_player set_obstacles set_coins
     set_powerUps set_particles set_gameSpeed set_score set_highScore set_lives
     set_lastObstacleSpawn set_lastCoinSpawn set_lastPowerUpSpawn set_obstacleSpawnInterval
     set_activePowerUps set_touchStartX set_touchStartY set_randomCalls set_nextUid
     set_events emit setState
     state lastTime fpsCounter fpsTime player obstacles coins powerUps particles
     lanePositions gameSpeed baseSpeed score highScore lives groundY lastObstacleSpawn
     lastCoinSpawn lastPowerUpSpawn obstacleSpawnInterval activePowerUps touchStartX
     touchStartY isMobile canvasHeight mathRandom randomCalls nextUid events] in H.
Tactic Notation "engine_norm" "in" hyp(H) := engine_norm_in H.
End GameEngine.

(** ** The engine as a transition system *)

(** Everything that can happen to a constructed engine: a DOM event reaching
    one of its listeners, a call of a public method by the page component, or
    an animation frame.  [AnimationFrame time now] carries the frame's
    timestamp and the wall clock read during the frame. *)
Inductive Input : Type :=
  | TouchStart (clientX clientY : Q)
  | TouchEnd (clientX clientY : Q)
  | KeyDown (code : string)
  | Click
  | CallStart (now : Z)
  | CallStartGame
  | CallPauseGame
  | CallResumeGame
  | CallResetGame
  | CallSetHighScore (score : Q)
  | AnimationFrame (time : Q) (now : Z).

Definition step (this : GameEngine.t) (input : Input) : GameEngine.t :=
  match input with
  | TouchStart clientX clientY =>
      if GameEngine.isMobile this
      then GameEngine.set_touchStartY clientY (GameEngine.set_touchStartX clientX this)
      else this
  | TouchEnd clientX clientY =>
      if GameEngine.isMobile this then GameEngine.onTouchEnd clientX clientY this else this
  | KeyDown code =>
      if GameEngine.isMobile this then this else GameEngine.onKeyDown code this
  | Click => GameEngine.onClick this
  | CallStart now => GameEngine.start now this
  | CallStartGame => GameEngine.startGame this
  | CallPauseGame => GameEngine.pauseGame this
  | CallResumeGame => GameEngine.resumeGame this
  | CallResetGame => GameEngine.resetGame this
  | CallSetHighScore score => GameEngine.setHighScore score this
  | AnimationFrame time now => GameEngine.gameLoop time now this
  end.

Definition run (inputs : list Input) (this : GameEngine.t) : GameEngine.t :=
  fold_left step inputs this.

(** The states an engine can be in: those a run reaches from a fresh one. *)
Inductive reachable : GameEngine.t -> Prop :=
  | reachable_new canvasHeight width height isMobile mathRandom :
      reachable (GameEngine.construct canvasHeight width height isMobile mathRandom)
  | reachable_step this input :
      reachable this -> reachable (step this input).

(** ** Vocabulary of the statements *)

(** Two player records that differ at most in the invulnerability flag and
    its timer: what [activatePowerUp] and [handlePlayerHit] may change. *)
Definition onlyInvulnerability (p p' : Player.t) : Prop :=
  exists b q, p' = Player.set_invulnerableTime q (Player.set_invulnerable b p).

(** The configuration fixed by the constructor. *)
Definition sameConfig (s s' : GameEngine.t) : Prop :=
  GameEngine.lanePositions s' = GameEngine.lanePositions s /\
  GameEngine.baseSpeed s' = GameEngine.baseSpeed s /\
  GameEngine.groundY s' = GameEngine.groundY s /\
  GameEngine.isMobile s' = GameEngine.isMobile s /\
  GameEngine.canvasHeight s' = GameEngine.canvasHeight s /\
  GameEngine.mathRandom s' = GameEngine.mathRandom s.

(** Identities of the entities in the three lists. *)
Definition obstacleIds (s : GameEngine.t) : list nat :=
  List.map Obstacle.uid (GameEngine.obstacles s).
Definition coinIds (s : GameEngine.t) : list nat :=
  List.map Coin.uid (GameEngine.coins s).
Definition powerUpIds (s : GameEngine.t) : list nat :=
  List.map PowerUp.uid (GameEngine.powerUps s).

(** What an unshielded hit does, up to the particles it creates. *)
Definition hitOutcome (pts : list Particle.t) (k : nat) (this : GameEngine.t) : GameEngine.t :=
  let hit :=
    GameEngine.set_player
      (Player.set_invulnerableTime 2000
         (Player.set_invulnerable true (GameEngine.player this)))
      (GameEngine.set_particles pts (GameEngine.set_randomCalls k
        (GameEngine.set_events (GameEngine.events this ++ [PlaySound "hit"])
           (GameEngine.set_lives (GameEngine.lives this - 1) this)))) in
  if GameEngine.lives this - 1 <=? 0
  then GameEngine.set_events
         (GameEngine.events this
            ++ [PlaySound "hit"; StateChange gameOver; PlaySound "gameover"])
         (GameEngine.set_state gameOver hit)
  else hit.

(** Whether some obstacle of the list overlaps the hit box. *)
Definition overlapsObstacle (playerHitbox : Hitbox.t) (this : GameEngine.t) : bool :=
  existsb (fun o => GameEngine.isColliding playerHitbox (Obstacle.getHitbox o)) (GameEngine.obstacles this).

(** The serial numbers handed out between two states. *)
Definition freshIds (s s' : GameEngine.t) : list nat :=
  seq (GameEngine.nextUid s) (GameEngine.nextUid s' - GameEngine.nextUid s).

(** How the three entity lists may change: elements are dropped, and
    elements with serial numbers not used before are added. *)
Definition idsStep (s s' : GameEngine.t) : Prop :=
  (GameEngine.nextUid s <= GameEngine.nextUid s')%nat /\
  sublist (obstacleIds s') (obstacleIds s ++ freshIds s s') /\
  sublist (coinIds s') (coinIds s ++ freshIds s s') /\
  sublist (powerUpIds s') (powerUpIds s ++ freshIds s s').

(** Serial numbers identify: no list holds one twice, and all are allocated. *)
Definition idsOk (s : GameEngine.t) : Prop :=
  NoDup (obstacleIds s) /\ NoDup (coinIds s) /\ NoDup (powerUpIds s) /\
  Forall (fun i => (i < GameEngine.nextUid s)%nat) (obstacleIds s) /\
  Forall (fun i => (i < GameEngine.nextUid s)%nat) (coinIds s) /\
  Forall (fun i => (i < GameEngine.nextUid s)%nat) (powerUpIds s).

(** A session that is not over has a life left. *)
Definition livesOk (s : GameEngine.t) : Prop :=
  GameEngine.state s <> gameOver -> 1 <= GameEngine.lives s.

(** The coins one firing of the coin gate appends: [n] coins from base lane
    [baseLane], the first with serial number [uid]. *)
Definition cluster (lanePositions : list Q) (baseLane : Z) (uid n : nat) : list Coin.t :=
  List.map (fun i => GameEngine.clusterCoin lanePositions baseLane (uid + i) i) (seq 0 n).

(** Two states that differ at most in the entity lists, the particle list,
    the allocation and random counters and the three spawn stamps: what
    spawning and advancing may change. *)
Definition sameSession (s s' : GameEngine.t) : Prop :=
  sameConfig s s' /\
  GameEngine.player s' = GameEngine.player s /\
  GameEngine.lives s' = GameEngine.lives s /\
  GameEngine.state s' = GameEngine.state s /\
  GameEngine.activePowerUps s' = GameEngine.activePowerUps s /\
  GameEngine.score s' = GameEngine.score s /\
  GameEngine.events s' = GameEngine.events s /\
  GameEngine.gameSpeed s' = GameEngine.gameSpeed s /\
  GameEngine.obstacleSpawnInterval s' = GameEngine.obstacleSpawnInterval s.

(** What one input can do to the engine: the calls the listeners and the
    public methods make, with the conditions under which they make them. *)
Inductive Effect (s : GameEngine.t) : GameEngine.t -> Prop :=
  | effect_none : Effect s s
  | effect_touchStart x y :
      Effect s (GameEngine.set_touchStartY y (GameEngine.set_touchStartX x s))
  | effect_startGame : Effect s (GameEngine.startGame s)
  | effect_resetGame : Effect s (GameEngine.resetGame s)
  | effect_pause :
      GameEngine.state s = playing -> Effect s (GameEngine.setState paused s)
  | effect_resume :
      GameEngine.state s = paused -> Effect s (GameEngine.setState playing s)
  | effect_moveLane direction :
      direction = 1 \/ direction = -1 ->
      GameEngine.state s = playing ->
      Effect s (GameEngine.set_player (Player.moveLane direction (GameEngine.player s)) s)
  | effect_jump :
      GameEngine.state s = playing ->
      Effect s (GameEngine.emit (PlaySound "jump")
                  (GameEngine.set_player (Player.jump (GameEngine.player s)) s))
  | effect_slide :
      GameEngine.state s = playing ->
      Effect s (GameEngine.emit (PlaySound "slide")
                  (GameEngine.set_player (Player.slide (GameEngine.player s)) s))
  | effect_setHighScore score : Effect s (GameEngine.setHighScore score s)
  | effect_gameLoop time now : Effect s (GameEngine.gameLoop time now s).

(** Both lane indices of the player are lanes of the corridor. *)
Definition lanesInRange (p : Player.t) : Prop :=
  (0 <= Player.targetLane p <= 2) /\ (0 <= Player.currentLane p <= 2).

(** The player is not jumping and sliding at once. *)
Definition exclusiveMoves (p : Player.t) : Prop :=
  ~ (Player.isJumping p = true /\ Player.isSliding p = true).

(** A fresh engine on an 800-high canvas for a 600 x 800 world, with every
    random draw equal to 1/2, and the session started on it. *)
Definition demoEngine : GameEngine.t :=
  GameEngine.construct 800 600 800 false (fun _ => 1 # 2).

Definition demoSession : GameEngine.t := GameEngine.startGame demoEngine.

(** Time left, at wall-clock time [now], before a spawn gate fires (the gate
    fires on the first tick that finds it negative) and before an active
    effect expires. *)
Definition obstacleGateRemaining (now : Z) (s : GameEngine.t) : Z :=
  GameEngine.obstacleSpawnInterval s - (now - GameEngine.lastObstacleSpawn s).
Definition coinGateRemaining (now : Z) (s : GameEngine.t) : Z :=
  1500 - (now - GameEngine.lastCoinSpawn s).
Definition powerUpGateRemaining (now : Z) (s : GameEngine.t) : Z :=
  15000 - (now - GameEngine.lastPowerUpSpawn s).
Definition effectRemaining (now : Z) (kind : PowerUpType) (s : GameEngine.t) : option Z :=
  (fun endTime => endTime - now) <$> GameEngine.activePowerUps s !! kind.

Definition isFrame (input : Input) : Prop :=
  match input with AnimationFrame _ _ => True | _ => False end.

(** The simulation state that a pause must leave alone. *)
Definition frozen (s s' : GameEngine.t) : Prop :=
  GameEngine.lastObstacleSpawn s' = GameEngine.lastObstacleSpawn s /\
  GameEngine.lastCoinSpawn s' = GameEngine.lastCoinSpawn s /\
  GameEngine.lastPowerUpSpawn s' = GameEngine.lastPowerUpSpawn s /\
  GameEngine.obstacleSpawnInterval s' = GameEngine.obstacleSpawnInterval s /\
  GameEngine.activePowerUps s' = GameEngine.activePowerUps s /\
  GameEngine.player s' = GameEngine.player s /\
  GameEngine.obstacles s' = GameEngine.obstacles s /\
  GameEngine.coins s' = GameEngine.coins s /\
  GameEngine.powerUps s' = GameEngine.powerUps s /\
  GameEngine.score s' = GameEngine.score s /\
  GameEngine.lives s' = GameEngine.lives s.

(** The session of [demoSession] after its first frame, at wall-clock time
    1000000, and the same session paused there for 5000 ms and resumed. *)
Definition demoFirstFrame : GameEngine.t :=
  run [CallStartGame; AnimationFrame 16 1000000] demoEngine.

Definition demoResumed : GameEngine.t :=
  run [CallPauseGame; AnimationFrame 2516 1002500; AnimationFrame 5016 1005000; CallResumeGame]
      demoFirstFrame.

(** The session of [demoFirstFrame] with a Magnet activated at wall-clock
    time 1000000, and that session paused for 5000 ms and resumed. *)
Definition demoMagnet : GameEngine.t :=
  GameEngine.activatePowerUp magnet 1000000 demoFirstFrame.

Definition demoMagnetResumed : GameEngine.t :=
  run [CallPauseGame; AnimationFrame 2516 1002500; AnimationFrame 5016 1005000; CallResumeGame]
      demoMagnet.

(** Uniform draws on the grid of step 1/N, and how many of the N * N pairs
    of draws give a cluster of [size] coins. *)
Definition gridDraws (N : nat) : list Q :=
  List.map (fun i => Z.of_nat i # Pos.of_nat N) (seq 0 N).

Definition clusterFrequency (N size : nat) : nat :=
  length (List.filter (fun draws : Q * Q => Nat.eqb (GameEngine.numCoins draws.1 draws.2) size)
            (list_prod (gridDraws N) (gridDraws N))).

(** The draws [spawnCoin] consumes, seen from the state it starts in: the
    first, the second (made only when the first is not below 0.3) and the
    one that picks the base lane. *)
Definition coinDraw1 (s : GameEngine.t) : Q :=
  GameEngine.mathRandom s (GameEngine.randomCalls s).
Definition coinDraw2 (s : GameEngine.t) : Q :=
  GameEngine.mathRandom s (S (GameEngine.randomCalls s)).
Definition coinBaseDraw (s : GameEngine.t) : Q :=
  GameEngine.mathRandom s
    (if Qltb (coinDraw1 s) 0.3 then S (GameEngine.randomCalls s)
     else S (S (GameEngine.randomCalls s))).

(** What the filters of [update] test on an advanced entity. *)
Definition obstacleStays (canvasHeight : Q) (o : Obstacle.t) : bool :=
  Qltb (Vector2D.y (Obstacle.position o)) (canvasHeight + 100).
Definition coinStays (canvasHeight : Q) (c : Coin.t) : bool :=
  Qltb (Vector2D.y (Coin.position c)) (canvasHeight + 50) && negb (Coin.collected c).
Definition powerUpStays (canvasHeight : Q) (p : PowerUp.t) : bool :=
  Qltb (Vector2D.y (PowerUp.position p)) (canvasHeight + 50) && negb (PowerUp.collected p).

(** The entities of [s] as the filters of the tick [update deltaTime now s]
    see them, after their own [update]. *)
Definition advancedObstacle (deltaTime : Q) (s : GameEngine.t) (o : Obstacle.t) : Obstacle.t :=
  Obstacle.update deltaTime (GameEngine.gameSpeed s) o.
Definition advancedCoin (deltaTime : Q) (s : GameEngine.t) (c : Coin.t) : Coin.t :=
  Coin.update deltaTime (GameEngine.gameSpeed s)
    (Player.position (Player.update deltaTime (GameEngine.lanePositions s) (GameEngine.player s)))
    (GameEngine.has magnet s) c.
Definition advancedPowerUp (deltaTime : Q) (s : GameEngine.t) (p : PowerUp.t) : PowerUp.t :=
  PowerUp.update deltaTime (GameEngine.gameSpeed s) p.

(** A tick only appends to the lists entities with fresh serial numbers. *)
Definition appendsFresh (s s' : GameEngine.t) : Prop :=
  exists fo fc fp,
    GameEngine.obstacles s' = GameEngine.obstacles s ++ fo /\
    GameEngine.coins s' = GameEngine.coins s ++ fc /\
    GameEngine.powerUps s' = GameEngine.powerUps s ++ fp /\
    Forall (fun o => (GameEngine.nextUid s <= Obstacle.uid o)%nat) fo /\
    Forall (fun c => (GameEngine.nextUid s <= Coin.uid c)%nat) fc /\
    Forall (fun p => (GameEngine.nextUid s <= PowerUp.uid p)%nat) fp /\
    (GameEngine.nextUid s <= GameEngine.nextUid s')%nat.

(** A run of [n] frames, 16 ms apart, of a session started on a world only
    10 high, where the ground line is 108 below the spawn line and the first
    cluster reaches the player within 8 frames. *)
Definition demoFrames (n : nat) : list Input :=
  List.map (fun k => AnimationFrame (inject_Z (16 * Z.of_nat k)) (1000000 + 16 * Z.of_nat k))
           (seq 1 n).

Definition lowWorldRun (n : nat) : GameEngine.t :=
  run (CallStartGame :: demoFrames n) (GameEngine.construct 10 600 10 false (fun _ => 1 # 2)).

(** The session of [demoFirstFrame] with its coin 1 further down the track,
    on the player's lane and level with the player. *)
Definition demoCoinAhead : GameEngine.t :=
  GameEngine.set_coins [Coin.new 1 (Vector2D.mk 300 600) 1] demoFirstFrame.

(** The session of [demoFirstFrame] with its obstacle 0 below the exit
    margin of the 800-high canvas. *)
Definition demoObstaclePast : GameEngine.t :=
  GameEngine.set_obstacles [Obstacle.new 0 (Vector2D.mk 300 900) 1 barrier] demoFirstFrame.

(** The session of [demoFirstFrame] on its last life, with its obstacle 0 on
    the player. *)
Definition demoLastLife : GameEngine.t :=
  GameEngine.set_lives 1
    (GameEngine.set_obstacles [Obstacle.new 0 (Vector2D.mk 300 640) 1 barrier] demoFirstFrame).

(** ** Vocabulary of the further properties *)

(** Every draw of the random source is in [[0, 1)], as [Math.random()]
    promises. *)
Definition validDraws (s : GameEngine.t) : Prop :=
  forall i, (0 <= GameEngine.mathRandom s i)%Q /\ (GameEngine.mathRandom s i < 1)%Q.

(** The player is never below the ground line and, unless in a jump, stands
    on it at rest. *)
Definition grounded (p : Player.t) : Prop :=
  (Vector2D.y (Player.position p) <= Player.groundY p)%Q /\
  (Player.isJumping p = false ->
     Vector2D.y (Player.position p) = Player.groundY p /\
     Vector2D.y (Player.velocity p) = 0%Q).

(** The player after a run of [update] calls with the given delta times, and
    the milliseconds those calls take off a countdown. *)
Definition playerAfter (lanePositions : list Q) (deltas : list Q) (p : Player.t) : Player.t :=
  fold_left (fun p deltaTime => Player.update deltaTime lanePositions p) deltas p.

Definition elapsedMs (deltas : list Q) : Q :=
  fold_right (fun deltaTime acc => (deltaTime * 1000 + acc)%Q) 0%Q deltas.

(** The particle [createParticles] makes from its two draws, and the [count]
    particles it makes when the first of its draws has index [k]. *)
Definition particleFrom (position : Vector2D.t) (color : string) (r1 r2 : Q) : Particle.t :=
  Particle.new position (Vector2D.mk (random (-100) 100 r1) (random (-100) (-200) r2)) color.

Definition burst (mathRandom : nat -> Q) (position : Vector2D.t) (color : string)
    (k count : nat) : list Particle.t :=
  List.map (fun i => particleFrom position color (mathRandom (k + 2 * i)%nat)
                                  (mathRandom (S (k + 2 * i))))
           (seq 0 count).

(** Whether the collision check picks up a coin or a power-up, for a given
    hit box of the player. *)
Definition picksCoin (playerHitbox : Hitbox.t) (coin : Coin.t) : bool :=
  negb (Coin.collected coin) && GameEngine.isColliding playerHitbox (Coin.getHitbox coin).

Definition picksPowerUp (playerHitbox : Hitbox.t) (powerUp : PowerUp.t) : bool :=
  negb (PowerUp.collected powerUp)
  && GameEngine.isColliding playerHitbox (PowerUp.getHitbox powerUp).

(** The state of a tick when its collision check starts. *)
Definition beforeCollisions (deltaTime : Q) (now : Z) (s : GameEngine.t) : GameEngine.t :=
  GameEngine.expirePowerUps now
    (GameEngine.advanceEntities deltaTime
       (GameEngine.spawnGates now
          (GameEngine.set_player
             (Player.update deltaTime (GameEngine.lanePositions s) (GameEngine.player s)) s))).

(** The coins and power-ups a tick picks up. *)
Definition coinsPicked (deltaTime : Q) (now : Z) (s : GameEngine.t) : list Coin.t :=
  let m := beforeCollisions deltaTime now s in
  List.filter (picksCoin (Player.getHitbox (GameEngine.player m))) (GameEngine.coins m).

Definition powerUpsPicked (deltaTime : Q) (now : Z) (s : GameEngine.t) : list PowerUp.t :=
  let m := beforeCollisions deltaTime now s in
  List.filter (picksPowerUp (Player.getHitbox (GameEngine.player m))) (GameEngine.powerUps m).

(** The registry after activating the given power-ups in order at [now]. *)
Definition activated (now : Z) (picked : list PowerUp.t) (registry : gmap PowerUpType Z)
    : gmap PowerUpType Z :=
  fold_left (fun m p => <[PowerUp.type p := now + GameEngine.duration (PowerUp.type p)]> m)
            picked registry.

Definition isShield (powerUp : PowerUp.t) : bool :=
  bool_decide (PowerUp.type powerUp = shield).

(** The session of [demoFirstFrame] with a barrier on the player and a
    Shield pickup within its reach. *)
Definition demoShieldAhead : GameEngine.t :=
  GameEngine.set_powerUps [PowerUp.new 1 (Vector2D.mk 300 600) 1 shield]
    (GameEngine.set_obstacles [Obstacle.new 0 (Vector2D.mk 300 630) 1 barrier] demoFirstFrame).

(** The states announced to [onStateChange] and the frame rates reported to
    [onFpsChange] in an event log, oldest first. *)
Definition announcedStates (events : list Event) : list GameState :=
  flat_map (fun e => match e with StateChange newState => [newState] | _ => [] end) events.

Definition reportedFps (events : list Event) : list Q :=
  flat_map (fun e => match e with FpsChange fps => [fps] | _ => [] end) events.

(** The observer of [onStateChange] knows the state of the engine: the last
    state announced is the current one, and before any announcement the
    engine is in the menu. *)
Definition inSync (s : GameEngine.t) : Prop :=
  last (announcedStates (GameEngine.events s)) = Some (GameEngine.state s) \/
  (announcedStates (GameEngine.events s) = [] /\ GameEngine.state s = menu).

(** The fields of the frame loop, the input handlers and the page that a
    tick of the simulation does not write. *)
Definition sameBookkeeping (s s' : GameEngine.t) : Prop :=
  GameEngine.lastTime s' = GameEngine.lastTime s /\
  GameEngine.fpsCounter s' = GameEngine.fpsCounter s /\
  GameEngine.fpsTime s' = GameEngine.fpsTime s /\
  GameEngine.highScore s' = GameEngine.highScore s /\
  GameEngine.touchStartX s' = GameEngine.touchStartX s /\
  GameEngine.touchStartY s' = GameEngine.touchStartY s.


(** The life count fits the state: between 0 and 3, at least 1 while the
    session is not over, and 0 when it is over, or 3 once [resetGame] was
    called on it. *)
Definition livesInRange (s : GameEngine.t) : Prop :=
  0 <= GameEngine.lives s <= 3 /\
  (GameEngine.state s <> gameOver -> 1 <= GameEngine.lives s) /\
  (GameEngine.state s = gameOver -> GameEngine.lives s = 0 \/ GameEngine.lives s = 3).

Definition isFpsChange (e : Event) : Prop :=
  match e with FpsChange _ => True | _ => False end.

(** What a frame leaves alone when the engine is not playing: the simulation
    state of [frozen], the particles, the speed, and the counters of the
    random source and of the serial numbers. *)
Definition idle (s s' : GameEngine.t) : Prop :=
  GameEngine.state s' = GameEngine.state s /\
  frozen s s' /\
  GameEngine.particles s' = GameEngine.particles s /\
  GameEngine.gameSpeed s' = GameEngine.gameSpeed s /\
  GameEngine.highScore s' = GameEngine.highScore s /\
  GameEngine.randomCalls s' = GameEngine.randomCalls s /\
  GameEngine.nextUid s' = GameEngine.nextUid s /\
  exists tail,
    GameEngine.events s' = GameEngine.events s ++ tail /\ Forall isFpsChange tail.

(** What every spawned entity keeps for life.  An obstacle and a power-up are
    on one of the three lanes, at that lane's entry of the lane table
    horizontally, with the size the constructor gave them; a coin is on one
    of the three lanes, 20 by 20, and has no magnet target, so that its
    [update] always moves it down the track. *)
Definition obstacleOk (lanePositions : list Q) (o : Obstacle.t) : Prop :=
  0 <= Obstacle.lane o <= 2 /\
  lanePositions !! Z.to_nat (Obstacle.lane o) = Some (Vector2D.x (Obstacle.position o)) /\
  (Obstacle.width o, Obstacle.height o)
  = match Obstacle.type o with
    | barrier => (40%Q, 80%Q) | train => (60%Q, 100%Q) | low => (50%Q, 40%Q)
    end.

Definition coinOk (c : Coin.t) : Prop :=
  0 <= Coin.lane c <= 2 /\ Coin.width c = 20%Q /\ Coin.height c = 20%Q /\
  Coin.magnetTarget c = None.

Definition powerUpOk (lanePositions : list Q) (p : PowerUp.t) : Prop :=
  0 <= PowerUp.lane p <= 2 /\
  lanePositions !! Z.to_nat (PowerUp.lane p) = Some (Vector2D.x (PowerUp.position p)) /\
  PowerUp.width p = 30%Q /\ PowerUp.height p = 30%Q.

Definition entitiesOk (s : GameEngine.t) : Prop :=
  Forall (obstacleOk (GameEngine.lanePositions s)) (GameEngine.obstacles s) /\
  Forall coinOk (GameEngine.coins s) /\
  Forall (powerUpOk (GameEngine.lanePositions s)) (GameEngine.powerUps s).


(** The invariant carried through the spawn gates. *)
Definition spawnInv (s : GameEngine.t) : Prop :=
  validDraws s /\ length (GameEngine.lanePositions s) = 3%nat /\ entitiesOk s.

(** A particle as the particle filter leaves it and [render] expects it:
    with life left, out of the 1000 ms every particle starts with. *)
Definition alive (particle : Particle.t) : Prop :=
  (0 < Particle.life particle)%Q /\ Particle.maxLife particle = 1000%Q.

(** A particle after a run of [update] calls with the given delta times. *)
Definition particleAfter (deltas : list Q) (particle : Particle.t) : Particle.t :=
  fold_left (fun particle deltaTime => fst (Particle.update deltaTime particle)) deltas particle.

(** Whether the three spawn gates fire in a tick at wall-clock time [now]. *)
Definition obstacleGateFires (now : Z) (s : GameEngine.t) : bool :=
  now - GameEngine.lastObstacleSpawn s >? GameEngine.obstacleSpawnInterval s.
Definition coinGateFires (now : Z) (s : GameEngine.t) : bool :=
  now - GameEngine.lastCoinSpawn s >? 1500.
Definition powerUpGateFires (now : Z) (s : GameEngine.t) : bool :=
  now - GameEngine.lastPowerUpSpawn s >? 15000.

(** * Proofs *)

Lemma Qltb_lt (a b : Q) : Qltb a b = true <-> (a < b)%Q.
Proof.
  unfold Qltb. rewrite negb_true_iff. split; intros H.
  - apply Qnot_le_lt. intros Hle. apply Qle_bool_iff in Hle. congruence.
  - destruct (Qle_bool b a) eqn:E; [|reflexivity].
    apply Qle_bool_iff in E. exfalso. exact (Qlt_not_le _ _ H E).
Qed.

Lemma Qltb_ge (a b : Q) : Qltb a b = false <-> (b <= a)%Q.
Proof.
  unfold Qltb. rewrite negb_false_iff. apply Qle_bool_iff.
Qed.

(** ** Shapes: which fields each loop of the engine writes *)

Section Shapes.
Import GameEngine.

Lemma onlyInvulnerability_refl p : onlyInvulnerability p p.
Proof. exists (Player.invulnerable p), (Player.invulnerableTime p). destruct p; reflexivity. Qed.

Lemma onlyInvulnerability_set p p' b q :
  onlyInvulnerability p p' ->
  onlyInvulnerability p (Player.set_invulnerableTime q (Player.set_invulnerable b p')).
Proof. intros (b' & q' & ->). exists b, q. destruct p; reflexivity. Qed.

Lemma onlyInvulnerability_trans p1 p2 p3 :
  onlyInvulnerability p1 p2 -> onlyInvulnerability p2 p3 -> onlyInvulnerability p1 p3.
Proof. intros (b & q & ->) (b' & q' & ->). exists b', q'. destruct p1; reflexivity. Qed.

Lemma createParticles_shape count : forall position color this,
  exists ps k,
    createParticles position color count this = set_particles ps (set_randomCalls k this).
Proof.
  induction count as [|count IH]; intros position color this.
  - destruct this. eexists _, _. reflexivity.
  - destruct this. cbn [createParticles Math_random]. engine_norm.
    match goal with |- context [createParticles position color count ?s] =>
      destruct (IH position color s) as (ps & k & ->) end.
    engine_norm. eexists _, _. reflexivity.
Qed.

(** Rewrites the first [createParticles] of the goal into its shape. *)
Ltac particles_shape :=
  match goal with |- context [createParticles ?p ?c ?n ?s] =>
    let ps := fresh "ps" in let k := fresh "k" in
    destruct (createParticles_shape n p c s) as (ps & k & ->) end.

Lemma collectCoins_shape playerHitbox cs : forall this,
  exists sc ev ps k,
    snd (collectCoins playerHitbox cs this)
    = set_score sc (set_events ev (set_particles ps (set_randomCalls k this))).
Proof.
  induction cs as [|coin rest IH]; intros this.
  - destruct this. eexists _, _, _, _. reflexivity.
  - cbn [collectCoins].
    destruct (negb (Coin.collected coin) && isColliding playerHitbox (Coin.getHitbox coin)).
    + particles_shape.
      match goal with |- context [collectCoins playerHitbox rest ?s] =>
        destruct (IH s) as (sc' & ev' & ps' & k' & E);
        destruct (collectCoins playerHitbox rest s) as [rest' s'] end.
      cbn [snd] in *. subst s'. destruct this. engine_norm. eexists _, _, _, _. reflexivity.
    + destruct (IH this) as (sc' & ev' & ps' & k' & E).
      destruct (collectCoins playerHitbox rest this) as [rest' s'].
      cbn [snd] in *. subst s'. eexists _, _, _, _. reflexivity.
Qed.

(** The coin loop flags coins; it neither adds, drops nor reorders them. *)
Lemma collectCoins_uids playerHitbox cs : forall this,
  List.map Coin.uid (fst (collectCoins playerHitbox cs this)) = List.map Coin.uid cs.
Proof.
  induction cs as [|coin rest IH]; intros this; [reflexivity|].
  cbn [collectCoins].
  destruct (negb (Coin.collected coin) && isColliding playerHitbox (Coin.getHitbox coin)).
  - match goal with |- context [collectCoins playerHitbox rest ?s] =>
      specialize (IH s); destruct (collectCoins playerHitbox rest s) end.
    cbn [fst List.map] in *. rewrite IH. reflexivity.
  - specialize (IH this). destruct (collectCoins playerHitbox rest this).
    cbn [fst List.map] in *. rewrite IH. reflexivity.
Qed.

Lemma activatePowerUp_shape type now this :
  exists pl,
    activatePowerUp type now this
    = set_activePowerUps (<[type := now + duration type]> (activePowerUps this))
        (set_player pl this)
    /\ onlyInvulnerability (player this) pl.
Proof.
  destruct type; unfold activatePowerUp.
  - exists (player this). split; [destruct this; reflexivity | apply onlyInvulnerability_refl].
  - exists (player this). split; [destruct this; reflexivity | apply onlyInvulnerability_refl].
  - exists (Player.set_invulnerableTime (inject_Z (duration shield))
              (Player.set_invulnerable true (player this))).
    split; [destruct this; reflexivity|].
    apply onlyInvulnerability_set, onlyInvulnerability_refl.
Qed.

Lemma collectPowerUps_shape playerHitbox now ps : forall this,
  exists a pl ev pts k,
    snd (collectPowerUps playerHitbox now ps this)
    = set_activePowerUps a (set_player pl (set_events ev
        (set_particles pts (set_randomCalls k this))))
    /\ onlyInvulnerability (player this) pl.
Proof.
  induction ps as [|powerUp rest IH]; intros this.
  - exists (activePowerUps this), (player this), (events this), (particles this), (randomCalls this).
    split; [destruct this; reflexivity | apply onlyInvulnerability_refl].
  - cbn [collectPowerUps].
    destruct (negb (PowerUp.collected powerUp)
              && isColliding playerHitbox (PowerUp.getHitbox powerUp)).
    + particles_shape.
      match goal with |- context [activatePowerUp ?ty now this] =>
        destruct (activatePowerUp_shape ty now this) as (pl0 & -> & Hpl0) end.
      match goal with |- context [collectPowerUps playerHitbox now rest ?s] =>
        destruct (IH s) as (a' & pl' & ev' & ps' & k' & E & Hpl');
        destruct (collectPowerUps playerHitbox now rest s) as [rest' s'] end.
      cbn [snd] in *. subst s'. destruct this. engine_norm.
      eexists _, _, _, _, _. split; [reflexivity|].
      eapply onlyInvulnerability_trans; eassumption.
    + destruct (IH this) as (a' & pl' & ev' & ps' & k' & E & Hpl').
      destruct (collectPowerUps playerHitbox now rest this) as [rest' s'].
      cbn [snd] in *. subst s'. eexists _, _, _, _, _. split; [reflexivity|assumption].
Qed.

Lemma collectPowerUps_uids playerHitbox now ps : forall this,
  List.map PowerUp.uid (fst (collectPowerUps playerHitbox now ps this)) = List.map PowerUp.uid ps.
Proof.
  induction ps as [|powerUp rest IH]; intros this; [reflexivity|].
  cbn [collectPowerUps].
  destruct (negb (PowerUp.collected powerUp)
            && isColliding playerHitbox (PowerUp.getHitbox powerUp)).
  - match goal with |- context [collectPowerUps playerHitbox now rest ?s] =>
      specialize (IH s); destruct (collectPowerUps playerHitbox now rest s) end.
    cbn [fst List.map] in *. rewrite IH. reflexivity.
  - specialize (IH this). destruct (collectPowerUps playerHitbox now rest this).
    cbn [fst List.map] in *. rewrite IH. reflexivity.
Qed.

Lemma handlePlayerHit_shield this : has shield this = true -> handlePlayerHit this = this.
Proof. intros H. unfold handlePlayerHit. rewrite H. reflexivity. Qed.

Lemma handlePlayerHit_hit this :
  has shield this = false -> exists pts k, handlePlayerHit this = hitOutcome pts k this.
Proof.
  intros H. unfold handlePlayerHit. rewrite H. particles_shape.
  exists ps, k. unfold hitOutcome. destruct this. engine_norm.
  destruct (lives0 - 1 <=? 0); [|reflexivity].
  rewrite <- !app_assoc. reflexivity.
Qed.

(** The obstacle loop stops at the first overlap: it calls [handlePlayerHit]
    once when some obstacle overlaps and not at all otherwise. *)
Lemma hitFirstObstacle_existsb playerHitbox os this :
  hitFirstObstacle playerHitbox os this
  = if existsb (fun o => isColliding playerHitbox (Obstacle.getHitbox o)) os
    then handlePlayerHit this else this.
Proof.
  induction os as [|o rest IH]; [reflexivity|].
  cbn [hitFirstObstacle existsb].
  destruct (isColliding playerHitbox (Obstacle.getHitbox o)); [reflexivity | exact IH].
Qed.
End Shapes.

Section Collisions.
Import GameEngine.

Lemma afterPickups_shape now this :
  exists c p sc a pl ev pts k,
    afterPickups now this
    = set_coins c (set_powerUps p (set_score sc (set_activePowerUps a (set_player pl
        (set_events ev (set_particles pts (set_randomCalls k this)))))))
    /\ onlyInvulnerability (player this) pl
    /\ List.map Coin.uid c = coinIds this
    /\ List.map PowerUp.uid p = powerUpIds this.
Proof.
  unfold afterPickups.
  pose proof (collectCoins_shape (Player.getHitbox (player this)) (coins this) this)
    as (sc & ev & pts & k & E).
  pose proof (collectCoins_uids (Player.getHitbox (player this)) (coins this) this) as Hc.
  destruct (collectCoins (Player.getHitbox (player this)) (coins this) this) as [c s1].
  cbn [fst snd] in *. subst s1.
  match goal with |- context [collectPowerUps ?hb now ?ps ?s] =>
    pose proof (collectPowerUps_shape hb now ps s) as (a & pl & ev' & pts' & k' & E & Hpl);
    pose proof (collectPowerUps_uids hb now ps s) as Hp;
    destruct (collectPowerUps hb now ps s) as [p s2] end.
  cbn [fst snd] in *. subst s2.
  exists c, p, sc, a, pl, ev', pts', k'.
  destruct this. engine_norm. split; [reflexivity|].
  split; [exact Hpl|]. split; [exact Hc | exact Hp].
Qed.

Lemma checkObstacles_cases playerHitbox this :
  checkObstacles playerHitbox this
  = if negb (Player.invulnerable (player this)) && overlapsObstacle playerHitbox this
    then handlePlayerHit this else this.
Proof.
  unfold checkObstacles, overlapsObstacle. rewrite hitFirstObstacle_existsb.
  destruct (Player.invulnerable (player this)); reflexivity.
Qed.
End Collisions.

Section ObstacleHits.
Import GameEngine.

Lemma hitOutcome_fields pts k this :
  lives (hitOutcome pts k this) = lives this - 1 /\
  Player.invulnerable (player (hitOutcome pts k this)) = true /\
  Player.invulnerableTime (player (hitOutcome pts k this)) = 2000%Q /\
  obstacles (hitOutcome pts k this) = obstacles this /\
  state (hitOutcome pts k this) = (if lives this - 1 <=? 0 then gameOver else state this) /\
  events (hitOutcome pts k this)
  = events this ++ (if lives this - 1 <=? 0
                    then [PlaySound "hit"; StateChange gameOver; PlaySound "gameover"]
                    else [PlaySound "hit"]).
Proof.
  unfold hitOutcome. destruct this. engine_norm.
  destruct (lives0 - 1 <=? 0); repeat split; reflexivity.
Qed.

(** C1.  Obstacle resolution of one tick, with [m] the state in which the
    obstacle block of [checkCollisions] starts: an invulnerable player makes
    the block a no-op; so does a live Shield entry; otherwise an overlap (of
    one obstacle or of several) costs exactly one life, emits [hit] and arms
    the 2000 ms timer; and the tick ends in [gameOver], with the [gameover]
    sound, exactly when the life count it leaves is 0. *)
Theorem obstacle_collision_resolution (now : Z) (s : GameEngine.t)
    (Hplaying : state s = playing) (Hlives : 1 <= lives s) :
  let m := afterPickups now s in
  let hb := Player.getHitbox (player s) in
  let s' := checkCollisions now s in
  (lives m = lives s /\ state m = state s /\ obstacles m = obstacles s) /\
  (Player.invulnerable (player m) = true -> s' = m) /\
  (Player.invulnerable (player m) = false -> has shield m = true -> s' = m) /\
  (overlapsObstacle hb m = false -> s' = m) /\
  (Player.invulnerable (player m) = false -> has shield m = false ->
   overlapsObstacle hb m = true ->
     lives s' = lives s - 1 /\
     Player.invulnerable (player s') = true /\
     Player.invulnerableTime (player s') = 2000%Q /\
     obstacles s' = obstacles s /\
     (events s' = events m ++ [PlaySound "hit"] \/
      events s' = events m ++ [PlaySound "hit"; StateChange gameOver; PlaySound "gameover"])) /\
  (state s' = gameOver <-> lives s' = 0) /\
  (exists tail, events s' = events m ++ tail /\
                (In (PlaySound "gameover") tail <-> lives s' = 0)).
Proof.
  intros m hb s'.
  assert (Hm : lives m = lives s /\ state m = state s /\ obstacles m = obstacles s).
  { subst m. destruct (afterPickups_shape now s) as (c & p & sc & a & pl & ev & pts & k & -> & _).
    destruct s. repeat split; reflexivity. }
  destruct Hm as (Hl & Hst & Hob).
  assert (Hs' : s' = if negb (Player.invulnerable (player m)) && overlapsObstacle hb m
                     then handlePlayerHit m else m).
  { subst s'. unfold checkCollisions. apply checkObstacles_cases. }
  assert (Hidle : s' = m -> (state s' = gameOver <-> lives s' = 0) /\
            (exists tail, events s' = events m ++ tail /\
                          (In (PlaySound "gameover") tail <-> lives s' = 0))).
  { intros ->. split.
    - rewrite Hst, Hl, Hplaying. split; [discriminate | lia].
    - exists []. rewrite app_nil_r. split; [reflexivity|].
      rewrite Hl. split; [intros [] | lia]. }
  split; [repeat split; assumption|].
  split; [intros Hinv; rewrite Hs', Hinv; reflexivity|].
  split; [intros Hinv Hsh; rewrite Hs', Hinv; cbn [negb andb];
          destruct (overlapsObstacle hb m); [apply handlePlayerHit_shield, Hsh | reflexivity]|].
  split; [intros Hov; rewrite Hs', Hov, andb_false_r; reflexivity|].
  destruct (Player.invulnerable (player m)) eqn:Hinv;
    [split; [discriminate | apply Hidle; rewrite Hs'; reflexivity]|].
  destruct (overlapsObstacle hb m) eqn:Hov;
    [|split; [discriminate | apply Hidle; rewrite Hs'; reflexivity]].
  destruct (has shield m) eqn:Hsh;
    [split; [discriminate | apply Hidle; rewrite Hs'; apply handlePlayerHit_shield, Hsh]|].
  cbn [negb andb] in Hs'.
  destruct (handlePlayerHit_hit m Hsh) as (pts & k & Hhit). rewrite Hhit in Hs'.
  destruct (hitOutcome_fields pts k m) as (F1 & F2 & F3 & F4 & F5 & F6).
  rewrite <- Hs' in F1, F2, F3, F4, F5, F6. rewrite Hl in F1, F5, F6.
  rewrite Hob in F4. rewrite Hst, Hplaying in F5.
  split.
  - intros _ _ _. repeat (split; [assumption|]).
    rewrite F6. destruct (lives s - 1 <=? 0); [right | left]; reflexivity.
  - rewrite F1, F5, F6. destruct (lives s - 1 <=? 0) eqn:E.
    + apply Z.leb_le in E. split; [split; [lia | reflexivity]|].
      eexists. split; [reflexivity|]. split; [lia|]. intros _. cbn. auto.
    + apply Z.leb_gt in E. split; [split; [discriminate | lia]|].
      eexists. split; [reflexivity|]. split; [|lia].
      cbn. intros [H|[]]. discriminate H.
Qed.

Lemma obstacle_collision_resolution_witness :
  state demoLastLife = playing /\
  1 <= lives demoLastLife /\
  lives (checkCollisions 1000016 demoLastLife) = 0 /\
  state (checkCollisions 1000016 demoLastLife) = gameOver.
Proof.
  assert (H1 : state demoLastLife = playing) by (vm_compute; reflexivity).
  assert (H2 : 1 <= lives demoLastLife) by (vm_compute; discriminate).
  pose proof (obstacle_collision_resolution 1000016 demoLastLife H1 H2) as H.
  cbv zeta in H. destruct H as (_ & _ & _ & _ & Hhit & Hover & _).
  assert (H3 : lives (checkCollisions 1000016 demoLastLife) = 0).
  { apply Hhit; vm_compute; reflexivity. }
  split; [exact H1|]. split; [exact H2|]. split; [exact H3|].
  apply Hover, H3.
Defined.
End ObstacleHits.

(** ** Spawning *)

Section Spawning.
Import GameEngine.

Lemma sameConfig_refl s : sameConfig s s.
Proof. repeat split. Qed.

Lemma sameConfig_trans s1 s2 s3 : sameConfig s1 s2 -> sameConfig s2 s3 -> sameConfig s1 s3.
Proof.
  unfold sameConfig. intros (A1 & A2 & A3 & A4 & A5 & A6) (B1 & B2 & B3 & B4 & B5 & B6).
  repeat split; congruence.
Qed.

Lemma sameSession_refl s : sameSession s s.
Proof. repeat split. Qed.

Lemma sameSession_trans s1 s2 s3 : sameSession s1 s2 -> sameSession s2 s3 -> sameSession s1 s3.
Proof.
  unfold sameSession.
  intros (A0 & A1 & A2 & A3 & A4 & A5 & A6 & A7 & A8) (B0 & B1 & B2 & B3 & B4 & B5 & B6 & B7 & B8).
  split; [eapply sameConfig_trans; eassumption|]. repeat split; congruence.
Qed.

Lemma cluster_uids lanePositions baseLane uid n :
  List.map Coin.uid (cluster lanePositions baseLane uid n) = seq uid n.
Proof.
  unfold cluster. rewrite List.map_map. cbn [clusterCoin Coin.new Coin.uid].
  revert uid. induction n as [|n IH]; intros uid; [reflexivity|].
  rewrite seq_S at 1. rewrite List.map_app, IH. cbn [List.map].
  rewrite Nat.add_0_l. symmetry. apply seq_S.
Qed.

Lemma cluster_length lanePositions baseLane uid n :
  length (cluster lanePositions baseLane uid n) = n.
Proof. unfold cluster. rewrite List.length_map. apply length_seq. Qed.

Lemma spawnCoinLoop_spec baseLane n : forall i this,
  spawnCoinLoop baseLane n i this
  = set_coins
      (coins this ++ List.map
         (fun j => clusterCoin (lanePositions this) baseLane (nextUid this + j) (i + j))
         (seq 0 n))
      (set_nextUid (nextUid this + n) this).
Proof.
  induction n as [|n IH]; intros i this.
  - destruct this. cbn [spawnCoinLoop seq List.map]. engine_norm.
    rewrite app_nil_r, Nat.add_0_r. reflexivity.
  - cbn [spawnCoinLoop]. rewrite IH. destruct this. engine_norm.
    rewrite <- app_assoc. cbn [app seq List.map]. rewrite <- seq_shift, List.map_map.
    rewrite !Nat.add_0_r, <- Nat.add_succ_comm.
    f_equal. f_equal. f_equal. apply List.map_ext. intros j.
    rewrite <- !Nat.add_succ_comm. reflexivity.
Qed.

Lemma spawnCoin_spec this :
  let n := numCoins (coinDraw1 this) (coinDraw2 this) in
  spawnCoin this
  = set_coins
      (coins this ++ cluster (lanePositions this) (laneIndex (coinBaseDraw this)) (nextUid this) n)
      (set_nextUid (nextUid this + n)
         (set_randomCalls
            (if Qltb (coinDraw1 this) 0.3 then 2 + randomCalls this else 3 + randomCalls this)%nat
            this)).
Proof.
  unfold spawnCoin, numCoins, coinBaseDraw, coinDraw1, coinDraw2, cluster, Math_random.
  destruct this. engine_norm.
  destruct (Qltb (mathRandom0 randomCalls0) 0.3).
  - rewrite spawnCoinLoop_spec. engine_norm. reflexivity.
  - destruct (Qltb (mathRandom0 (S randomCalls0)) 0.6);
      rewrite spawnCoinLoop_spec; engine_norm; reflexivity.
Qed.

Lemma spawnObstacle_shape this :
  exists o k,
    spawnObstacle this
    = set_obstacles (obstacles this ++ [o])
        (set_nextUid (S (nextUid this)) (set_randomCalls k this))
    /\ Obstacle.uid o = nextUid this.
Proof.
  unfold spawnObstacle, Math_random. destruct this. engine_norm.
  eexists _, _. split; [reflexivity|].
  destruct (obstacleTypeAt _); reflexivity.
Qed.

Lemma spawnPowerUp_shape this :
  exists p k,
    spawnPowerUp this
    = set_powerUps (powerUps this ++ [p])
        (set_nextUid (S (nextUid this)) (set_randomCalls k this))
    /\ PowerUp.uid p = nextUid this.
Proof.
  unfold spawnPowerUp, Math_random. destruct this. engine_norm.
  eexists _, _. split; reflexivity.
Qed.
End Spawning.

(** ** Identities of the entities *)

Section Identities.
Import GameEngine.

Lemma sublist_ids_trans (n1 n2 n3 : nat) (ids1 ids2 ids3 : list nat) :
  (n1 <= n2)%nat -> (n2 <= n3)%nat ->
  sublist ids2 (ids1 ++ seq n1 (n2 - n1)) ->
  sublist ids3 (ids2 ++ seq n2 (n3 - n2)) ->
  sublist ids3 (ids1 ++ seq n1 (n3 - n1)).
Proof.
  intros H12 H23 S12 S23.
  replace (n3 - n1)%nat with ((n2 - n1) + (n3 - n2))%nat by lia.
  rewrite seq_app, app_assoc.
  replace (n1 + (n2 - n1))%nat with n2 by lia.
  etransitivity; [exact S23|]. apply sublist_app; [exact S12 | reflexivity].
Qed.

Lemma idsStep_refl s : idsStep s s.
Proof.
  unfold idsStep, freshIds. rewrite Nat.sub_diag. cbn [seq]. rewrite !app_nil_r.
  repeat split; reflexivity.
Qed.

Lemma idsStep_trans s1 s2 s3 : idsStep s1 s2 -> idsStep s2 s3 -> idsStep s1 s3.
Proof.
  unfold idsStep, freshIds. intros (L12 & O12 & C12 & P12) (L23 & O23 & C23 & P23).
  split; [lia|]. repeat split; eapply sublist_ids_trans; eassumption.
Qed.

(** A step that keeps the counter and only drops elements. *)
Lemma idsStep_drop s s' :
  nextUid s' = nextUid s ->
  sublist (obstacleIds s') (obstacleIds s) ->
  sublist (coinIds s') (coinIds s) ->
  sublist (powerUpIds s') (powerUpIds s) ->
  idsStep s s'.
Proof.
  intros Hn Ho Hc Hp. unfold idsStep, freshIds. rewrite Hn, Nat.sub_diag. cbn [seq].
  rewrite !app_nil_r. split; [lia|]. repeat split; assumption.
Qed.

Lemma idsStep_same s s' :
  nextUid s' = nextUid s -> obstacles s' = obstacles s -> coins s' = coins s ->
  powerUps s' = powerUps s -> idsStep s s'.
Proof.
  intros Hn Ho Hc Hp. apply idsStep_drop; [exact Hn | ..];
    unfold obstacleIds, coinIds, powerUpIds; rewrite ?Ho, ?Hc, ?Hp; reflexivity.
Qed.

Lemma sublist_map_filter {A B} (f : A -> B) (p : A -> bool) (l : list A) :
  sublist (List.map f (List.filter p l)) (List.map f l).
Proof.
  induction l as [|a l IH]; [constructor|].
  cbn [List.filter List.map]. destruct (p a); cbn [List.map]; constructor; exact IH.
Qed.

Lemma spawnObstacle_ids s : idsStep s (spawnObstacle s).
Proof.
  destruct (spawnObstacle_shape s) as (o & k & -> & Ho).
  unfold idsStep, freshIds, obstacleIds, coinIds, powerUpIds. destruct s. engine_norm.
  cbn in Ho. replace (S nextUid0 - nextUid0)%nat with 1%nat by lia. cbn [seq].
  rewrite List.map_app. cbn [List.map]. rewrite Ho.
  split; [lia|]. split; [reflexivity|].
  split; apply sublist_inserts_r; reflexivity.
Qed.

Lemma spawnPowerUp_ids s : idsStep s (spawnPowerUp s).
Proof.
  destruct (spawnPowerUp_shape s) as (o & k & -> & Ho).
  unfold idsStep, freshIds, obstacleIds, coinIds, powerUpIds. destruct s. engine_norm.
  cbn in Ho. replace (S nextUid0 - nextUid0)%nat with 1%nat by lia. cbn [seq].
  rewrite List.map_app. cbn [List.map]. rewrite Ho.
  split; [lia|]. split; [apply sublist_inserts_r; reflexivity|].
  split; [apply sublist_inserts_r; reflexivity | reflexivity].
Qed.

Lemma spawnCoin_ids s : idsStep s (spawnCoin s).
Proof.
  rewrite spawnCoin_spec.
  unfold idsStep, freshIds, obstacleIds, coinIds, powerUpIds. destruct s. engine_norm.
  match goal with |- context [(?a + ?n - ?a)%nat] =>
    replace (a + n - a)%nat with n by lia end.
  rewrite List.map_app, cluster_uids.
  split; [lia|]. split; [apply sublist_inserts_r; reflexivity|].
  split; [reflexivity | apply sublist_inserts_r; reflexivity].
Qed.

Lemma set_lastObstacleSpawn_ids v s : idsStep s (set_lastObstacleSpawn v s).
Proof. apply idsStep_same; destruct s; reflexivity. Qed.

Lemma set_lastCoinSpawn_ids v s : idsStep s (set_lastCoinSpawn v s).
Proof. apply idsStep_same; destruct s; reflexivity. Qed.

Lemma set_lastPowerUpSpawn_ids v s : idsStep s (set_lastPowerUpSpawn v s).
Proof. apply idsStep_same; destruct s; reflexivity. Qed.

Lemma idsStep_if (b : bool) s s1 : idsStep s s1 -> idsStep s (if b then s1 else s).
Proof. intros H. destruct b; [exact H | apply idsStep_refl]. Qed.

Lemma spawnGates_ids currentTime s : idsStep s (spawnGates currentTime s).
Proof.
  unfold spawnGates. cbv zeta.
  eapply idsStep_trans;
    [|apply idsStep_if; eapply idsStep_trans;
      [apply spawnPowerUp_ids | apply set_lastPowerUpSpawn_ids]].
  eapply idsStep_trans;
    [|apply idsStep_if; eapply idsStep_trans;
      [apply spawnCoin_ids | apply set_lastCoinSpawn_ids]].
  apply idsStep_if; eapply idsStep_trans;
    [apply spawnObstacle_ids | apply set_lastObstacleSpawn_ids].
Qed.

Lemma advanceEntities_ids deltaTime s : idsStep s (advanceEntities deltaTime s).
Proof.
  unfold advanceEntities. apply idsStep_drop; destruct s; engine_norm;
    unfold obstacleIds, coinIds, powerUpIds; engine_norm; [reflexivity | ..].
  - etransitivity; [apply sublist_map_filter|].
    rewrite List.map_map. reflexivity.
  - etransitivity; [apply sublist_map_filter|].
    rewrite List.map_map. erewrite List.map_ext; [reflexivity|].
    intros c. unfold Coin.update.
    destruct (has magnet _ && negb (Coin.collected _));
      [destruct (Qltb _ _)|]; cbn; destruct (Coin.magnetTarget c); reflexivity.
  - etransitivity; [apply sublist_map_filter|].
    rewrite List.map_map. reflexivity.
Qed.

Lemma checkCollisions_ids now s : idsStep s (checkCollisions now s).
Proof.
  unfold checkCollisions. rewrite checkObstacles_cases.
  destruct (afterPickups_shape now s) as (c & p & sc & a & pl & ev & pts & k & E & _ & Hc & Hp).
  assert (Hm : idsStep s (afterPickups now s)).
  { rewrite E. apply idsStep_drop; unfold obstacleIds, coinIds, powerUpIds in *;
      destruct s; engine_norm; engine_norm in Hc; engine_norm in Hp;
      rewrite ?Hc, ?Hp; reflexivity. }
  destruct (negb _ && _); [|exact Hm].
  eapply idsStep_trans; [exact Hm|].
  destruct (has shield (afterPickups now s)) eqn:Hsh.
  - rewrite handlePlayerHit_shield by exact Hsh. apply idsStep_refl.
  - destruct (handlePlayerHit_hit _ Hsh) as (pts' & k' & ->).
    apply idsStep_same; unfold hitOutcome; destruct (afterPickups now s); engine_norm;
      destruct (_ <=? _); reflexivity.
Qed.

Lemma updateDifficulty_ids deltaTime s : idsStep s (updateDifficulty deltaTime s).
Proof. apply idsStep_same; destruct s; reflexivity. Qed.

Lemma expirePowerUps_ids currentTime s : idsStep s (expirePowerUps currentTime s).
Proof. apply idsStep_same; destruct s; reflexivity. Qed.

Lemma set_player_ids p s : idsStep s (set_player p s).
Proof. apply idsStep_same; destruct s; reflexivity. Qed.

Lemma update_ids deltaTime now s : idsStep s (update deltaTime now s).
Proof.
  unfold update, updateEntities. cbv zeta.
  eapply idsStep_trans; [|apply updateDifficulty_ids].
  eapply idsStep_trans; [|apply checkCollisions_ids].
  eapply idsStep_trans; [|apply expirePowerUps_ids].
  eapply idsStep_trans; [|apply advanceEntities_ids].
  eapply idsStep_trans; [|apply spawnGates_ids].
  apply set_player_ids.
Qed.
End Identities.

(** ** What one tick leaves alone *)

Section Frames.
Import GameEngine.

Lemma spawnObstacle_session s : sameSession s (spawnObstacle s).
Proof. destruct (spawnObstacle_shape s) as (o & k & -> & _). destruct s; repeat split; reflexivity. Qed.

Lemma spawnCoin_session s : sameSession s (spawnCoin s).
Proof. rewrite spawnCoin_spec. destruct s; repeat split; reflexivity. Qed.

Lemma spawnPowerUp_session s : sameSession s (spawnPowerUp s).
Proof. destruct (spawnPowerUp_shape s) as (o & k & -> & _). destruct s; repeat split; reflexivity. Qed.

Lemma sameSession_if (b : bool) s s1 : sameSession s s1 -> sameSession s (if b then s1 else s).
Proof. intros H. destruct b; [exact H | apply sameSession_refl]. Qed.

Lemma set_lastObstacleSpawn_session v s : sameSession s (set_lastObstacleSpawn v s).
Proof. destruct s; repeat split; reflexivity. Qed.

Lemma set_lastCoinSpawn_session v s : sameSession s (set_lastCoinSpawn v s).
Proof. destruct s; repeat split; reflexivity. Qed.

Lemma set_lastPowerUpSpawn_session v s : sameSession s (set_lastPowerUpSpawn v s).
Proof. destruct s; repeat split; reflexivity. Qed.

Lemma spawnGates_session currentTime s : sameSession s (spawnGates currentTime s).
Proof.
  unfold spawnGates. cbv zeta.
  eapply sameSession_trans;
    [|apply sameSession_if; eapply sameSession_trans;
      [apply spawnPowerUp_session | apply set_lastPowerUpSpawn_session]].
  eapply sameSession_trans;
    [|apply sameSession_if; eapply sameSession_trans;
      [apply spawnCoin_session | apply set_lastCoinSpawn_session]].
  apply sameSession_if; eapply sameSession_trans;
    [apply spawnObstacle_session | apply set_lastObstacleSpawn_session].
Qed.

Lemma advanceEntities_session deltaTime s : sameSession s (advanceEntities deltaTime s).
Proof. destruct s; repeat split; reflexivity. Qed.

(** The state in which [checkCollisions] runs. *)
Lemma beforeCollisions_frame deltaTime now s :
  let t := set_player (Player.update deltaTime (lanePositions s) (player s)) s in
  let m := expirePowerUps now (advanceEntities deltaTime (spawnGates now t)) in
  sameConfig t m /\ player m = player t /\ lives m = lives t /\ state m = state t.
Proof.
  cbv zeta.
  set (t := set_player _ s).
  assert (H : sameSession t (advanceEntities deltaTime (spawnGates now t)))
    by (eapply sameSession_trans; [apply spawnGates_session | apply advanceEntities_session]).
  destruct H as (H0 & H1 & H2 & H3 & _).
  set (a := advanceEntities deltaTime (spawnGates now t)) in *. clearbody a t.
  assert (E : sameConfig a (expirePowerUps now a) /\ player (expirePowerUps now a) = player a /\
              lives (expirePowerUps now a) = lives a /\ state (expirePowerUps now a) = state a)
    by (destruct a; repeat split).
  destruct E as (E0 & E1 & E2 & E3).
  split; [eapply sameConfig_trans; eassumption|]. repeat split; congruence.
Qed.

Lemma afterPickups_frame now s :
  sameConfig s (afterPickups now s) /\
  onlyInvulnerability (player s) (player (afterPickups now s)) /\
  lives (afterPickups now s) = lives s /\
  state (afterPickups now s) = state s /\
  obstacles (afterPickups now s) = obstacles s.
Proof.
  destruct (afterPickups_shape now s) as (c & p & sc & a & pl & ev & pts & k & -> & Hpl & _).
  destruct s. repeat split. exact Hpl.
Qed.

(** What [checkCollisions] does to the life count and the state. *)
Lemma checkCollisions_frame now s :
  let s' := checkCollisions now s in
  sameConfig s s' /\
  onlyInvulnerability (player s) (player s') /\
  ((lives s' = lives s /\ state s' = state s) \/
   (lives s' = lives s - 1 /\
    state s' = if lives s - 1 <=? 0 then gameOver else state s)).
Proof.
  cbv zeta. unfold checkCollisions. rewrite checkObstacles_cases.
  destruct (afterPickups_frame now s) as (Hc & Hp & Hl & Hst & _).
  destruct (negb _ && _);
    [|split; [exact Hc | split; [exact Hp | left; split; assumption]]].
  destruct (has shield (afterPickups now s)) eqn:Hsh.
  - rewrite handlePlayerHit_shield by exact Hsh.
    split; [exact Hc | split; [exact Hp | left; split; assumption]].
  - destruct (handlePlayerHit_hit _ Hsh) as (pts & k & ->).
    destruct (hitOutcome_fields pts k (afterPickups now s)) as (F1 & F2 & F3 & F4 & F5 & F6).
    split; [|split].
    + eapply sameConfig_trans; [exact Hc|].
      unfold hitOutcome. destruct (afterPickups now s). engine_norm.
      destruct (_ <=? _); repeat split.
    + eapply onlyInvulnerability_trans; [exact Hp|].
      unfold hitOutcome. destruct (afterPickups now s). engine_norm.
      destruct (_ <=? _); engine_norm; apply onlyInvulnerability_set, onlyInvulnerability_refl.
    + right. rewrite F1, F5, Hl, Hst. split; reflexivity.
Qed.

Lemma update_frame deltaTime now s :
  let s' := update deltaTime now s in
  sameConfig s s' /\
  onlyInvulnerability (Player.update deltaTime (lanePositions s) (player s)) (player s') /\
  ((lives s' = lives s /\ state s' = state s) \/
   (lives s' = lives s - 1 /\
    state s' = if lives s - 1 <=? 0 then gameOver else state s)).
Proof.
  cbv zeta. unfold update, updateEntities. cbv zeta.
  pose proof (beforeCollisions_frame deltaTime now s) as (B0 & B1 & B2 & B3).
  cbv zeta in B0, B1, B2, B3.
  set (m := expirePowerUps now _) in *.
  destruct (checkCollisions_frame now m) as (C0 & C1 & C2).
  set (c := checkCollisions now m) in *.
  assert (D : sameConfig c (updateDifficulty deltaTime c) /\
              player (updateDifficulty deltaTime c) = player c /\
              lives (updateDifficulty deltaTime c) = lives c /\
              state (updateDifficulty deltaTime c) = state c)
    by (destruct c; repeat split).
  destruct D as (D0 & D1 & D2 & D3).
  rewrite D1, D2, D3.
  split; [|split].
  - eapply sameConfig_trans; [|exact D0]. eapply sameConfig_trans; [|exact C0].
    eapply sameConfig_trans; [|exact B0]. destruct s; repeat split.
  - rewrite B1 in C1. destruct s; exact C1.
  - rewrite B2, B3 in C2. destruct s; exact C2.
Qed.

(** The life count [checkCollisions] finds in a tick of a session that has a
    life left: the tick runs in the [playing] state with that life count. *)
Lemma tick_collision_precondition deltaTime now s :
  livesOk s -> state s = playing ->
  let t := set_player (Player.update deltaTime (lanePositions s) (player s)) s in
  let m := expirePowerUps now (advanceEntities deltaTime (spawnGates now t)) in
  update deltaTime now s = updateDifficulty deltaTime (checkCollisions now m) /\
  state m = playing /\ 1 <= lives m.
Proof.
  intros Hok Hst. cbv zeta. split; [reflexivity|].
  destruct (beforeCollisions_frame deltaTime now s) as (_ & _ & Hl & Hs).
  cbv zeta in Hl, Hs. rewrite Hl, Hs.
  assert (E : state (set_player (Player.update deltaTime (lanePositions s) (player s)) s)
              = state s /\
              lives (set_player (Player.update deltaTime (lanePositions s) (player s)) s)
              = lives s) by (destruct s; split; reflexivity).
  destruct E as (-> & ->). split; [exact Hst|]. apply Hok. rewrite Hst. discriminate.
Qed.
End Frames.

(** ** Steps of the transition system *)

Section Steps.
Import GameEngine.

Lemma state_cases (st : GameState) :
  bool_decide (st = menu) || bool_decide (st = gameOver) = true
  \/ (bool_decide (st = menu) || bool_decide (st = gameOver) = false /\
      ((st = playing /\ bool_decide (st = playing) = true /\ bool_decide (st = paused) = false)
       \/ (st = paused /\ bool_decide (st = playing) = false /\ bool_decide (st = paused) = true))).
Proof. destruct st; cbn; auto 10. Qed.

Lemma onTouchEnd_effect x y s : Effect s (onTouchEnd x y s).
Proof.
  unfold onTouchEnd.
  destruct (state_cases (state s)) as [-> | (-> & [(Hst & -> & _) | (Hst & -> & _)])];
    cbn [negb]; try constructor.
  cbv zeta. repeat case_match; first [apply effect_moveLane; auto | apply effect_jump; exact Hst
    | apply effect_slide; exact Hst | constructor].
Qed.

Lemma onKeyDown_effect code s : Effect s (onKeyDown code s).
Proof.
  unfold onKeyDown.
  destruct (state_cases (state s)) as [-> | (-> & [(Hst & H1 & H2) | (Hst & H1 & H2)])].
  - destruct (_ || _); constructor.
  - rewrite ?H1, ?H2.
    repeat case_match; first [apply effect_moveLane; auto | apply effect_jump; exact Hst
      | apply effect_slide; exact Hst | idtac]; [|constructor].
    unfold pauseGame. rewrite H1. apply effect_pause, Hst.
  - rewrite ?H1, ?H2. cbn [andb]. case_match; [|constructor].
    unfold resumeGame. rewrite H2. apply effect_resume, Hst.
Qed.

Lemma step_effect s input : Effect s (step s input).
Proof.
  destruct input; cbn [step].
  - destruct (isMobile s); constructor.
  - destruct (isMobile s); [apply onTouchEnd_effect | constructor].
  - destruct (isMobile s); [constructor | apply onKeyDown_effect].
  - unfold onClick. destruct (_ || _); constructor.
  - apply effect_gameLoop.
  - constructor.
  - unfold pauseGame. destruct (bool_decide_reflect (state s = playing)) as [H|H];
      [apply effect_pause, H | constructor].
  - unfold resumeGame. destruct (bool_decide_reflect (state s = paused)) as [H|H];
      [apply effect_resume, H | constructor].
  - constructor.
  - constructor.
  - apply effect_gameLoop.
Qed.

(** [gameLoop] does its frame bookkeeping and, when playing, one [update]
    whose delta time is at most 16 ms. *)
Lemma gameLoop_shape time now s :
  exists lt fc ft ev deltaTime,
    let s1 := set_lastTime lt (set_fpsCounter fc (set_fpsTime ft (set_events ev s))) in
    gameLoop time now s
    = (if bool_decide (state s = playing) then update deltaTime now s1 else s1)
    /\ deltaTime = Qmin ((time - lastTime s) / 1000) 0.016.
Proof.
  unfold gameLoop. cbv zeta. destruct s. engine_norm.
  destruct (Qle_bool 1 _); engine_norm; eexists _, _, _, _, _; split; reflexivity.
Qed.
End Steps.

(** ** Invariants of the reachable states *)

Section Invariants.
Import GameEngine.

Lemma effect_config s s' : Effect s s' -> sameConfig s s'.
Proof.
  intros [ | x y | | | Hst | Hst | d Hd Hst | Hst | Hst | q | time now];
    try (destruct s; repeat split; fail).
  destruct (gameLoop_shape time now s) as (lt & fc & ft & ev & dt & E & _).
  cbv zeta in E. rewrite E. destruct (bool_decide _).
  - eapply sameConfig_trans; [|apply update_frame]. destruct s; repeat split.
  - destruct s; repeat split.
Qed.

Lemma effect_ids s s' : Effect s s' -> idsStep s s'.
Proof.
  intros [ | x y | | | Hst | Hst | d Hd Hst | Hst | Hst | q | time now];
    try (apply idsStep_same; destruct s; reflexivity).
  - apply idsStep_drop; unfold obstacleIds, coinIds, powerUpIds; destruct s;
      first [reflexivity | apply sublist_nil_l].
  - apply idsStep_drop; unfold obstacleIds, coinIds, powerUpIds; destruct s;
      first [reflexivity | apply sublist_nil_l].
  - destruct (gameLoop_shape time now s) as (lt & fc & ft & ev & dt & E & _).
    cbv zeta in E. rewrite E. destruct (bool_decide _).
    + eapply idsStep_trans; [|apply update_ids]. apply idsStep_same; destruct s; reflexivity.
    + apply idsStep_same; destruct s; reflexivity.
Qed.

Lemma effect_lives s s' : Effect s s' -> livesOk s -> livesOk s'.
Proof.
  unfold livesOk.
  intros [ | x y | | | Hst | Hst | d Hd Hst | Hst | Hst | q | time now] Hok;
    try (destruct s; cbn in *; first [exact Hok | intros _; lia]; fail).
  - destruct s; cbn in *. intros _. apply Hok. rewrite Hst. discriminate.
  - destruct s; cbn in *. intros _. apply Hok. rewrite Hst. discriminate.
  - destruct (gameLoop_shape time now s) as (lt & fc & ft & ev & dt & E & _).
    cbv zeta in E. rewrite E. clear E.
    set (s1 := set_lastTime lt _).
    assert (H1 : lives s1 = lives s /\ state s1 = state s) by (destruct s; split; reflexivity).
    destruct H1 as (Hl & Hs).
    destruct (bool_decide _); [|rewrite Hl, Hs; exact Hok].
    destruct (update_frame dt now s1) as (_ & _ & [(-> & ->) | (-> & ->)]);
      rewrite ?Hl, ?Hs; [exact Hok|].
    destruct (lives s - 1 <=? 0) eqn:E; [congruence|].
    apply Z.leb_gt in E. intros _. lia.
Qed.

Lemma idsStep_ok s s' : idsStep s s' -> idsOk s -> idsOk s'.
Proof.
  unfold idsStep, idsOk, freshIds.
  intros (Hn & So & Sc & Sp) (No & Nc & Np & Fo & Fc & Fp).
  assert (Hgen : forall ids ids' : list nat,
    NoDup ids -> Forall (fun i => (i < nextUid s)%nat) ids ->
    sublist ids' (ids ++ seq (nextUid s) (nextUid s' - nextUid s)) ->
    NoDup ids' /\ Forall (fun i => (i < nextUid s')%nat) ids').
  { intros ids ids' Hnd Hlt Hsub. split.
    - eapply sublist_NoDup; [|exact Hsub]. apply NoDup_app. split; [exact Hnd|].
      split; [|apply NoDup_seq].
      intros i Hi Hi'. apply elem_of_seq in Hi'.
      rewrite Forall_forall in Hlt. specialize (Hlt i Hi). lia.
    - apply Forall_forall. intros i Hi.
      apply (elem_of_sublist _ _ _ Hi) in Hsub. apply elem_of_app in Hsub as [H|H].
      + rewrite Forall_forall in Hlt. specialize (Hlt i H). lia.
      + apply elem_of_seq in H. lia. }
  destruct (Hgen _ _ No Fo So), (Hgen _ _ Nc Fc Sc), (Hgen _ _ Np Fp Sp).
  repeat split; assumption.
Qed.

(** An identity that has been handed out and is not in a list stays out. *)
Lemma idsStep_absent s s' (ids ids' : list nat) (i : nat) :
  (i < nextUid s)%nat ->
  sublist ids' (ids ++ seq (nextUid s) (nextUid s' - nextUid s)) ->
  i ∉ ids -> i ∉ ids'.
Proof.
  intros Hi Hsub Hnot Hin. apply (elem_of_sublist _ _ _ Hin) in Hsub.
  apply elem_of_app in Hsub as [H|H]; [exact (Hnot H)|].
  apply elem_of_seq in H. lia.
Qed.

Section PlayerInvariant.
Variable P : Player.t -> Prop.
Hypothesis P_new : forall x y groundY, P (Player.new x y groundY).
Hypothesis P_update : forall deltaTime lanePositions p,
  P p -> P (Player.update deltaTime lanePositions p).
Hypothesis P_moveLane : forall direction p,
  direction = 1 \/ direction = -1 -> P p -> P (Player.moveLane direction p).
Hypothesis P_jump : forall p, P p -> P (Player.jump p).
Hypothesis P_slide : forall p, P p -> P (Player.slide p).
Hypothesis P_invulnerability : forall b q p,
  P p -> P (Player.set_invulnerableTime q (Player.set_invulnerable b p)).

Lemma effect_player s s' : Effect s s' -> P (player s) -> P (player s').
Proof.
  intros [ | x y | | | Hst | Hst | d Hd Hst | Hst | Hst | q | time now] HP;
    try (destruct s; cbn in *; first [exact HP | apply P_new]; fail).
  - destruct s; cbn in *. apply P_moveLane; assumption.
  - destruct s; cbn in *. apply P_jump; assumption.
  - destruct s; cbn in *. apply P_slide; assumption.
  - destruct (gameLoop_shape time now s) as (lt & fc & ft & ev & dt & E & _).
    cbv zeta in E. rewrite E. clear E.
    set (s1 := set_lastTime lt _).
    assert (H1 : player s1 = player s) by (destruct s; reflexivity).
    destruct (bool_decide _); [|rewrite H1; exact HP].
    destruct (update_frame dt now s1) as (_ & (b & q & ->) & _).
    apply P_invulnerability, P_update. rewrite H1. exact HP.
Qed.

Lemma reachable_player s : reachable s -> P (player s).
Proof.
  induction 1 as [canvasHeight width height mobile rnd | s input Hs IH].
  - apply P_new.
  - apply (effect_player s); [apply step_effect | exact IH].
Qed.
End PlayerInvariant.

Lemma construct_ok canvasHeight width height mobile rnd :
  let s := construct canvasHeight width height mobile rnd in
  baseSpeed s = 300%Q /\ length (lanePositions s) = 3%nat /\ idsOk s /\ livesOk s.
Proof.
  cbn. split; [reflexivity|]. split; [reflexivity|]. split.
  - unfold idsOk, obstacleIds, coinIds, powerUpIds. cbn. repeat split; constructor.
  - intros _. cbn. lia.
Qed.

Lemma reachable_ok s :
  reachable s ->
  baseSpeed s = 300%Q /\ length (lanePositions s) = 3%nat /\ idsOk s /\ livesOk s.
Proof.
  induction 1 as [canvasHeight width height mobile rnd | s input Hs IH].
  - apply construct_ok.
  - destruct IH as (Hb & Hl & Hi & Hv). pose proof (step_effect s input) as He.
    destruct (effect_config _ _ He) as (C1 & C2 & _).
    rewrite C1, C2. split; [exact Hb|]. split; [exact Hl|]. split.
    + eapply idsStep_ok; [apply effect_ids, He | exact Hi].
    + eapply effect_lives; eassumption.
Qed.

Lemma run_reachable inputs : forall s, reachable s -> reachable (run inputs s).
Proof.
  induction inputs as [|input inputs IH]; intros s Hs; [exact Hs|].
  cbn [run fold_left]. apply IH. constructor. exact Hs.
Qed.
End Invariants.

(** ** The player: lanes, jumping and sliding *)

Lemma clamp_range value : 0 <= clamp value 0 2 <= 2.
Proof. unfold clamp. lia. Qed.

Lemma clamp_id value : 0 <= value <= 2 -> clamp value 0 2 = value.
Proof. unfold clamp. lia. Qed.

(** The lanes and the two movement flags through the blocks of
    [Player.update]. *)
Lemma updateLane_fields deltaTime lanePositions p :
  let p' := Player.updateLane deltaTime lanePositions p in
  Player.targetLane p' = clamp (Player.targetLane p) 0 2 /\
  (Player.currentLane p' = clamp (Player.targetLane p) 0 2 \/
   Player.currentLane p' = Player.currentLane p) /\
  Player.isJumping p' = Player.isJumping p /\
  Player.isSliding p' = Player.isSliding p.
Proof.
  destruct p. unfold Player.updateLane. cbn. case_match; cbn; auto.
Qed.

Lemma updateJump_fields deltaTime p :
  let p' := Player.updateJump deltaTime p in
  Player.targetLane p' = Player.targetLane p /\
  Player.currentLane p' = Player.currentLane p /\
  (Player.isJumping p' = true -> Player.isJumping p = true) /\
  Player.isSliding p' = Player.isSliding p.
Proof.
  destruct p. unfold Player.updateJump. cbn. repeat case_match; cbn; auto.
Qed.

Lemma updateSlide_fields deltaTime p :
  let p' := Player.updateSlide deltaTime p in
  Player.targetLane p' = Player.targetLane p /\
  Player.currentLane p' = Player.currentLane p /\
  Player.isJumping p' = Player.isJumping p /\
  (Player.isSliding p' = true -> Player.isSliding p = true).
Proof.
  destruct p. unfold Player.updateSlide. cbn. repeat case_match; cbn; auto.
Qed.

Lemma updateInvulnerable_fields deltaTime p :
  let p' := Player.updateInvulnerable deltaTime p in
  Player.targetLane p' = Player.targetLane p /\
  Player.currentLane p' = Player.currentLane p /\
  Player.isJumping p' = Player.isJumping p /\
  Player.isSliding p' = Player.isSliding p.
Proof.
  destruct p. unfold Player.updateInvulnerable. cbn. repeat case_match; cbn; auto.
Qed.

Lemma Player_update_fields deltaTime lanePositions p :
  let p' := Player.update deltaTime lanePositions p in
  Player.targetLane p' = clamp (Player.targetLane p) 0 2 /\
  (Player.currentLane p' = clamp (Player.targetLane p) 0 2 \/
   Player.currentLane p' = Player.currentLane p) /\
  (Player.isJumping p' = true -> Player.isJumping p = true) /\
  (Player.isSliding p' = true -> Player.isSliding p = true).
Proof.
  cbv zeta. unfold Player.update. cbv zeta.
  destruct (updateLane_fields deltaTime lanePositions p) as (A1 & A2 & A3 & A4).
  set (p1 := Player.updateLane deltaTime lanePositions p) in *.
  destruct (updateJump_fields deltaTime p1) as (B1 & B2 & B3 & B4).
  set (p2 := Player.updateJump deltaTime p1) in *.
  destruct (updateSlide_fields deltaTime p2) as (C1 & C2 & C3 & C4).
  set (p3 := Player.updateSlide deltaTime p2) in *.
  destruct (updateInvulnerable_fields deltaTime p3) as (D1 & D2 & D3 & D4).
  set (p4 := Player.updateInvulnerable deltaTime p3) in *.
  assert (E : forall v, Player.targetLane (Player.set_animationFrame v p4) = Player.targetLane p4 /\
    Player.currentLane (Player.set_animationFrame v p4) = Player.currentLane p4 /\
    Player.isJumping (Player.set_animationFrame v p4) = Player.isJumping p4 /\
    Player.isSliding (Player.set_animationFrame v p4) = Player.isSliding p4)
    by (intros v; destruct p4; repeat split).
  match goal with |- context [Player.set_animationFrame ?v p4] =>
    destruct (E v) as (E1 & E2 & E3 & E4) end.
  rewrite E1, E2, E3, E4, D1, D2, D3, D4, C1, C2, C3, B1, B2, A1.
  split; [reflexivity|]. split; [exact A2|]. split.
  - intros H. rewrite <- A3. apply B3. exact H.
  - intros H. rewrite <- A4, <- B4. apply C4. exact H.
Qed.

Lemma lanesInRange_moveLane direction p : lanesInRange p -> lanesInRange (Player.moveLane direction p).
Proof.
  intros (_ & Hc). destruct p. unfold lanesInRange. cbn in *.
  split; [apply clamp_range | exact Hc].
Qed.

Lemma lanesInRange_reachable s : reachable s -> lanesInRange (GameEngine.player s).
Proof.
  apply (reachable_player lanesInRange).
  - intros x y g. unfold lanesInRange. cbn. lia.
  - intros dt lp p (Ht & Hc).
    destruct (Player_update_fields dt lp p) as (E1 & E2 & _). unfold lanesInRange.
    rewrite E1. split; [apply clamp_range|].
    destruct E2 as [-> | ->]; [apply clamp_range | exact Hc].
  - intros d p _. apply lanesInRange_moveLane.
  - intros p H. destruct p. unfold Player.jump, lanesInRange in *. cbn in *.
    case_match; exact H.
  - intros p H. destruct p. unfold Player.slide, lanesInRange in *. cbn in *.
    case_match; exact H.
  - intros b q p H. destruct p. exact H.
Qed.

(** C2.  Lanes stay in the corridor: in every state a run reaches, after any
    further inputs; after any sequence of [moveLane] calls on a player whose
    lanes are in range, whatever the directions; [moveLane] clamps
    [targetLane + direction] into [0,2]; and two moves to the left from the
    centre lane end on lane 0. *)
Theorem lane_index_always_in_range :
  (forall s inputs, reachable s -> lanesInRange (GameEngine.player (run inputs s))) /\
  (forall directions p, lanesInRange p ->
     lanesInRange (fold_left (fun p direction => Player.moveLane direction p) directions p)) /\
  (forall direction p,
     Player.targetLane (Player.moveLane direction p)
     = clamp (Player.targetLane p + direction) 0 2 /\
     0 <= Player.targetLane (Player.moveLane direction p) <= 2) /\
  (forall x y groundY,
     Player.targetLane (Player.new x y groundY) = 1 /\
     Player.targetLane (Player.moveLane (-1) (Player.moveLane (-1) (Player.new x y groundY))) = 0).
Proof.
  split; [|split; [|split]].
  - intros s inputs Hs. apply lanesInRange_reachable, run_reachable, Hs.
  - induction directions as [|d ds IH]; intros p Hp; [exact Hp|].
    cbn [fold_left]. apply IH, lanesInRange_moveLane, Hp.
  - intros d p. destruct p. cbn. split; [reflexivity | apply clamp_range].
  - intros x y g. split; reflexivity.
Qed.

Lemma lane_index_always_in_range_witness :
  reachable demoEngine /\
  lanesInRange (GameEngine.player
    (run [CallStartGame; KeyDown "ArrowLeft"; KeyDown "ArrowLeft"; KeyDown "ArrowLeft"]
         demoEngine)).
Proof.
  split.
  - apply reachable_new.
  - apply (proj1 lane_index_always_in_range). apply reachable_new.
Defined.

Lemma exclusiveMoves_reachable s : reachable s -> exclusiveMoves (GameEngine.player s).
Proof.
  apply (reachable_player exclusiveMoves); unfold exclusiveMoves.
  - intros x y g. cbn. intros (H & _). discriminate H.
  - intros dt lp p H (Hj & Hs). destruct (Player_update_fields dt lp p) as (_ & _ & F1 & F2). auto.
  - intros d p _ H. destruct p. exact H.
  - intros p H. destruct p as [? ? ? ? [] [] ? ? ? ? ? ? ? ?]; cbn in *; intuition congruence.
  - intros p H. destruct p as [? ? ? ? [] [] ? ? ? ? ? ? ? ?]; cbn in *; intuition congruence.
  - intros b q p H. destruct p. exact H.
Qed.

(** C8.  [jump] and [slide] do nothing while either flag is set; otherwise
    [jump] sets [isJumping] and the vertical velocity -600 and nothing else,
    and [slide] sets [isSliding] and its 800 ms timer and nothing else; and
    in every state a run reaches, after any further inputs (intents and
    ticks), the two flags are not both set. *)
Theorem jump_slide_mutually_exclusive :
  (forall p, Player.isJumping p = true \/ Player.isSliding p = true ->
     Player.jump p = p /\ Player.slide p = p) /\
  (forall p, Player.isJumping p = false -> Player.isSliding p = false ->
     Player.jump p
     = Player.set_velocity (Vector2D.mk (Vector2D.x (Player.velocity p)) (-600))
         (Player.set_isJumping true p) /\
     Player.slide p = Player.set_slideTime 800 (Player.set_isSliding true p) /\
     Player.isSliding (Player.jump p) = false /\
     Player.isJumping (Player.slide p) = false) /\
  (forall s inputs, reachable s -> exclusiveMoves (GameEngine.player (run inputs s))).
Proof.
  split; [|split].
  - intros p H. unfold Player.jump, Player.slide.
    destruct (Player.isJumping p), (Player.isSliding p); cbn; destruct H as [H|H];
      try discriminate H; split; reflexivity.
  - intros p Hj Hs. unfold Player.jump, Player.slide. rewrite Hj, Hs. cbn [negb andb].
    destruct p. cbn in *. subst. repeat split.
  - intros s inputs Hs. apply exclusiveMoves_reachable, run_reachable, Hs.
Qed.

Lemma jump_slide_mutually_exclusive_witness :
  reachable demoEngine /\
  exclusiveMoves (GameEngine.player
    (run [CallStartGame; KeyDown "ArrowUp"; KeyDown "ArrowDown"; AnimationFrame 16 1000000;
          KeyDown "ArrowDown"] demoEngine)).
Proof.
  split.
  - apply reachable_new.
  - apply (proj2 (proj2 jump_slide_mutually_exclusive)). apply reachable_new.
Defined.

(** ** The effect registry *)

Lemma activatePowerUp_lookup kind now s :
  GameEngine.activePowerUps (GameEngine.activatePowerUp kind now s)
  = <[kind := now + GameEngine.duration kind]> (GameEngine.activePowerUps s).
Proof.
  destruct (activatePowerUp_shape kind now s) as (pl & -> & _). destruct s. reflexivity.
Qed.

(** C3.  [activatePowerUp kind] at time [now] leaves the entry
    [kind -> now + duration kind], with durations 8000, 6000 and 10000 ms,
    and touches no other kind; the registry is a map, so it holds one entry
    per kind at most; activating a kind that already has an entry replaces
    the expiry by [now2 + duration kind] whatever it was; and with the clock
    not running backwards the second expiry is not before the first. *)
Theorem activatePowerUp_sets_expiry (kind : PowerUpType) (now1 now2 : Z) (s : GameEngine.t)
    (Hclock : now1 <= now2) :
  let s1 := GameEngine.activatePowerUp kind now1 s in
  let s2 := GameEngine.activatePowerUp kind now2 s1 in
  (GameEngine.duration magnet = 8000 /\ GameEngine.duration speed = 6000 /\
   GameEngine.duration shield = 10000) /\
  GameEngine.activePowerUps s1 !! kind = Some (now1 + GameEngine.duration kind) /\
  (forall other, other <> kind ->
     GameEngine.activePowerUps s1 !! other = GameEngine.activePowerUps s !! other) /\
  NoDup (map_to_list (GameEngine.activePowerUps s1)).*1 /\
  GameEngine.activePowerUps s2 !! kind = Some (now2 + GameEngine.duration kind) /\
  (forall s0 expiry_before,
     GameEngine.activePowerUps s0 !! kind = Some expiry_before ->
     GameEngine.activePowerUps (GameEngine.activatePowerUp kind now2 s0) !! kind
     = Some (now2 + GameEngine.duration kind)) /\
  now1 + GameEngine.duration kind <= now2 + GameEngine.duration kind.
Proof.
  cbv zeta. rewrite !activatePowerUp_lookup.
  split; [repeat split|].
  split; [apply lookup_insert_eq|].
  split; [intros other Hne; apply lookup_insert_ne; congruence|].
  split; [apply NoDup_fst_map_to_list|].
  split; [apply lookup_insert_eq|].
  split; [intros s0 e _; rewrite activatePowerUp_lookup; apply lookup_insert_eq | lia].
Qed.

Lemma activatePowerUp_sets_expiry_witness :
  1000 <= 4000 /\
  GameEngine.activePowerUps
    (GameEngine.activatePowerUp shield 4000 (GameEngine.activatePowerUp shield 1000 demoSession))
    !! shield = Some 14000.
Proof.
  split; [lia|].
  exact (proj1 (proj2 (proj2 (proj2 (proj2
    (activatePowerUp_sets_expiry shield 1000 4000 demoSession ltac:(lia))))))).
Defined.

(** ** Difficulty and score *)

Lemma updateDifficulty_fields deltaTime m :
  let s' := GameEngine.updateDifficulty deltaTime m in
  GameEngine.gameSpeed s'
  = (GameEngine.baseSpeed m + inject_Z (Qfloor (GameEngine.score m / 500) * 50))%Q /\
  GameEngine.obstacleSpawnInterval s'
  = Z.max 800 (2000 - Qfloor (GameEngine.score m / 200) * 100) /\
  GameEngine.score s' = (GameEngine.score m + deltaTime * 10)%Q /\
  GameEngine.baseSpeed s' = GameEngine.baseSpeed m.
Proof.
  destruct m. unfold GameEngine.updateDifficulty. GameEngine.engine_norm.
  split; [reflexivity|]. split; [reflexivity|]. split; reflexivity.
Qed.

(** C7.  Every [update] (the tick of the Playing state) sets the scroll
    speed to [300 + floor(score/500)*50] and the obstacle interval to
    [max(800, 2000 - floor(score/200)*100)], [score] being the score the tick
    has reached when it gets there (coins of this tick included, the
    survival bonus of this tick added right after); so the interval is never
    below 800, is 2000 at score 0 and 1800 at score 400, and the speed is
    350 at score 500. *)
Theorem difficulty_follows_score (deltaTime : Q) (now : Z) (s : GameEngine.t)
    (Hs : reachable s) :
  let m := GameEngine.updateEntities deltaTime now s in
  let s' := GameEngine.update deltaTime now s in
  GameEngine.gameSpeed s' = (300 + inject_Z (Qfloor (GameEngine.score m / 500) * 50))%Q /\
  GameEngine.obstacleSpawnInterval s'
  = Z.max 800 (2000 - Qfloor (GameEngine.score m / 200) * 100) /\
  800 <= GameEngine.obstacleSpawnInterval s' /\
  GameEngine.score s' = (GameEngine.score m + deltaTime * 10)%Q /\
  ((GameEngine.score m == 0)%Q -> GameEngine.obstacleSpawnInterval s' = 2000) /\
  ((GameEngine.score m == 400)%Q -> GameEngine.obstacleSpawnInterval s' = 1800) /\
  ((GameEngine.score m == 500)%Q -> (GameEngine.gameSpeed s' == 350)%Q).
Proof.
  intros m s'.
  assert (Es' : s' = GameEngine.updateDifficulty deltaTime m) by reflexivity.
  assert (Hb : GameEngine.baseSpeed s' = 300%Q).
  { destruct (update_frame deltaTime now s) as ((_ & Hb & _) & _).
    destruct (reachable_ok s Hs) as (H300 & _). rewrite <- H300. exact Hb. }
  clearbody s' m. subst s'.
  destruct (updateDifficulty_fields deltaTime m) as (E1 & E2 & E3 & E4).
  cbv zeta in E1, E2, E3, E4. rewrite E4 in Hb. rewrite Hb in E1.
  set (s' := GameEngine.updateDifficulty deltaTime m) in *. clearbody s'.
  assert (F : forall a b d : Q, (a == b)%Q -> Qfloor (a / d) = Qfloor (b / d))
    by (intros a b d H; apply Qfloor_comp; rewrite H; reflexivity).
  split; [exact E1|]. split; [exact E2|]. split; [lia|]. split; [exact E3|].
  split; [|split]; intros H.
  - rewrite E2, (F _ _ 200%Q H). reflexivity.
  - rewrite E2, (F _ _ 200%Q H). reflexivity.
  - rewrite E1, (F _ _ 500%Q H). reflexivity.
Qed.

Lemma difficulty_follows_score_witness :
  reachable demoSession /\
  800 <= GameEngine.obstacleSpawnInterval (GameEngine.update 0.016 1000000 demoSession).
Proof.
  assert (H : reachable demoSession) by (apply (reachable_step demoEngine CallStartGame), reachable_new).
  split; [exact H|].
  exact (proj1 (proj2 (proj2 (difficulty_follows_score 0.016 1000000 demoSession H)))).
Defined.

(** ** Construction *)

(** C9 fails: a world of width 0 and height 0 is accepted; the constructor
    returns an engine whose three lanes all sit at x = 0 and whose ground
    line is y = 0. *)
Lemma zero_area_world_is_accepted :
  exists engine,
    GameEngine.new 800 0 0 false (fun _ => 1 # 2) = Returns engine /\
    Forall (fun x => (x == 0)%Q) (GameEngine.lanePositions engine) /\
    (GameEngine.groundY engine == 0)%Q /\
    forall message, GameEngine.new 800 0 0 false (fun _ => 1 # 2) <> Throws message.
Proof.
  eexists. split; [reflexivity|]. split; [|split].
  - cbn. repeat constructor.
  - reflexivity.
  - intros message H. discriminate H.
Qed.

(** C9, amended.  The constructor validates nothing and never fails: for
    every width and height, zero included, it returns an engine in the
    [menu] state whose lane table has exactly the three entries 0.25, 0.5
    and 0.75 times the width (never an empty table) and whose ground line is
    0.8 times the height. *)
Theorem constructor_always_returns (canvasHeight width height : Q) (isMobile : bool)
    (mathRandom : nat -> Q) :
  exists engine,
    GameEngine.new canvasHeight width height isMobile mathRandom = Returns engine /\
    GameEngine.lanePositions engine = [ (width * 0.25)%Q; (width * 0.5)%Q; (width * 0.75)%Q ] /\
    GameEngine.groundY engine = (height * 0.8)%Q /\
    GameEngine.state engine = menu /\
    Player.position (GameEngine.player engine) = Vector2D.mk (width * 0.5) (height * 0.8).
Proof.
  eexists. split; [reflexivity|]. repeat split.
Qed.

(** ** Pausing *)

Lemma frozen_refl s : frozen s s.
Proof. repeat split. Qed.

Lemma frozen_trans s1 s2 s3 : frozen s1 s2 -> frozen s2 s3 -> frozen s1 s3.
Proof.
  unfold frozen.
  intros (A1 & A2 & A3 & A4 & A5 & A6 & A7 & A8 & A9 & A10 & A11)
         (B1 & B2 & B3 & B4 & B5 & B6 & B7 & B8 & B9 & B10 & B11).
  repeat split; congruence.
Qed.

(** A frame that finds the engine paused only does its frame bookkeeping. *)
Lemma gameLoop_paused time now s :
  GameEngine.state s = paused ->
  GameEngine.state (GameEngine.gameLoop time now s) = paused /\
  frozen s (GameEngine.gameLoop time now s).
Proof.
  intros Hst. destruct (gameLoop_shape time now s) as (lt & fc & ft & ev & dt & E & _).
  cbv zeta in E. rewrite E, Hst. cbn. destruct s. cbn in *. split; [exact Hst | repeat split].
Qed.

Lemma frames_paused frames : forall s,
  Forall isFrame frames -> GameEngine.state s = paused ->
  GameEngine.state (run frames s) = paused /\ frozen s (run frames s).
Proof.
  induction frames as [|input frames IH]; intros s Hf Hst.
  - split; [exact Hst | apply frozen_refl].
  - apply Forall_cons in Hf as (Hi & Hf). destruct input; try contradiction.
    cbn [run fold_left step].
    destruct (gameLoop_paused time now s Hst) as (Hst' & Hfr).
    destruct (IH _ Hf Hst') as (Hst'' & Hfr').
    split; [exact Hst'' | eapply frozen_trans; eassumption].
Qed.

Lemma run_app inputs1 inputs2 s : run (inputs1 ++ inputs2) s = run inputs2 (run inputs1 s).
Proof. unfold run. apply fold_left_app. Qed.

(** C4 fails: the session is paused when its coin gate has 1500 ms left and
    resumed 5000 ms of wall clock later; on resuming the gate is 3500 ms
    overdue, and the first tick after the pause spawns a cluster.  A Magnet
    with 8000 ms left when the pause begins has 3000 ms left when it ends. *)
Lemma pause_lets_gate_timers_run :
  GameEngine.state demoFirstFrame = playing /\
  GameEngine.state demoResumed = playing /\
  coinGateRemaining 1000000 demoFirstFrame = 1500 /\
  coinGateRemaining 1005000 demoResumed = -3500 /\
  obstacleGateRemaining 1000000 demoFirstFrame = 2000 /\
  obstacleGateRemaining 1005000 demoResumed = -3000 /\
  length (GameEngine.coins demoResumed) = 2%nat /\
  length (GameEngine.coins (step demoResumed (AnimationFrame 5032 1005016))) = 4%nat /\
  effectRemaining 1000000 magnet demoMagnet = Some 8000 /\
  effectRemaining 1005000 magnet demoMagnetResumed = Some 3000.
Proof. vm_compute. repeat split. Qed.

(** C4, amended.  While the engine is paused no tick runs, so a pause of any
    number of frames leaves the spawn stamps, the obstacle interval and the
    expiry of every active effect as stored (and the rest of the world with
    them); but gates and expiries are measured against the wall clock, so a
    pause from wall-clock time [t0] to [t1] makes every gate and every active
    effect [t1 - t0] closer to firing or expiring. *)
Theorem pause_keeps_stamps_not_remaining (s : GameEngine.t) (frames : list Input) (t0 t1 : Z)
    (Hplaying : GameEngine.state s = playing) (Hframes : Forall isFrame frames) :
  let s' := run (CallPauseGame :: frames ++ [CallResumeGame]) s in
  GameEngine.state s' = playing /\
  frozen s s' /\
  obstacleGateRemaining t1 s' = obstacleGateRemaining t0 s - (t1 - t0) /\
  coinGateRemaining t1 s' = coinGateRemaining t0 s - (t1 - t0) /\
  powerUpGateRemaining t1 s' = powerUpGateRemaining t0 s - (t1 - t0) /\
  forall kind,
    effectRemaining t1 kind s' = (fun r => r - (t1 - t0)) <$> effectRemaining t0 kind s.
Proof.
  cbv zeta. change (CallPauseGame :: frames ++ [CallResumeGame])
    with ([CallPauseGame] ++ frames ++ [CallResumeGame]).
  rewrite !run_app. cbn [run fold_left step].
  assert (Hp : GameEngine.state (GameEngine.pauseGame s) = paused /\
               frozen s (GameEngine.pauseGame s)).
  { unfold GameEngine.pauseGame. rewrite Hplaying. cbn. destruct s. split; [reflexivity | repeat split]. }
  destruct Hp as (Hp & Hfp).
  destruct (frames_paused frames _ Hframes Hp) as (Hf & Hff).
  fold (run frames (GameEngine.pauseGame s)).
  set (sf := run frames (GameEngine.pauseGame s)) in *.
  assert (Hr : GameEngine.state (GameEngine.resumeGame sf) = playing /\
               frozen sf (GameEngine.resumeGame sf)).
  { unfold GameEngine.resumeGame. rewrite Hf. cbn. destruct sf. split; [reflexivity | repeat split]. }
  destruct Hr as (Hr & Hfr).
  assert (Hfz : frozen s (GameEngine.resumeGame sf))
    by (eapply frozen_trans; [exact Hfp | eapply frozen_trans; eassumption]).
  split; [exact Hr|]. split; [exact Hfz|].
  destruct Hfz as (F1 & F2 & F3 & F4 & F5 & _).
  unfold obstacleGateRemaining, coinGateRemaining, powerUpGateRemaining, effectRemaining.
  rewrite F1, F2, F3, F4, F5.
  split; [lia|]. split; [lia|]. split; [lia|].
  intros kind. destruct (GameEngine.activePowerUps s !! kind); cbn; [f_equal; lia | reflexivity].
Qed.

Lemma pause_keeps_stamps_not_remaining_witness :
  GameEngine.state demoFirstFrame = playing /\
  Forall isFrame [AnimationFrame 2516 1002500; AnimationFrame 5016 1005000] /\
  coinGateRemaining 1005000 demoResumed = coinGateRemaining 1000000 demoFirstFrame - 5000.
Proof.
  assert (H1 : GameEngine.state demoFirstFrame = playing) by (vm_compute; reflexivity).
  assert (H2 : Forall isFrame [AnimationFrame 2516 1002500; AnimationFrame 5016 1005000])
    by (repeat constructor).
  split; [exact H1|]. split; [exact H2|].
  exact (proj1 (proj2 (proj2 (proj2
    (pause_keeps_stamps_not_remaining demoFirstFrame _ 1000000 1005000 H1 H2))))).
Defined.

(** ** Coin clusters *)

Lemma filter_map_length {A B} (f : A -> B) (p : B -> bool) (l : list A) :
  length (List.filter p (List.map f l)) = length (List.filter (fun a => p (f a)) l).
Proof.
  induction l as [|a l IH]; [reflexivity|].
  cbn [List.map List.filter]. destruct (p (f a)); cbn [length]; rewrite IH; reflexivity.
Qed.

Lemma filter_negb_length {A} (p : A -> bool) (l : list A) :
  (length (List.filter (fun a => negb (p a)) l) + length (List.filter p l) = length l)%nat.
Proof.
  induction l as [|a l IH]; [reflexivity|].
  cbn [List.filter]. destruct (p a); cbn [negb length]; lia.
Qed.

(** Pairs that satisfy a product predicate are counted by a product. *)
Lemma filter_prod_length {A B} (pa : A -> bool) (pb : B -> bool) (l1 : list A) (l2 : list B) :
  length (List.filter (fun ab : A * B => pa ab.1 && pb ab.2) (list_prod l1 l2))
  = (length (List.filter pa l1) * length (List.filter pb l2))%nat.
Proof.
  induction l1 as [|a l1 IH]; [reflexivity|].
  cbn [list_prod]. rewrite List.filter_app, List.length_app, IH, filter_map_length.
  cbn [fst snd]. change (List.filter pa (a :: l1))
    with (if pa a then a :: List.filter pa l1 else List.filter pa l1).
  destruct (pa a); cbn [andb].
  - change (fun a0 : B => pb a0) with pb. cbn [length]. lia.
  - assert (H : forall l : list B, List.filter (fun _ => false) l = []) by (induction l; auto).
    rewrite H. reflexivity.
Qed.

Lemma count_below (k n : nat) :
  length (List.filter (fun i => (i <? k)%nat) (seq 0 n)) = Nat.min k n.
Proof.
  induction n as [|n IH]; [cbn; lia|].
  rewrite seq_S, List.filter_app, List.length_app, IH. cbn [List.filter Nat.add].
  destruct (Nat.ltb_spec n k); cbn [length]; lia.
Qed.

(** On the grid of step 1/(10 m) the draws below c/10 are the first c m. *)
Lemma grid_below (m c i : nat) :
  (0 < m)%nat ->
  Qltb (Z.of_nat i # Pos.of_nat (10 * m)) (Z.of_nat c # 10) = (i <? c * m)%nat.
Proof.
  intros Hm. apply eq_true_iff_eq. rewrite Qltb_lt, Nat.ltb_lt.
  unfold Qlt. cbn [Qnum Qden].
  assert (E : Z.pos (Pos.of_nat (10 * m)) = Z.of_nat (10 * m)).
  { rewrite <- positive_nat_Z, Nat2Pos.id by lia. reflexivity. }
  rewrite E. lia.
Qed.

Lemma grid_count_below (m c : nat) :
  (0 < m)%nat -> (c <= 10)%nat ->
  length (List.filter (fun r => Qltb r (Z.of_nat c # 10)) (gridDraws (10 * m))) = (c * m)%nat.
Proof.
  intros Hm Hc. unfold gridDraws. rewrite filter_map_length.
  rewrite (List.filter_ext _ (fun i => (i <? c * m)%nat))
    by (intros i; apply grid_below, Hm).
  rewrite count_below. nia.
Qed.

Lemma grid_count_not_below (m c : nat) :
  (0 < m)%nat -> (c <= 10)%nat ->
  length (List.filter (fun r => negb (Qltb r (Z.of_nat c # 10))) (gridDraws (10 * m)))
  = ((10 - c) * m)%nat.
Proof.
  intros Hm Hc.
  pose proof (filter_negb_length (fun r => Qltb r (Z.of_nat c # 10)) (gridDraws (10 * m))) as H.
  rewrite grid_count_below in H by assumption.
  unfold gridDraws in H at 2. rewrite List.length_map, length_seq in H. nia.
Qed.

Lemma grid_length N : length (gridDraws N) = N.
Proof. unfold gridDraws. rewrite List.length_map. apply length_seq. Qed.

(** Of the (10 m)^2 equally likely pairs of draws, 28 in 100 give one coin,
    42 in 100 two coins and 30 in 100 three coins. *)
Lemma clusterFrequency_grid (m : nat) :
  (0 < m)%nat ->
  clusterFrequency (10 * m) 1 = (28 * (m * m))%nat /\
  clusterFrequency (10 * m) 2 = (42 * (m * m))%nat /\
  clusterFrequency (10 * m) 3 = (30 * (m * m))%nat.
Proof.
  intros Hm. unfold clusterFrequency.
  assert (E1 : forall d : Q * Q, Nat.eqb (GameEngine.numCoins d.1 d.2) 1
            = negb (Qltb d.1 (Z.of_nat 3 # 10)) && negb (Qltb d.2 (Z.of_nat 6 # 10))).
  { intros [r1 r2]. unfold GameEngine.numCoins. cbn [fst snd].
    change (Z.of_nat 3 # 10) with 0.3%Q. change (Z.of_nat 6 # 10) with 0.6%Q.
    destruct (Qltb r1 0.3), (Qltb r2 0.6); reflexivity. }
  assert (E2 : forall d : Q * Q, Nat.eqb (GameEngine.numCoins d.1 d.2) 2
            = negb (Qltb d.1 (Z.of_nat 3 # 10)) && Qltb d.2 (Z.of_nat 6 # 10)).
  { intros [r1 r2]. unfold GameEngine.numCoins. cbn [fst snd].
    change (Z.of_nat 3 # 10) with 0.3%Q. change (Z.of_nat 6 # 10) with 0.6%Q.
    destruct (Qltb r1 0.3), (Qltb r2 0.6); reflexivity. }
  assert (E3 : forall d : Q * Q, Nat.eqb (GameEngine.numCoins d.1 d.2) 3
            = Qltb d.1 (Z.of_nat 3 # 10) && true).
  { intros [r1 r2]. unfold GameEngine.numCoins. cbn [fst snd].
    change (Z.of_nat 3 # 10) with 0.3%Q.
    destruct (Qltb r1 0.3), (Qltb r2 0.6); reflexivity. }
  rewrite (List.filter_ext _ _ E1), (List.filter_ext _ _ E2), (List.filter_ext _ _ E3).
  rewrite (filter_prod_length (fun r => negb (Qltb r (Z.of_nat 3 # 10)))
             (fun r => negb (Qltb r (Z.of_nat 6 # 10)))).
  rewrite (filter_prod_length (fun r => negb (Qltb r (Z.of_nat 3 # 10)))
             (fun r => Qltb r (Z.of_nat 6 # 10))).
  rewrite (filter_prod_length (fun r => Qltb r (Z.of_nat 3 # 10)) (fun _ => true)).
  rewrite !grid_count_not_below, !grid_count_below by lia.
  assert (H : forall l : list Q, List.filter (fun _ => true) l = l)
    by (induction l as [|a l IH]; cbn; [|rewrite IH]; reflexivity).
  rewrite H, grid_length. cbn [Nat.sub]. repeat split; lia.
Qed.

Lemma cluster_lookup lanePositions baseLane uid n i :
  (i < n)%nat ->
  cluster lanePositions baseLane uid n !! i
  = Some (GameEngine.clusterCoin lanePositions baseLane (uid + i) i).
Proof.
  intros Hi. unfold cluster.
  change (List.map ?f ?l) with (f <$> l).
  rewrite list_lookup_fmap, lookup_seq_lt by exact Hi. reflexivity.
Qed.

Lemma cluster_lookup_inv lanePositions baseLane uid n i c :
  cluster lanePositions baseLane uid n !! i = Some c ->
  (i < n)%nat /\ c = GameEngine.clusterCoin lanePositions baseLane (uid + i) i.
Proof.
  intros H. assert (Hi : (i < n)%nat).
  { apply lookup_lt_Some in H. rewrite cluster_length in H. exact H. }
  rewrite cluster_lookup in H by exact Hi. split; [exact Hi | congruence].
Qed.

Lemma laneIndex_iff (r : Q) (k : Z) :
  laneIndex r = k <-> (inject_Z k <= r * 3 /\ r * 3 < inject_Z k + 1)%Q.
Proof.
  unfold laneIndex. split.
  - intros <-. split; [apply Qfloor_le|].
    change 1%Q with (inject_Z 1). rewrite <- inject_Z_plus. apply Qlt_floor.
  - intros (Hlo & Hhi).
    pose proof (Qfloor_le (r * 3)) as Hf. pose proof (Qlt_floor (r * 3)) as Hg.
    change 1%Q with (inject_Z 1) in Hhi. rewrite <- inject_Z_plus in Hhi.
    assert (H1 : (inject_Z (Qfloor (r * 3)) < inject_Z (k + 1))%Q)
      by (eapply Qle_lt_trans; eassumption).
    assert (H2 : (inject_Z k < inject_Z (Qfloor (r * 3) + 1))%Q)
      by (eapply Qle_lt_trans; eassumption).
    rewrite <- Zlt_Qlt in H1, H2. lia.
Qed.

(** A draw of [[0,1)] gives a lane of the corridor. *)
Lemma laneIndex_range (r : Q) : (0 <= r)%Q -> (r < 1)%Q -> 0 <= laneIndex r <= 2.
Proof.
  intros H0 H1.
  destruct (proj1 (laneIndex_iff r (laneIndex r)) eq_refl) as (Hlo & Hhi).
  assert (A : (inject_Z (laneIndex r) < 3)%Q) by lra.
  assert (B : (-1 < inject_Z (laneIndex r))%Q) by lra.
  change 3%Q with (inject_Z 3) in A. change (-1)%Q with (inject_Z (-1)) in B.
  rewrite <- Zlt_Qlt in A, B. lia.
Qed.

(** C5 fails as to the sizes: of the 100 equally likely pairs of draws on
    the grid of step 1/10 (and of the 10000 on the grid of step 1/100),
    28 % give one coin and 42 % two coins, not 40 % and 30 %; and from base
    lane 2 the three coins of a cluster all sit on lane 2. *)
Lemma cluster_sizes_are_not_40_30_30 :
  clusterFrequency 10 1 = 28%nat /\ clusterFrequency 10 2 = 42%nat /\
  clusterFrequency 10 3 = 30%nat /\
  clusterFrequency 100 1 = 2800%nat /\ clusterFrequency 100 2 = 4200%nat /\
  clusterFrequency 100 3 = 3000%nat /\
  clusterFrequency 10 1 <> 40%nat /\ clusterFrequency 10 2 <> 30%nat /\
  List.map Coin.lane (cluster (GameEngine.lanePositions demoEngine) 2 0 3) = [2; 2; 2].
Proof. vm_compute. repeat split; discriminate. Qed.

(** C5, amended.  One firing of the coin gate appends a cluster of 1, 2 or 3
    coins; over uniform draws the size is 1 with probability 28 %, 2 with
    42 % and 3 with 30 % (the second draw is a fresh one); coin [i] of the
    cluster sits on lane [min(2, baseLane + i)], so the lanes never descend
    and stop at lane 2, at height [-100 - 30 i], so no two coins of a
    cluster coincide; and the base lane is [floor(3 r)] for a draw [r], each
    lane having a third of the draws. *)
Theorem coin_cluster_shape (s : GameEngine.t) :
  let n := GameEngine.numCoins (coinDraw1 s) (coinDraw2 s) in
  let baseLane := laneIndex (coinBaseDraw s) in
  let new := cluster (GameEngine.lanePositions s) baseLane (GameEngine.nextUid s) n in
  GameEngine.coins (GameEngine.spawnCoin s) = GameEngine.coins s ++ new /\
  (length new = n /\ 1 <= n <= 3)%nat /\
  (forall i c, new !! i = Some c ->
     Coin.lane c = Z.min 2 (baseLane + Z.of_nat i) /\
     Coin.position c
     = Vector2D.mk (laneAt (GameEngine.lanePositions s) (Coin.lane c))
                   (-100 - inject_Z (Z.of_nat i) * 30) /\
     Coin.collected c = false) /\
  (forall i j ci cj, new !! i = Some ci -> new !! j = Some cj ->
     ((i <= j)%nat -> Coin.lane ci <= Coin.lane cj) /\
     (i <> j -> ~ (Vector2D.y (Coin.position ci) == Vector2D.y (Coin.position cj))%Q)) /\
  (forall m, (0 < m)%nat ->
     clusterFrequency (10 * m) 1 = (28 * (m * m))%nat /\
     clusterFrequency (10 * m) 2 = (42 * (m * m))%nat /\
     clusterFrequency (10 * m) 3 = (30 * (m * m))%nat) /\
  (forall r k, laneIndex r = k <-> (inject_Z k <= r * 3 /\ r * 3 < inject_Z k + 1)%Q).
Proof.
  intros n baseLane new.
  split; [subst new n baseLane; rewrite spawnCoin_spec; destruct s; reflexivity|].
  split; [split; [apply cluster_length|]|].
  { subst n. unfold GameEngine.numCoins. repeat case_match; lia. }
  split; [|split; [|split; [exact clusterFrequency_grid | exact laneIndex_iff]]].
  - intros i c Hc. apply cluster_lookup_inv in Hc as (_ & ->). repeat split.
  - intros i j ci cj Hi Hj.
    apply cluster_lookup_inv in Hi as (_ & ->). apply cluster_lookup_inv in Hj as (_ & ->).
    cbn [GameEngine.clusterCoin Coin.new Coin.lane Coin.position Vector2D.y].
    split; [lia|].
    intros Hne Heq. apply Hne.
    assert (H : (inject_Z (Z.of_nat i) == inject_Z (Z.of_nat j))%Q) by lra.
    destruct (inject_Z_injective (Z.of_nat i) (Z.of_nat j)) as [Hinj _].
    specialize (Hinj H). lia.
Qed.

Lemma coin_cluster_shape_witness :
  (0 < 3)%nat /\
  clusterFrequency 30 2 = 378%nat /\
  GameEngine.coins (GameEngine.spawnCoin demoSession)
  = GameEngine.coins demoSession
    ++ cluster (GameEngine.lanePositions demoSession) (laneIndex (coinBaseDraw demoSession))
         (GameEngine.nextUid demoSession)
         (GameEngine.numCoins (coinDraw1 demoSession) (coinDraw2 demoSession)).
Proof.
  pose proof (coin_cluster_shape demoSession) as H. cbv zeta in H.
  destruct H as (H1 & _ & _ & _ & H5 & _).
  split; [lia|].
  split; [exact (proj1 (proj2 (H5 3%nat ltac:(lia)))) | exact H1].
Defined.

(** ** The first tick of a session *)

Section FirstTick.
Import GameEngine.

(** After the entities have been advanced, the rest of the tick leaves the
    spawn stamps and the obstacle list alone and keeps every coin and
    power-up in its list. *)
Lemma afterAdvance_frame deltaTime now a :
  let z := updateDifficulty deltaTime (checkCollisions now (expirePowerUps now a)) in
  lastObstacleSpawn z = lastObstacleSpawn a /\
  lastCoinSpawn z = lastCoinSpawn a /\
  lastPowerUpSpawn z = lastPowerUpSpawn a /\
  obstacles z = obstacles a /\
  coinIds z = coinIds a /\
  powerUpIds z = powerUpIds a /\
  nextUid z = nextUid a.
Proof.
  cbv zeta. unfold checkCollisions. rewrite checkObstacles_cases.
  set (e := expirePowerUps now a).
  assert (He : lastObstacleSpawn e = lastObstacleSpawn a /\ lastCoinSpawn e = lastCoinSpawn a /\
               lastPowerUpSpawn e = lastPowerUpSpawn a /\ obstacles e = obstacles a /\
               coinIds e = coinIds a /\ powerUpIds e = powerUpIds a /\ nextUid e = nextUid a)
    by (subst e; destruct a; repeat split).
  clearbody e.
  destruct (afterPickups_shape now e) as (c & p & sc & ac & pl & ev & pts & k & E & _ & Hc & Hp).
  set (m := afterPickups now e) in *.
  assert (Hm : lastObstacleSpawn m = lastObstacleSpawn e /\ lastCoinSpawn m = lastCoinSpawn e /\
               lastPowerUpSpawn m = lastPowerUpSpawn e /\ obstacles m = obstacles e /\
               coinIds m = coinIds e /\ powerUpIds m = powerUpIds e /\ nextUid m = nextUid e).
  { rewrite E. unfold coinIds, powerUpIds in *. destruct e. engine_norm.
    engine_norm in Hc. engine_norm in Hp. rewrite Hc, Hp. repeat split. }
  clearbody m.
  assert (Hh : forall h, h = m \/ (exists pts' k', h = hitOutcome pts' k' m) ->
               lastObstacleSpawn (updateDifficulty deltaTime h) = lastObstacleSpawn m /\
               lastCoinSpawn (updateDifficulty deltaTime h) = lastCoinSpawn m /\
               lastPowerUpSpawn (updateDifficulty deltaTime h) = lastPowerUpSpawn m /\
               obstacles (updateDifficulty deltaTime h) = obstacles m /\
               coinIds (updateDifficulty deltaTime h) = coinIds m /\
               powerUpIds (updateDifficulty deltaTime h) = powerUpIds m /\
               nextUid (updateDifficulty deltaTime h) = nextUid m).
  { intros h [-> | (pts' & k' & ->)].
    - destruct m; repeat split.
    - unfold hitOutcome. destruct m. engine_norm. destruct (_ <=? _); repeat split. }
  destruct He as (A1 & A2 & A3 & A4 & A5 & A6 & A7).
  destruct Hm as (B1 & B2 & B3 & B4 & B5 & B6 & B7).
  rewrite <- A1, <- A2, <- A3, <- A4, <- A5, <- A6, <- A7.
  rewrite <- B1, <- B2, <- B3, <- B4, <- B5, <- B6, <- B7.
  apply Hh. destruct (negb _ && _); [|left; reflexivity].
  destruct (has shield m) eqn:Hsh.
  - left. apply handlePlayerHit_shield, Hsh.
  - right. apply handlePlayerHit_hit, Hsh.
Qed.

Lemma filter_all {A} (p : A -> bool) (l : list A) :
  Forall (fun a => p a = true) l -> List.filter p l = l.
Proof.
  induction 1 as [|a l Ha Hl IH]; [reflexivity|].
  cbn [List.filter]. rewrite Ha, IH. reflexivity.
Qed.

Lemma startGame_fields s :
  let s1 := startGame s in
  state s1 = playing /\
  (lastObstacleSpawn s1 = 0 /\ lastCoinSpawn s1 = 0 /\ lastPowerUpSpawn s1 = 0) /\
  (obstacles s1 = [] /\ coins s1 = [] /\ powerUps s1 = []) /\
  activePowerUps s1 = ∅ /\
  gameSpeed s1 = baseSpeed s /\
  obstacleSpawnInterval s1 = obstacleSpawnInterval s /\
  canvasHeight s1 = canvasHeight s.
Proof. destruct s. repeat split. Qed.

(** Entities that are still above the canvas, uncollected, survive the
    filters of a tick of at most 16 ms. *)
Lemma advanceEntities_keeps deltaTime g :
  (deltaTime <= 0.016)%Q -> (0 <= canvasHeight g)%Q -> gameSpeed g = 300%Q ->
  activePowerUps g = ∅ ->
  Forall (fun o => (Vector2D.y (Obstacle.position o) <= -100)%Q) (obstacles g) ->
  Forall (fun c => (Vector2D.y (Coin.position c) <= -100)%Q /\ Coin.collected c = false /\
                   Coin.magnetTarget c = None) (coins g) ->
  Forall (fun p => (Vector2D.y (PowerUp.position p) <= -100)%Q /\ PowerUp.collected p = false)
         (powerUps g) ->
  let a := advanceEntities deltaTime g in
  length (obstacles a) = length (obstacles g) /\
  length (coins a) = length (coins g) /\
  length (powerUps a) = length (powerUps g) /\
  lastObstacleSpawn a = lastObstacleSpawn g /\
  lastCoinSpawn a = lastCoinSpawn g /\
  lastPowerUpSpawn a = lastPowerUpSpawn g.
Proof.
  intros Hdt Hcanvas Hspeed Hactive Ho Hc Hp. cbv zeta.
  unfold advanceEntities, has. destruct g. engine_norm.
  cbn in Hcanvas, Hspeed, Hactive, Ho, Hc, Hp. subst. rewrite lookup_empty.
  rewrite !filter_all, !List.length_map; [repeat split | | |].
  - apply List.Forall_map. eapply List.Forall_impl; [|exact Hp].
    intros p (Hy & Hcol). unfold PowerUp.update. destruct p. cbn in *. subst.
    rewrite andb_true_r. apply Qltb_lt. nra.
  - apply List.Forall_map. eapply List.Forall_impl; [|exact Hc].
    intros c (Hy & Hcol & Hmt). unfold Coin.update. destruct c. cbn in *. subst. cbn.
    rewrite andb_true_r. apply Qltb_lt. nra.
  - apply List.Forall_map. eapply List.Forall_impl; [|exact Ho].
    intros o Hy. unfold Obstacle.update. destruct o. cbn in *.
    apply Qltb_lt. nra.
Qed.

(** With all three stamps at 0 and the clock past every interval, the three
    gates fire in the same tick. *)
Lemma spawnGates_all now t :
  lastObstacleSpawn t = 0 -> lastCoinSpawn t = 0 -> lastPowerUpSpawn t = 0 ->
  obstacleSpawnInterval t < now -> 15000 < now ->
  obstacles t = [] -> coins t = [] -> powerUps t = [] ->
  let g := spawnGates now t in
  (lastObstacleSpawn g = now /\ lastCoinSpawn g = now /\ lastPowerUpSpawn g = now) /\
  (exists o, obstacles g = [o] /\ Vector2D.y (Obstacle.position o) = (-100)%Q) /\
  (exists p, powerUps g = [p] /\ Vector2D.y (PowerUp.position p) = (-100)%Q /\
             PowerUp.collected p = false) /\
  coins g = cluster (lanePositions t) (laneIndex (coinBaseDraw (spawnObstacle t)))
              (S (nextUid t))
              (numCoins (coinDraw1 (spawnObstacle t)) (coinDraw2 (spawnObstacle t))) /\
  sameSession t g.
Proof.
  intros H1 H2 H3 Hi Hnow Ho Hc Hp. cbv zeta.
  split; [|split; [|split; [|split; [|apply spawnGates_session]]]].
  all: unfold spawnGates; cbv zeta.
  all: destruct (spawnObstacle_shape t) as (o & k & Eo & Huid).
  all: set (t1 := set_lastObstacleSpawn now (spawnObstacle t)).
  all: assert (G1 : (now - lastObstacleSpawn t >? obstacleSpawnInterval t) = true)
         by (apply Z.gtb_lt; lia); rewrite G1.
  all: assert (F1 : lastCoinSpawn t1 = 0 /\ lastPowerUpSpawn t1 = 0 /\ lastObstacleSpawn t1 = now
                   /\ obstacles t1 = [o] /\ coins t1 = [] /\ powerUps t1 = []
                   /\ nextUid t1 = S (nextUid t) /\ lanePositions t1 = lanePositions t
                   /\ coinDraw1 t1 = coinDraw1 (spawnObstacle t)
                   /\ coinDraw2 t1 = coinDraw2 (spawnObstacle t)
                   /\ coinBaseDraw t1 = coinBaseDraw (spawnObstacle t))
         by (subst t1; rewrite Eo; destruct t; cbn in *; subst; repeat split).
  all: destruct F1 as (F1 & F2 & F3 & F4 & F5 & F6 & F7 & F8 & F9 & F10 & F11).
  all: assert (G2 : (now - lastCoinSpawn t1 >? 1500) = true)
         by (apply Z.gtb_lt; lia); rewrite G2.
  all: pose proof (spawnCoin_spec t1) as Ec; cbv zeta in Ec.
  all: set (t2 := set_lastCoinSpawn now (spawnCoin t1)).
  all: assert (J : lastPowerUpSpawn t2 = 0 /\ lastObstacleSpawn t2 = now /\ lastCoinSpawn t2 = now
                  /\ obstacles t2 = [o] /\ powerUps t2 = []
                  /\ coins t2 = cluster (lanePositions t)
                        (laneIndex (coinBaseDraw (spawnObstacle t))) (S (nextUid t))
                        (numCoins (coinDraw1 (spawnObstacle t)) (coinDraw2 (spawnObstacle t))))
         by (subst t2; rewrite Ec, F9, F10, F11, F8, F7; destruct t1; cbn in *; subst;
             repeat split).
  all: destruct J as (J1 & J2 & J3 & J4 & J5 & J6).
  all: assert (G3 : (now - lastPowerUpSpawn t2 >? 15000) = true)
         by (apply Z.gtb_lt; lia); rewrite G3.
  all: destruct (spawnPowerUp_shape t2) as (p & k' & Ep & _).
  all: assert (K : exists p', p' = p /\ Vector2D.y (PowerUp.position p') = (-100)%Q /\
                    PowerUp.collected p' = false /\
                    spawnPowerUp t2 = set_powerUps (powerUps t2 ++ [p'])
                      (set_nextUid (S (nextUid t2)) (set_randomCalls k' t2))).
  all: try (exists p; split; [reflexivity|]; split; [|split; [|exact Ep]];
         revert Ep; unfold spawnPowerUp, Math_random; destruct t2; engine_norm;
         intros Ep; injection Ep as Ep; apply app_inj_tail in Ep as (_ & <-); reflexivity).
  all: destruct K as (p' & -> & Ky & Kc & Ep'); rewrite Ep'.
  - destruct t2; cbn in *; subst; repeat split.
  - exists o. split; [destruct t2; cbn in *; subst; reflexivity|].
    revert Eo. unfold spawnObstacle, Math_random. destruct t. engine_norm.
    intros Eo'. injection Eo' as Eo'. apply app_inj_tail in Eo' as (_ & <-).
    destruct (obstacleTypeAt _); reflexivity.
  - exists p. split; [destruct t2; cbn in *; subst; reflexivity|]. split; assumption.
  - destruct t2; cbn in *; subst; reflexivity.
Qed.
End FirstTick.

Lemma cluster_above lanePositions baseLane uid n :
  Forall (fun c => (Vector2D.y (Coin.position c) <= -100)%Q /\ Coin.collected c = false /\
                   Coin.magnetTarget c = None)
         (cluster lanePositions baseLane uid n).
Proof.
  unfold cluster. apply List.Forall_map, List.Forall_forall. intros i _.
  cbn. split; [|split; reflexivity].
  assert (H : (0 <= inject_Z (Z.of_nat i))%Q).
  { change 0%Q with (inject_Z 0). rewrite <- Zle_Qle. lia. }
  nra.
Qed.

(** C10.  [startGame] puts the three spawn stamps at 0 and empties the
    lists; the gates compare the wall clock (milliseconds since 1970) with
    the stamps, so on the first frame after it, with the clock past 15000 ms
    and past the obstacle interval in force, all three gates fire: the
    stamps become [now] and the tick ends with one obstacle, one cluster of
    1 to 3 coins and one power-up in the lists. *)
Theorem first_tick_fires_all_gates (s : GameEngine.t) (time : Q) (now : Z)
    (Hs : reachable s)
    (Hcanvas : (0 <= GameEngine.canvasHeight s)%Q)
    (Hnow : 15000 < now)
    (Hinterval : GameEngine.obstacleSpawnInterval s < now) :
  let s1 := GameEngine.startGame s in
  let s2 := step s1 (AnimationFrame time now) in
  (GameEngine.state s1 = playing /\
   GameEngine.lastObstacleSpawn s1 = 0 /\ GameEngine.lastCoinSpawn s1 = 0 /\
   GameEngine.lastPowerUpSpawn s1 = 0 /\
   GameEngine.obstacles s1 = [] /\ GameEngine.coins s1 = [] /\ GameEngine.powerUps s1 = []) /\
  (GameEngine.lastObstacleSpawn s2 = now /\ GameEngine.lastCoinSpawn s2 = now /\
   GameEngine.lastPowerUpSpawn s2 = now) /\
  length (GameEngine.obstacles s2) = 1%nat /\
  length (GameEngine.powerUps s2) = 1%nat /\
  (1 <= length (GameEngine.coins s2) <= 3)%nat.
Proof.
  intros s1 s2.
  destruct (startGame_fields s) as (A1 & (A2 & A3 & A4) & (A5 & A6 & A7) & A8 & A9 & A10 & A11).
  fold s1 in A1, A2, A3, A4, A5, A6, A7, A8, A9, A10, A11.
  destruct (reachable_ok s Hs) as (Hbase & _).
  split; [repeat split; assumption|].
  subst s2. cbn [step].
  destruct (gameLoop_shape time now s1) as (lt & fc & ft & ev & dt & E & Hdt).
  cbv zeta in E. rewrite E, A1. cbn [bool_decide decide_rel]. clear E.
  rewrite bool_decide_eq_true_2 by reflexivity.
  set (s1' := GameEngine.set_lastTime lt _).
  unfold GameEngine.update, GameEngine.updateEntities. cbv zeta.
  set (t := GameEngine.set_player _ s1').
  assert (T : GameEngine.lastObstacleSpawn t = 0 /\ GameEngine.lastCoinSpawn t = 0 /\
              GameEngine.lastPowerUpSpawn t = 0 /\
              GameEngine.obstacles t = [] /\ GameEngine.coins t = [] /\
              GameEngine.powerUps t = [] /\ GameEngine.activePowerUps t = ∅ /\
              GameEngine.gameSpeed t = 300%Q /\
              GameEngine.obstacleSpawnInterval t = GameEngine.obstacleSpawnInterval s /\
              GameEngine.canvasHeight t = GameEngine.canvasHeight s).
  { subst t s1'. rewrite <- A10, <- A11. clearbody s1. destruct s1. cbn in *. subst.
    repeat split. exact Hbase. }
  destruct T as (T1 & T2 & T3 & T4 & T5 & T6 & T7 & T8 & T9 & T10). clearbody t.
  destruct (spawnGates_all now t T1 T2 T3 ltac:(lia) Hnow T4 T5 T6)
    as ((G1 & G2 & G3) & (o & Go & Hoy) & (p & Gp & Hpy & Hpc) & Gc & Gs).
  set (g := GameEngine.spawnGates now t) in *. clearbody g.
  destruct Gs as ((_ & _ & _ & _ & Gcanvas & _) & _ & _ & _ & Gactive & _ & _ & Gspeed & _).
  rewrite T7 in Gactive. rewrite T8 in Gspeed. rewrite T10 in Gcanvas.
  assert (Hdt' : (dt <= 0.016)%Q) by (rewrite Hdt; apply Q.le_min_r).
  destruct (advanceEntities_keeps dt g Hdt') as (K1 & K2 & K3 & K4 & K5 & K6);
    [rewrite Gcanvas; exact Hcanvas | exact Gspeed | exact Gactive | | | |].
  { rewrite Go. repeat constructor. rewrite Hoy. apply Qle_refl. }
  { rewrite Gc. apply cluster_above. }
  { rewrite Gp. repeat constructor; [rewrite Hpy; apply Qle_refl | exact Hpc]. }
  set (a := GameEngine.advanceEntities dt g) in *. clearbody a.
  destruct (afterAdvance_frame dt now a) as (Z1 & Z2 & Z3 & Z4 & Z5 & Z6 & _).
  cbv zeta in Z1, Z2, Z3, Z4, Z5, Z6.
  set (z := GameEngine.updateDifficulty dt _) in *. clearbody z.
  split; [repeat split; congruence|].
  split; [rewrite Z4, K1, Go; reflexivity|].
  assert (Lc : length (GameEngine.coins z) = length (GameEngine.coins a)).
  { unfold coinIds in Z5. rewrite <- (List.length_map Coin.uid), Z5, List.length_map. reflexivity. }
  assert (Lp : length (GameEngine.powerUps z) = length (GameEngine.powerUps a)).
  { unfold powerUpIds in Z6. rewrite <- (List.length_map PowerUp.uid), Z6, List.length_map.
    reflexivity. }
  split; [rewrite Lp, K3, Gp; reflexivity|].
  rewrite Lc, K2, Gc, cluster_length. unfold GameEngine.numCoins. repeat case_match; lia.
Qed.

Lemma first_tick_fires_all_gates_witness :
  reachable demoEngine /\
  (0 <= GameEngine.canvasHeight demoEngine)%Q /\
  15000 < 1000000 /\
  GameEngine.obstacleSpawnInterval demoEngine < 1000000 /\
  length (GameEngine.obstacles demoFirstFrame) = 1%nat.
Proof.
  assert (H1 : reachable demoEngine) by apply reachable_new.
  assert (H2 : (0 <= GameEngine.canvasHeight demoEngine)%Q) by (vm_compute; discriminate).
  assert (H3 : 15000 < 1000000) by lia.
  assert (H4 : GameEngine.obstacleSpawnInterval demoEngine < 1000000) by (vm_compute; reflexivity).
  repeat (split; [assumption|]).
  exact (proj1 (proj2 (proj2 (first_tick_fires_all_gates demoEngine 16 1000000 H1 H2 H3 H4)))).
Defined.

(** ** Removal of entities *)

Section Removal.
Import GameEngine.

Lemma appendsFresh_refl s : appendsFresh s s.
Proof.
  exists [], [], []. rewrite !app_nil_r. repeat split; try constructor.
Qed.

Lemma appendsFresh_trans s1 s2 s3 :
  appendsFresh s1 s2 -> appendsFresh s2 s3 -> appendsFresh s1 s3.
Proof.
  intros (fo & fc & fp & Ao & Ac & Ap & Fo & Fc & Fp & Hn)
         (fo' & fc' & fp' & Bo & Bc & Bp & Fo' & Fc' & Fp' & Hn').
  exists (fo ++ fo'), (fc ++ fc'), (fp ++ fp').
  rewrite Bo, Bc, Bp, Ao, Ac, Ap, <- !app_assoc.
  repeat split; try lia; apply Forall_app; split; try assumption;
    (eapply List.Forall_impl; [|eassumption]); cbn; intros; lia.
Qed.

Lemma appendsFresh_if (b : bool) s s1 : appendsFresh s s1 -> appendsFresh s (if b then s1 else s).
Proof. intros H. destruct b; [exact H | apply appendsFresh_refl]. Qed.

Lemma appendsFresh_same s s' :
  obstacles s' = obstacles s -> coins s' = coins s -> powerUps s' = powerUps s ->
  nextUid s' = nextUid s -> appendsFresh s s'.
Proof.
  intros Ho Hc Hp Hn. exists [], [], []. rewrite !app_nil_r, Hn.
  repeat split; try assumption; try constructor.
Qed.

Lemma spawnObstacle_appends s : appendsFresh s (spawnObstacle s).
Proof.
  destruct (spawnObstacle_shape s) as (o & k & -> & Ho).
  exists [o], [], []. destruct s. cbn in *. rewrite !app_nil_r.
  repeat split; try constructor; try constructor; lia.
Qed.

Lemma spawnPowerUp_appends s : appendsFresh s (spawnPowerUp s).
Proof.
  destruct (spawnPowerUp_shape s) as (p & k & -> & Hp).
  exists [], [], [p]. destruct s. cbn in *. rewrite !app_nil_r.
  repeat split; try constructor; try constructor; lia.
Qed.

Lemma spawnCoin_appends s : appendsFresh s (spawnCoin s).
Proof.
  rewrite spawnCoin_spec. cbv zeta.
  exists [], (cluster (lanePositions s) (laneIndex (coinBaseDraw s)) (nextUid s)
               (numCoins (coinDraw1 s) (coinDraw2 s))), [].
  destruct s. cbn [obstacles coins powerUps nextUid set_coins set_nextUid
    set_randomCalls]. rewrite !app_nil_r.
  split; [reflexivity|]. split; [reflexivity|]. split; [reflexivity|].
  split; [constructor|]. split; [|split; [constructor | lia]].
  unfold cluster. apply List.Forall_map, List.Forall_forall. intros i _. cbn. lia.
Qed.

Lemma spawnGates_appends currentTime s : appendsFresh s (spawnGates currentTime s).
Proof.
  assert (S1 : forall v t, appendsFresh t (set_lastObstacleSpawn v t))
    by (intros v t; apply appendsFresh_same; destruct t; reflexivity).
  assert (S2 : forall v t, appendsFresh t (set_lastCoinSpawn v t))
    by (intros v t; apply appendsFresh_same; destruct t; reflexivity).
  assert (S3 : forall v t, appendsFresh t (set_lastPowerUpSpawn v t))
    by (intros v t; apply appendsFresh_same; destruct t; reflexivity).
  unfold spawnGates. cbv zeta.
  eapply appendsFresh_trans;
    [|apply appendsFresh_if; eapply appendsFresh_trans; [apply spawnPowerUp_appends | apply S3]].
  eapply appendsFresh_trans;
    [|apply appendsFresh_if; eapply appendsFresh_trans; [apply spawnCoin_appends | apply S2]].
  apply appendsFresh_if; eapply appendsFresh_trans; [apply spawnObstacle_appends | apply S1].
Qed.

(** The lists at the end of a tick: the old elements and the ones spawned in
    the tick, advanced and filtered; the collision check then flags coins
    and power-ups without removing any. *)
Lemma update_lists deltaTime now s :
  exists fo fc fp,
    Forall (fun o => (nextUid s <= Obstacle.uid o)%nat) fo /\
    Forall (fun c => (nextUid s <= Coin.uid c)%nat) fc /\
    Forall (fun p => (nextUid s <= PowerUp.uid p)%nat) fp /\
    obstacleIds (update deltaTime now s)
    = List.map Obstacle.uid (List.filter (obstacleStays (canvasHeight s))
        (List.map (advancedObstacle deltaTime s) (obstacles s ++ fo))) /\
    coinIds (update deltaTime now s)
    = List.map Coin.uid (List.filter (coinStays (canvasHeight s))
        (List.map (advancedCoin deltaTime s) (coins s ++ fc))) /\
    powerUpIds (update deltaTime now s)
    = List.map PowerUp.uid (List.filter (powerUpStays (canvasHeight s))
        (List.map (advancedPowerUp deltaTime s) (powerUps s ++ fp))).
Proof.
  unfold update, updateEntities. cbv zeta.
  set (t := set_player (Player.update deltaTime (lanePositions s) (player s)) s).
  assert (Ht : obstacles t = obstacles s /\ coins t = coins s /\ powerUps t = powerUps s /\
               nextUid t = nextUid s /\ canvasHeight t = canvasHeight s /\
               gameSpeed t = gameSpeed s /\ activePowerUps t = activePowerUps s /\
               player t = Player.update deltaTime (lanePositions s) (player s))
    by (subst t; destruct s; repeat split).
  destruct Ht as (T1 & T2 & T3 & T4 & T5 & T6 & T7 & T8). clearbody t.
  destruct (spawnGates_appends now t) as (fo & fc & fp & Go & Gc & Gp & Fo & Fc & Fp & _).
  destruct (spawnGates_session now t)
    as ((_ & _ & _ & _ & Gh & _) & Gpl & _ & _ & Ga & _ & _ & Gs & _).
  set (g := spawnGates now t) in *. clearbody g.
  destruct (afterAdvance_frame deltaTime now (advanceEntities deltaTime g))
    as (_ & _ & _ & Zo & Zc & Zp & _).
  cbv zeta in Zo, Zc, Zp. unfold obstacleIds at 1. rewrite Zo, Zc, Zp.
  exists fo, fc, fp. rewrite T4 in Fo, Fc, Fp.
  split; [exact Fo|]. split; [exact Fc|]. split; [exact Fp|].
  rewrite <- T1, <- T2, <- T3, <- Go, <- Gc, <- Gp.
  unfold advancedObstacle, advancedCoin, advancedPowerUp, coinIds, powerUpIds, has.
  rewrite <- T5, <- T6, <- T7, <- T8, <- Gh, <- Gs, <- Ga, <- Gpl.
  destruct g. repeat split.
Qed.

Lemma NoDup_map_eq {A B} (f : A -> B) (l : list A) (x y : A) :
  NoDup (List.map f l) -> In x l -> In y l -> f x = f y -> x = y.
Proof.
  induction l as [|a l IH]; intros Hnd Hx Hy Hf; [destruct Hx|].
  cbn [List.map] in Hnd. apply NoDup_cons in Hnd as (Ha & Hnd).
  rewrite list_elem_of_In in Ha.
  destruct Hx as [-> | Hx], Hy as [-> | Hy]; [reflexivity | | | apply IH; assumption].
  - exfalso. apply Ha. rewrite Hf. apply List.in_map, Hy.
  - exfalso. apply Ha. rewrite <- Hf. apply List.in_map, Hx.
Qed.

(** An old element that fails the filter is gone: no other element, old or
    fresh, carries its serial number. *)
Lemma filtered_out {A} (uid : A -> nat) (upd : A -> A) (stays : A -> bool)
    (l fresh : list A) (n : nat) (x : A) :
  (forall a, uid (upd a) = uid a) ->
  NoDup (List.map uid l) -> Forall (fun i => (i < n)%nat) (List.map uid l) ->
  Forall (fun a => (n <= uid a)%nat) fresh ->
  x ∈ l -> stays (upd x) = false ->
  uid x ∉ List.map uid (List.filter stays (List.map upd (l ++ fresh))).
Proof.
  intros Huid Hnd Hlt Hfresh Hx Hstay Hin.
  apply list_elem_of_In in Hx. apply list_elem_of_In in Hin.
  apply List.in_map_iff in Hin as (y' & Hy' & Hin).
  apply List.filter_In in Hin as (Hin & Hs).
  apply List.in_map_iff in Hin as (y & <- & Hin).
  rewrite Huid in Hy'. apply List.in_app_iff in Hin as [Hin | Hin].
  - assert (y = x) by (eapply NoDup_map_eq; eassumption). subst y. congruence.
  - pose proof (proj1 (List.Forall_forall _ _) Hfresh y Hin) as H1.
    pose proof (proj1 (List.Forall_forall _ _) Hlt (uid x) (List.in_map uid l x Hx)) as H2.
    cbv beta in H1, H2. lia.
Qed.

Lemma hitOutcome_lists pts k a :
  obstacles (hitOutcome pts k a) = obstacles a /\
  coins (hitOutcome pts k a) = coins a /\
  powerUps (hitOutcome pts k a) = powerUps a.
Proof.
  unfold hitOutcome. destruct a. cbn [lives]. destruct (lives0 - 1 <=? 0); repeat split.
Qed.

Lemma checkCollisions_keeps now m :
  obstacles (checkCollisions now m) = obstacles m /\
  coinIds (checkCollisions now m) = coinIds m /\
  powerUpIds (checkCollisions now m) = powerUpIds m.
Proof.
  unfold checkCollisions. rewrite checkObstacles_cases.
  destruct (afterPickups_shape now m) as (c & p & sc & ac & pl & ev & pts & k & E & _ & Hc & Hp).
  assert (Ha : obstacles (afterPickups now m) = obstacles m /\
               coinIds (afterPickups now m) = coinIds m /\
               powerUpIds (afterPickups now m) = powerUpIds m).
  { rewrite E, <- Hc, <- Hp. clear E Hc Hp. unfold coinIds, powerUpIds.
    destruct m. repeat split. }
  clear E Hc Hp. set (a := afterPickups now m) in *. clearbody a.
  destruct Ha as (A1 & A2 & A3).
  assert (Hh : obstacles (handlePlayerHit a) = obstacles a /\
               coinIds (handlePlayerHit a) = coinIds a /\
               powerUpIds (handlePlayerHit a) = powerUpIds a).
  { destruct (has shield a) eqn:Hsh.
    - rewrite handlePlayerHit_shield by exact Hsh. repeat split.
    - destruct (handlePlayerHit_hit _ Hsh) as (pts' & k' & ->).
      destruct (hitOutcome_lists pts' k' a) as (H1 & H2 & H3).
      unfold coinIds, powerUpIds. rewrite H1, H2, H3. repeat split. }
  destruct Hh as (H1 & H2 & H3).
  destruct (negb _ && _).
  - rewrite H1, H2, H3. repeat split; assumption.
  - repeat split; assumption.
Qed.

Lemma Coin_update_fields deltaTime gameSpeed playerPos magnetActive c :
  Coin.uid (Coin.update deltaTime gameSpeed playerPos magnetActive c) = Coin.uid c /\
  Coin.collected (Coin.update deltaTime gameSpeed playerPos magnetActive c) = Coin.collected c.
Proof.
  unfold Coin.update. destruct c. cbn. repeat case_match; split; reflexivity.
Qed.

(** What a tick removes: every element of the lists of [s] that fails its
    filter once advanced. *)
Lemma update_removes_obstacle deltaTime now s (o : Obstacle.t) :
  idsOk s -> o ∈ obstacles s ->
  obstacleStays (canvasHeight s) (advancedObstacle deltaTime s o) = false ->
  Obstacle.uid o ∉ obstacleIds (update deltaTime now s).
Proof.
  intros (No & _ & _ & Fo & _ & _) Ho Hs Hin.
  destruct (update_lists deltaTime now s) as (fo & _ & _ & Go & _ & _ & Eo & _ & _).
  revert Hin Eo. generalize (update deltaTime now s). intros u Hin Eo.
  rewrite Eo in Hin. clear Eo u.
  refine (filtered_out Obstacle.uid (advancedObstacle deltaTime s)
            (obstacleStays (canvasHeight s)) (obstacles s) fo (nextUid s) o
            _ No Fo Go Ho Hs Hin).
  intros a. destruct a; reflexivity.
Qed.

Lemma update_removes_coin deltaTime now s (c : Coin.t) :
  idsOk s -> c ∈ coins s ->
  coinStays (canvasHeight s) (advancedCoin deltaTime s c) = false ->
  Coin.uid c ∉ coinIds (update deltaTime now s).
Proof.
  intros (_ & Nc & _ & _ & Fc & _) Hc Hs Hin.
  destruct (update_lists deltaTime now s) as (_ & fc & _ & _ & Gc & _ & _ & Ec & _).
  revert Hin Ec. generalize (update deltaTime now s). intros u Hin Ec.
  rewrite Ec in Hin. clear Ec u.
  refine (filtered_out Coin.uid (advancedCoin deltaTime s)
            (coinStays (canvasHeight s)) (coins s) fc (nextUid s) c
            _ Nc Fc Gc Hc Hs Hin).
  intros a. apply Coin_update_fields.
Qed.

Lemma update_removes_powerUp deltaTime now s (p : PowerUp.t) :
  idsOk s -> p ∈ powerUps s ->
  powerUpStays (canvasHeight s) (advancedPowerUp deltaTime s p) = false ->
  PowerUp.uid p ∉ powerUpIds (update deltaTime now s).
Proof.
  intros (_ & _ & Np & _ & _ & Fp) Hp Hs Hin.
  destruct (update_lists deltaTime now s) as (_ & _ & fp & _ & _ & Gp & _ & _ & Ep).
  revert Hin Ep. generalize (update deltaTime now s). intros u Hin Ep.
  rewrite Ep in Hin. clear Ep u.
  refine (filtered_out PowerUp.uid (advancedPowerUp deltaTime s)
            (powerUpStays (canvasHeight s)) (powerUps s) fp (nextUid s) p
            _ Np Fp Gp Hp Hs Hin).
  intros a. destruct a; reflexivity.
Qed.

Lemma advancedCoin_collected deltaTime s c :
  Coin.collected (advancedCoin deltaTime s c) = Coin.collected c.
Proof. apply Coin_update_fields. Qed.

(** An identity that a step has taken out of a list stays out of it. *)
Lemma absent_forever inputs : forall s i,
  idsOk s -> (i < nextUid s)%nat ->
  (i ∉ obstacleIds s -> i ∉ obstacleIds (run inputs s)) /\
  (i ∉ coinIds s -> i ∉ coinIds (run inputs s)) /\
  (i ∉ powerUpIds s -> i ∉ powerUpIds (run inputs s)).
Proof.
  induction inputs as [|input inputs IH]; intros s i Hok Hi; [repeat split; auto|].
  cbn [run fold_left]. fold (run inputs (step s input)).
  pose proof (effect_ids _ _ (step_effect s input)) as Hstep.
  pose proof (idsStep_ok _ _ Hstep Hok) as Hok'.
  destruct Hstep as (Hn & So & Sc & Sp). unfold freshIds in So, Sc, Sp.
  destruct (IH (step s input) i Hok' ltac:(lia)) as (I1 & I2 & I3).
  split; [|split]; intros Habs.
  - apply I1. eapply idsStep_absent; eassumption.
  - apply I2. eapply idsStep_absent; eassumption.
  - apply I3. eapply idsStep_absent; eassumption.
Qed.
End Removal.

(** The hand-made sessions are states as a run leaves them. *)
Lemma demo_sessions_well_formed :
  Forall (fun s => idsOk s /\ livesOk s /\ lanesInRange (GameEngine.player s) /\
                   exclusiveMoves (GameEngine.player s) /\ GameEngine.state s = playing)
         [demoCoinAhead; demoObstaclePast; demoLastLife].
Proof.
  assert (H : forall s,
    bool_decide (NoDup (obstacleIds s) /\ NoDup (coinIds s) /\ NoDup (powerUpIds s) /\
                 Forall (fun i => (i < GameEngine.nextUid s)%nat) (obstacleIds s) /\
                 Forall (fun i => (i < GameEngine.nextUid s)%nat) (coinIds s) /\
                 Forall (fun i => (i < GameEngine.nextUid s)%nat) (powerUpIds s)) = true ->
    (1 <=? GameEngine.lives s) = true ->
    bool_decide (0 <= Player.targetLane (GameEngine.player s) <= 2 /\
                 0 <= Player.currentLane (GameEngine.player s) <= 2) = true ->
    Player.isJumping (GameEngine.player s) && Player.isSliding (GameEngine.player s) = false ->
    GameEngine.state s = playing ->
    idsOk s /\ livesOk s /\ lanesInRange (GameEngine.player s) /\
    exclusiveMoves (GameEngine.player s) /\ GameEngine.state s = playing).
  { intros s H1 H2 H3 H4 H5. split; [exact (bool_decide_eq_true_1 _ H1)|].
    split; [intros _; apply Z.leb_le, H2|].
    split; [exact (bool_decide_eq_true_1 _ H3)|]. split; [|exact H5].
    intros (Hj & Hs). rewrite Hj, Hs in H4. discriminate H4. }
  repeat (apply List.Forall_cons; [apply H; vm_compute; reflexivity|]). apply List.Forall_nil.
Qed.

(** C6 fails as to the tick of removal.  In the run [lowWorldRun] the eighth
    tick detects coin 1 (it emits the [coin] sound and adds 10 to the score)
    and ends with the coin still in the coin list, flagged; the filter of
    the ninth tick drops it.  The same on the 800-high canvas: the coin of
    [demoCoinAhead] overlaps the player, is flagged and kept by the tick that
    detects it, and is dropped by the next. *)
Lemma collected_coin_outlives_its_tick :
  (let before := lowWorldRun 7 in
   let detected := lowWorldRun 8 in
   let next := lowWorldRun 9 in
   List.map (fun c => (Coin.uid c, Coin.collected c)) (GameEngine.coins before)
   = [(1%nat, false); (2%nat, false)] /\
   GameEngine.events detected
   = GameEngine.events before ++ [PlaySound "coin"; ScoreChange 11] /\
   List.map (fun c => (Coin.uid c, Coin.collected c)) (GameEngine.coins detected)
   = [(1%nat, true); (2%nat, false)] /\
   coinIds next = [2%nat]) /\
  (let detected := step demoCoinAhead (AnimationFrame 32 1000016) in
   let next := step detected (AnimationFrame 48 1000032) in
   List.map (fun c => (Coin.uid c, Coin.collected c)) (GameEngine.coins demoCoinAhead)
   = [(1%nat, false)] /\
   GameEngine.events detected
   = GameEngine.events demoCoinAhead ++ [PlaySound "coin"; ScoreChange 10] /\
   List.map (fun c => (Coin.uid c, Coin.collected c)) (GameEngine.coins detected)
   = [(1%nat, true)] /\
   GameEngine.coins next = []).
Proof. vm_compute. repeat split. Qed.

(** C6, amended.  The collision check flags coins and power-ups and removes
    nothing, so a collected entity is still in its list when the tick of
    detection ends; the filter of the next tick drops it, as it drops every
    obstacle at or below [canvasHeight + 100] and every coin and power-up at
    or below [canvasHeight + 50] once advanced; and an entity that a step
    has taken out of its list is in that list in no later state. *)
Theorem entities_leave_through_the_filters :
  (forall now m,
     GameEngine.obstacles (GameEngine.checkCollisions now m) = GameEngine.obstacles m /\
     coinIds (GameEngine.checkCollisions now m) = coinIds m /\
     powerUpIds (GameEngine.checkCollisions now m) = powerUpIds m) /\
  (forall deltaTime now s, idsOk s ->
     (forall c : Coin.t, c ∈ GameEngine.coins s -> Coin.collected c = true ->
        Coin.uid c ∉ coinIds (GameEngine.update deltaTime now s)) /\
     (forall p : PowerUp.t, p ∈ GameEngine.powerUps s -> PowerUp.collected p = true ->
        PowerUp.uid p ∉ powerUpIds (GameEngine.update deltaTime now s)) /\
     (forall o : Obstacle.t, o ∈ GameEngine.obstacles s ->
        (GameEngine.canvasHeight s + 100
         <= Vector2D.y (Obstacle.position o) + GameEngine.gameSpeed s * deltaTime)%Q ->
        Obstacle.uid o ∉ obstacleIds (GameEngine.update deltaTime now s)) /\
     (forall c : Coin.t, c ∈ GameEngine.coins s ->
        (GameEngine.canvasHeight s + 50
         <= Vector2D.y (Coin.position (advancedCoin deltaTime s c)))%Q ->
        Coin.uid c ∉ coinIds (GameEngine.update deltaTime now s)) /\
     (forall p : PowerUp.t, p ∈ GameEngine.powerUps s ->
        (GameEngine.canvasHeight s + 50
         <= Vector2D.y (PowerUp.position p) + GameEngine.gameSpeed s * deltaTime)%Q ->
        PowerUp.uid p ∉ powerUpIds (GameEngine.update deltaTime now s))) /\
  (forall s input inputs (i : nat), reachable s ->
     (i ∈ obstacleIds s -> i ∉ obstacleIds (step s input) ->
      i ∉ obstacleIds (run inputs (step s input))) /\
     (i ∈ coinIds s -> i ∉ coinIds (step s input) ->
      i ∉ coinIds (run inputs (step s input))) /\
     (i ∈ powerUpIds s -> i ∉ powerUpIds (step s input) ->
      i ∉ powerUpIds (run inputs (step s input)))).
Proof.
  split; [exact checkCollisions_keeps|]. split.
  - intros deltaTime now s Hok.
    split; [|split; [|split; [|split]]].
    + intros c Hc Hcol. apply update_removes_coin; [exact Hok | exact Hc|].
      unfold coinStays. rewrite advancedCoin_collected, Hcol. apply andb_false_r.
    + intros p Hp Hcol. apply update_removes_powerUp; [exact Hok | exact Hp|].
      unfold powerUpStays, advancedPowerUp. destruct p. cbn in *. rewrite Hcol.
      apply andb_false_r.
    + intros o Ho Hy. apply update_removes_obstacle; [exact Hok | exact Ho|].
      unfold obstacleStays, advancedObstacle. destruct o. cbn in *. apply Qltb_ge, Hy.
    + intros c Hc Hy. apply update_removes_coin; [exact Hok | exact Hc|].
      unfold coinStays. apply andb_false_iff. left. apply Qltb_ge, Hy.
    + intros p Hp Hy. apply update_removes_powerUp; [exact Hok | exact Hp|].
      unfold powerUpStays, advancedPowerUp. destruct p. cbn in *.
      apply andb_false_iff. left. apply Qltb_ge, Hy.
  - intros s input inputs i Hs.
    destruct (reachable_ok s Hs) as (_ & _ & Hok & _).
    pose proof (effect_ids _ _ (step_effect s input)) as Hstep.
    pose proof (idsStep_ok _ _ Hstep Hok) as Hok'.
    destruct Hstep as (Hn & _). destruct Hok as (_ & _ & _ & Fo & Fc & Fp).
    assert (Hlt : forall ids : list nat,
              Forall (fun j => (j < GameEngine.nextUid s)%nat) ids -> i ∈ ids ->
              (i < GameEngine.nextUid (step s input))%nat).
    { intros ids Hall Hin. rewrite Forall_forall in Hall. specialize (Hall i Hin). lia. }
    split; [|split]; intros Hin Hout.
    + apply (absent_forever inputs (step s input) i Hok' (Hlt _ Fo Hin)), Hout.
    + apply (absent_forever inputs (step s input) i Hok' (Hlt _ Fc Hin)), Hout.
    + apply (absent_forever inputs (step s input) i Hok' (Hlt _ Fp Hin)), Hout.
Qed.

Lemma entities_leave_through_the_filters_witness :
  idsOk demoObstaclePast /\
  Obstacle.new 0 (Vector2D.mk 300 900) 1 barrier ∈ GameEngine.obstacles demoObstaclePast /\
  (GameEngine.canvasHeight demoObstaclePast + 100
   <= 900 + GameEngine.gameSpeed demoObstaclePast * 0.016)%Q /\
  0%nat ∉ obstacleIds (GameEngine.update 0.016 1000016 demoObstaclePast).
Proof.
  assert (H1 : idsOk demoObstaclePast).
  { unfold idsOk, obstacleIds, coinIds, powerUpIds.
    repeat split; apply (bool_decide_unpack _); vm_compute; exact I. }
  assert (H2 : Obstacle.new 0 (Vector2D.mk 300 900) 1 barrier
               ∈ GameEngine.obstacles demoObstaclePast) by (vm_compute; constructor).
  assert (H3 : (GameEngine.canvasHeight demoObstaclePast + 100
                <= 900 + GameEngine.gameSpeed demoObstaclePast * 0.016)%Q)
    by (vm_compute; discriminate).
  repeat (split; [assumption|]).
  exact (proj1 (proj2 (proj2 (proj1 (proj2 entities_leave_through_the_filters)
    0.016%Q 1000016 demoObstaclePast H1)))
    (Obstacle.new 0 (Vector2D.mk 300 900) 1 barrier) H2 H3).
Defined.

(** * Further properties of the engine *)

(** ** Geometry *)

(** X1. [isColliding] is the strict overlap of two boxes: it holds exactly
    when the open intervals of the boxes meet on both axes, it does not depend
    on the order of its arguments, and two boxes that only touch along an edge
    do not collide. *)
Theorem isColliding_strict_overlap (a b : Hitbox.t) :
  (GameEngine.isColliding a b = true <->
   (Hitbox.x a < Hitbox.x b + Hitbox.width b /\ Hitbox.x b < Hitbox.x a + Hitbox.width a /\
    Hitbox.y a < Hitbox.y b + Hitbox.height b /\ Hitbox.y b < Hitbox.y a + Hitbox.height a)%Q) /\
  GameEngine.isColliding a b = GameEngine.isColliding b a /\
  ((Hitbox.x a + Hitbox.width a == Hitbox.x b)%Q -> GameEngine.isColliding a b = false) /\
  ((Hitbox.y a + Hitbox.height a == Hitbox.y b)%Q -> GameEngine.isColliding a b = false) /\
  (GameEngine.isColliding a a = true <-> (0 < Hitbox.width a /\ 0 < Hitbox.height a)%Q).
Proof.
  assert (Hiff : forall a b, GameEngine.isColliding a b = true <->
    (Hitbox.x a < Hitbox.x b + Hitbox.width b /\ Hitbox.x b < Hitbox.x a + Hitbox.width a /\
     Hitbox.y a < Hitbox.y b + Hitbox.height b /\ Hitbox.y b < Hitbox.y a + Hitbox.height a)%Q).
  { intros r1 r2. unfold GameEngine.isColliding.
    rewrite !andb_true_iff, !Qltb_lt. tauto. }
  split; [apply Hiff|]. split.
  - apply eq_true_iff_eq. rewrite !Hiff. tauto.
  - split; [|split].
    + intros Htouch. apply not_true_is_false. rewrite Hiff. intros (_ & H & _). lra.
    + intros Htouch. apply not_true_is_false. rewrite Hiff. intros (_ & _ & _ & H). lra.
    + rewrite Hiff. split; [intros (H1 & _ & H2 & _) | intros (H1 & H2)]; repeat split; lra.
Qed.

Lemma isColliding_strict_overlap_witness :
  let a := Hitbox.mk 0 0 40 60 in
  let b := Hitbox.mk 40 0 20 20 in
  (Hitbox.x a + Hitbox.width a == Hitbox.x b)%Q /\ GameEngine.isColliding a b = false.
Proof.
  cbv zeta. split; [reflexivity|].
  apply (proj1 (proj2 (proj2 (isColliding_strict_overlap (Hitbox.mk 0 0 40 60) (Hitbox.mk 40 0 20 20))))).
  reflexivity.
Defined.

(** X2. The hit box of a sliding player, against the one it has standing at
    the same position: same horizontal extent, 0.6 of the height, the top edge
    0.8 of the player's height lower, and the bottom edge 0.4 of the player's
    height below the feet. *)
Theorem slide_hitbox (p : Player.t) :
  let standing := Player.getHitbox (Player.set_isSliding false p) in
  let sliding := Player.getHitbox (Player.set_isSliding true p) in
  Hitbox.x sliding = Hitbox.x standing /\
  Hitbox.width sliding = Hitbox.width standing /\
  (Hitbox.height standing == Player.height p)%Q /\
  (Hitbox.y standing + Hitbox.height standing == Vector2D.y (Player.position p))%Q /\
  (Hitbox.height sliding == Player.height p * 0.6)%Q /\
  (Hitbox.y sliding == Hitbox.y standing + Player.height p * 0.8)%Q /\
  (Hitbox.y sliding + Hitbox.height sliding
   == Vector2D.y (Player.position p) + Player.height p * 0.4)%Q.
Proof.
  destruct p as [[px py] v cl tl j sl g jh st w h af inv it].
  cbn. repeat split; try reflexivity; ring.
Qed.

(** ** The player's motion *)

Ltac player_norm :=
  cbv beta iota zeta delta
    [Player.set_position Player.set_velocity Player.set_currentLane Player.set_targetLane
     Player.set_isJumping Player.set_isSliding Player.set_slideTime Player.set_animationFrame
     Player.set_invulnerable Player.set_invulnerableTime
     Player.position Player.velocity Player.currentLane Player.targetLane Player.isJumping
     Player.isSliding Player.groundY Player.jumpHeight Player.slideTime Player.width
     Player.height Player.animationFrame Player.invulnerable Player.invulnerableTime
     Vector2D.x Vector2D.y].

Lemma updateLane_rest deltaTime lanePositions p :
  let p' := Player.updateLane deltaTime lanePositions p in
  Player.position p'
  = Vector2D.mk (lerp (Vector2D.x (Player.position p))
                      (laneAt lanePositions (clamp (Player.targetLane p) 0 2)) (deltaTime * 8))
                (Vector2D.y (Player.position p)) /\
  Player.velocity p' = Player.velocity p /\
  Player.groundY p' = Player.groundY p /\
  Player.slideTime p' = Player.slideTime p /\
  Player.invulnerable p' = Player.invulnerable p /\
  Player.invulnerableTime p' = Player.invulnerableTime p /\
  Player.currentLane p'
  = (if Qltb (Qabs (Vector2D.x (Player.position p') -
                    laneAt lanePositions (clamp (Player.targetLane p) 0 2))) 5
     then clamp (Player.targetLane p) 0 2 else Player.currentLane p).
Proof.
  destruct p as [[px py] [vx vy] cl tl j sl g jh st w h af inv it]. unfold Player.updateLane. player_norm.
  destruct (Qltb _ 5) eqn:E; player_norm; rewrite ?E; repeat split; reflexivity.
Qed.

Lemma updateJump_rest deltaTime p :
  let p' := Player.updateJump deltaTime p in
  Vector2D.x (Player.position p') = Vector2D.x (Player.position p) /\
  Player.groundY p' = Player.groundY p /\
  Player.slideTime p' = Player.slideTime p /\
  Player.invulnerable p' = Player.invulnerable p /\
  Player.invulnerableTime p' = Player.invulnerableTime p.
Proof.
  destruct p as [[px py] [vx vy] cl tl j sl g jh st w h af inv it]. unfold Player.updateJump. player_norm.
  destruct j; [destruct (Qle_bool _ _)|]; player_norm; repeat split; reflexivity.
Qed.

Lemma updateSlide_rest deltaTime p :
  let p' := Player.updateSlide deltaTime p in
  Player.position p' = Player.position p /\
  Player.velocity p' = Player.velocity p /\
  Player.groundY p' = Player.groundY p /\
  Player.invulnerable p' = Player.invulnerable p /\
  Player.invulnerableTime p' = Player.invulnerableTime p.
Proof.
  destruct p as [[px py] [vx vy] cl tl j sl g jh st w h af inv it]. unfold Player.updateSlide. player_norm.
  destruct sl; [destruct (Qle_bool _ _)|]; player_norm; repeat split; reflexivity.
Qed.

Lemma updateInvulnerable_rest deltaTime p :
  let p' := Player.updateInvulnerable deltaTime p in
  Player.position p' = Player.position p /\
  Player.velocity p' = Player.velocity p /\
  Player.groundY p' = Player.groundY p /\
  Player.slideTime p' = Player.slideTime p.
Proof.
  destruct p as [[px py] [vx vy] cl tl j sl g jh st w h af inv it]. unfold Player.updateInvulnerable. player_norm.
  destruct inv; [destruct (Qle_bool _ _)|]; player_norm; repeat split; reflexivity.
Qed.

Lemma set_animationFrame_rest v p :
  let p' := Player.set_animationFrame v p in
  Player.position p' = Player.position p /\
  Player.velocity p' = Player.velocity p /\
  Player.groundY p' = Player.groundY p /\
  Player.currentLane p' = Player.currentLane p /\
  Player.targetLane p' = Player.targetLane p /\
  Player.isJumping p' = Player.isJumping p /\
  Player.isSliding p' = Player.isSliding p /\
  Player.slideTime p' = Player.slideTime p /\
  Player.invulnerable p' = Player.invulnerable p /\
  Player.invulnerableTime p' = Player.invulnerableTime p.
Proof. destruct p. cbn. repeat split; reflexivity. Qed.

(** The horizontal coordinate after one [update]. *)
Lemma Player_update_x deltaTime lanePositions p :
  Vector2D.x (Player.position (Player.update deltaTime lanePositions p))
  = lerp (Vector2D.x (Player.position p))
         (laneAt lanePositions (clamp (Player.targetLane p) 0 2)) (deltaTime * 8).
Proof.
  unfold Player.update. cbv zeta.
  destruct (set_animationFrame_rest
    (Player.animationFrame (Player.updateInvulnerable deltaTime (Player.updateSlide deltaTime
       (Player.updateJump deltaTime (Player.updateLane deltaTime lanePositions p))))
     + deltaTime * 10)%Q
    (Player.updateInvulnerable deltaTime (Player.updateSlide deltaTime
       (Player.updateJump deltaTime (Player.updateLane deltaTime lanePositions p)))))
    as (-> & _).
  destruct (updateInvulnerable_rest deltaTime (Player.updateSlide deltaTime
       (Player.updateJump deltaTime (Player.updateLane deltaTime lanePositions p)))) as (-> & _).
  destruct (updateSlide_rest deltaTime
       (Player.updateJump deltaTime (Player.updateLane deltaTime lanePositions p))) as (-> & _).
  destruct (updateJump_rest deltaTime (Player.updateLane deltaTime lanePositions p)) as (-> & _).
  destruct (updateLane_rest deltaTime lanePositions p) as (-> & _).
  reflexivity.
Qed.

Lemma Player_update_currentLane deltaTime lanePositions p :
  Player.currentLane (Player.update deltaTime lanePositions p)
  = (if Qltb (Qabs (Vector2D.x (Player.position (Player.update deltaTime lanePositions p)) -
                    laneAt lanePositions (clamp (Player.targetLane p) 0 2))) 5
     then clamp (Player.targetLane p) 0 2 else Player.currentLane p).
Proof.
  rewrite Player_update_x.
  unfold Player.update. cbv zeta.
  destruct (set_animationFrame_rest
    (Player.animationFrame (Player.updateInvulnerable deltaTime (Player.updateSlide deltaTime
       (Player.updateJump deltaTime (Player.updateLane deltaTime lanePositions p))))
     + deltaTime * 10)%Q
    (Player.updateInvulnerable deltaTime (Player.updateSlide deltaTime
       (Player.updateJump deltaTime (Player.updateLane deltaTime lanePositions p)))))
    as (_ & _ & _ & -> & _).
  destruct (updateInvulnerable_fields deltaTime (Player.updateSlide deltaTime
       (Player.updateJump deltaTime (Player.updateLane deltaTime lanePositions p))))
    as (_ & -> & _).
  destruct (updateSlide_fields deltaTime
       (Player.updateJump deltaTime (Player.updateLane deltaTime lanePositions p)))
    as (_ & -> & _).
  destruct (updateJump_fields deltaTime (Player.updateLane deltaTime lanePositions p))
    as (_ & -> & _).
  destruct (updateLane_rest deltaTime lanePositions p) as (Hpos & _ & _ & _ & _ & _ & ->).
  rewrite Hpos. reflexivity.
Qed.

(** X3. Lane switching glides: one [update] moves the player's x towards the
    x of the (clamped) target lane, leaving [1 - 8 * deltaTime] of the
    distance; for a delta time between 0 and 1/8 it neither overshoots nor
    moves away.  The current lane becomes the target lane exactly when the distance
    left is below 5. *)
Theorem lane_glide (deltaTime : Q) (lanePositions : list Q) (p : Player.t) :
  let lane := clamp (Player.targetLane p) 0 2 in
  let target := laneAt lanePositions lane in
  let x := Vector2D.x (Player.position p) in
  let p' := Player.update deltaTime lanePositions p in
  let x' := Vector2D.x (Player.position p') in
  (x' - target == (1 - deltaTime * 8) * (x - target))%Q /\
  ((0 <= deltaTime)%Q -> (deltaTime * 8 <= 1)%Q ->
     (Qabs (x' - target) <= Qabs (x - target))%Q /\
     ((x <= target)%Q -> (x <= x')%Q /\ (x' <= target)%Q) /\
     ((target <= x)%Q -> (target <= x')%Q /\ (x' <= x)%Q)) /\
  ((Qabs (x' - target) < 5)%Q -> Player.currentLane p' = lane) /\
  ((5 <= Qabs (x' - target))%Q -> Player.currentLane p' = Player.currentLane p).
Proof.
  cbv zeta.
  pose proof (Player_update_currentLane deltaTime lanePositions p) as Hlane.
  pose proof (Player_update_x deltaTime lanePositions p) as Hx.
  revert Hlane Hx. generalize (Player.update deltaTime lanePositions p). intros p' Hlane Hx.
  rewrite Hx in *. clear Hx.
  set (target := laneAt lanePositions (clamp (Player.targetLane p) 0 2)) in *.
  set (x := Vector2D.x (Player.position p)) in *.
  assert (Hd : (lerp x target (deltaTime * 8) - target == (1 - deltaTime * 8) * (x - target))%Q)
    by (unfold lerp; ring).
  split; [exact Hd|]. split; [|split].
  - intros H0 H8.
    split; [|split].
    + rewrite Hd, Qabs_Qmult. rewrite (Qabs_pos (1 - deltaTime * 8)) by lra.
      pose proof (Qabs_nonneg (x - target)). nra.
    + intros Hle. unfold lerp. split; nra.
    + intros Hle. unfold lerp. split; nra.
  - intros Hlt. rewrite Hlane. apply Qltb_lt in Hlt. rewrite Hlt. reflexivity.
  - intros Hge. rewrite Hlane. apply Qltb_ge in Hge. rewrite Hge. reflexivity.
Qed.

Lemma lane_glide_witness :
  let p := Player.moveLane 1 (Player.new 300 640 640) in
  let p' := Player.update 0.016 [150%Q; 300%Q; 450%Q] p in
  (0 <= 0.016)%Q /\ (0.016 * 8 <= 1)%Q /\
  (Qabs (Vector2D.x (Player.position p') - 450) <= Qabs (300 - 450))%Q.
Proof.
  cbv zeta. split; [unfold Qle; simpl; lia|]. split; [unfold Qle; simpl; lia|].
  apply (proj1 (proj2 (lane_glide 0.016 [150%Q; 300%Q; 450%Q]
                         (Player.moveLane 1 (Player.new 300 640 640)))));
    unfold Qle; simpl; lia.
Defined.

Lemma grounded_update deltaTime lanePositions p :
  grounded p -> grounded (Player.update deltaTime lanePositions p).
Proof.
  intros Hg. unfold Player.update. cbv zeta.
  assert (H1 : grounded (Player.updateLane deltaTime lanePositions p)).
  { destruct (updateLane_rest deltaTime lanePositions p) as (Hp & Hv & Hgy & _).
    destruct (updateLane_fields deltaTime lanePositions p) as (_ & _ & Hj & _).
    unfold grounded in *. rewrite Hj, Hp, Hv, Hgy. exact Hg. }
  revert H1. generalize (Player.updateLane deltaTime lanePositions p). clear Hg p.
  intros p Hg.
  assert (H2 : grounded (Player.updateJump deltaTime p)).
  { destruct p as [[px py] [vx vy] cl tl j sl g jh st w h af inv it].
    unfold grounded, Player.updateJump in *. cbn in *.
    destruct j; [|exact Hg]. cbn.
    destruct (Qle_bool g _) eqn:E; cbn.
    - split; [apply Qle_refl | intros _; split; reflexivity].
    - split; [|discriminate].
      apply Qlt_le_weak. apply Qnot_le_lt. intros Hle.
      apply Qle_bool_iff in Hle. congruence. }
  revert H2. generalize (Player.updateJump deltaTime p). clear Hg p.
  intros p Hg.
  assert (H3 : grounded (Player.updateSlide deltaTime p)).
  { destruct (updateSlide_rest deltaTime p) as (Hp & Hv & Hgy & _).
    destruct (updateSlide_fields deltaTime p) as (_ & _ & Hj & _).
    unfold grounded in *. rewrite Hj, Hp, Hv, Hgy. exact Hg. }
  revert H3. generalize (Player.updateSlide deltaTime p). clear Hg p.
  intros p Hg.
  assert (H4 : grounded (Player.updateInvulnerable deltaTime p)).
  { destruct (updateInvulnerable_rest deltaTime p) as (Hp & Hv & Hgy & _).
    destruct (updateInvulnerable_fields deltaTime p) as (_ & _ & Hj & _).
    unfold grounded in *. rewrite Hj, Hp, Hv, Hgy. exact Hg. }
  revert H4. generalize (Player.updateInvulnerable deltaTime p). clear Hg p.
  intros p Hg.
  destruct (set_animationFrame_rest (Player.animationFrame p + deltaTime * 10)%Q p)
    as (Hp & Hv & Hgy & _ & _ & Hj & _).
  unfold grounded in *. rewrite Hj, Hp, Hv, Hgy. exact Hg.
Qed.

Lemma grounded_new x groundY : grounded (Player.new x groundY groundY).
Proof. split; [apply Qle_refl | intros _; split; reflexivity]. Qed.

Lemma grounded_jump p : grounded p -> grounded (Player.jump p).
Proof.
  destruct p as [[px py] [vx vy] cl tl j sl g jh st w h af inv it].
  unfold Player.jump, grounded. player_norm.
  destruct (negb j && negb sl); player_norm; [|exact (fun H => H)].
  intros (H & _). split; [exact H | discriminate].
Qed.

Lemma grounded_slide p : grounded p -> grounded (Player.slide p).
Proof.
  destruct p as [[px py] [vx vy] cl tl j sl g jh st w h af inv it].
  unfold Player.slide, grounded. player_norm.
  destruct (negb j && negb sl); player_norm; exact (fun H => H).
Qed.

Lemma grounded_invulnerability b q p :
  grounded p -> grounded (Player.set_invulnerableTime q (Player.set_invulnerable b p)).
Proof. destruct p. exact (fun H => H). Qed.

Lemma jump_groundY p : Player.groundY (Player.jump p) = Player.groundY p.
Proof. destruct p. unfold Player.jump. destruct (_ && _); reflexivity. Qed.

Lemma slide_groundY p : Player.groundY (Player.slide p) = Player.groundY p.
Proof. destruct p. unfold Player.slide. destruct (_ && _); reflexivity. Qed.

Lemma emit_player_grounded event p s :
  grounded p -> Player.groundY p = GameEngine.groundY s ->
  grounded (GameEngine.player (GameEngine.emit event (GameEngine.set_player p s))) /\
  Player.groundY (GameEngine.player (GameEngine.emit event (GameEngine.set_player p s)))
  = GameEngine.groundY (GameEngine.emit event (GameEngine.set_player p s)).
Proof. destruct s. intros H1 H2. split; [exact H1 | exact H2]. Qed.

(** The player stands relative to the ground line of its engine. *)
Lemma effect_grounded s s' :
  Effect s s' ->
  grounded (GameEngine.player s) /\
    Player.groundY (GameEngine.player s) = GameEngine.groundY s ->
  grounded (GameEngine.player s') /\
    Player.groundY (GameEngine.player s') = GameEngine.groundY s'.
Proof.
  intros [ | x y | | | Hst | Hst | d Hd Hst | Hst | Hst | q | time now] (HP & Hg);
    try (destruct s; split; [exact HP | exact Hg]; fail);
    try (destruct s; split; [exact (grounded_new _ _) | reflexivity]; fail).
  - apply emit_player_grounded; [apply grounded_jump, HP | rewrite jump_groundY; exact Hg].
  - apply emit_player_grounded; [apply grounded_slide, HP | rewrite slide_groundY; exact Hg].
  - destruct (gameLoop_shape time now s) as (lt & fc & ft & ev & dt & E & _).
    cbv zeta in E. rewrite E. clear E.
    set (s1 := GameEngine.set_lastTime lt _).
    assert (H1 : GameEngine.player s1 = GameEngine.player s /\
                 GameEngine.groundY s1 = GameEngine.groundY s)
      by (destruct s; split; reflexivity).
    destruct H1 as (H1 & H2).
    destruct (bool_decide _); [|rewrite H1, H2; split; assumption].
    destruct (update_frame dt now s1) as ((_ & _ & C3 & _) & (b & q & Hpl) & _).
    revert C3 Hpl. generalize (GameEngine.update dt now s1). intros u C3 Hpl.
    rewrite C3, Hpl, H1, H2. split.
    + apply grounded_invulnerability, grounded_update. exact HP.
    + rewrite <- Hg.
      generalize (GameEngine.lanePositions s1) (GameEngine.player s). clear.
      intros lp p.
      unfold Player.update. cbv zeta.
      transitivity (Player.groundY (Player.updateInvulnerable dt (Player.updateSlide dt
        (Player.updateJump dt (Player.updateLane dt lp p)))));
        [destruct (Player.updateInvulnerable _ _); reflexivity|].
      destruct (updateInvulnerable_rest dt (Player.updateSlide dt
        (Player.updateJump dt (Player.updateLane dt lp p)))) as (_ & _ & -> & _).
      destruct (updateSlide_rest dt (Player.updateJump dt (Player.updateLane dt lp p)))
        as (_ & _ & -> & _).
      destruct (updateJump_rest dt (Player.updateLane dt lp p)) as (_ & -> & _).
      destruct (updateLane_rest dt lp p) as (_ & _ & -> & _).
      reflexivity.
Qed.

Lemma reachable_grounded s :
  reachable s ->
  grounded (GameEngine.player s) /\
    Player.groundY (GameEngine.player s) = GameEngine.groundY s.
Proof.
  induction 1 as [canvasHeight width height mobile rnd | s input Hs IH].
  - split; [apply grounded_new | reflexivity].
  - apply (effect_grounded s); [apply step_effect | exact IH].
Qed.

(** X4. The player is never below the ground line of its engine, and whenever
    it is not in a jump it stands exactly on that line with no vertical
    velocity: a landing puts it back on the line and nothing else moves it
    vertically. *)
Theorem player_stays_on_or_above_ground (s : GameEngine.t) (inputs : list Input)
    (Hs : reachable s) :
  let p := GameEngine.player (run inputs s) in
  Player.groundY p = GameEngine.groundY (run inputs s) /\
  (Vector2D.y (Player.position p) <= Player.groundY p)%Q /\
  (Player.isJumping p = false ->
     Vector2D.y (Player.position p) = Player.groundY p /\
     Vector2D.y (Player.velocity p) = 0%Q).
Proof.
  cbv zeta.
  destruct (reachable_grounded (run inputs s) (run_reachable inputs s Hs)) as ((H1 & H2) & H3).
  split; [exact H3|]. split; [exact H1 | exact H2].
Qed.

Lemma player_stays_on_or_above_ground_witness :
  reachable demoEngine /\
  (Vector2D.y (Player.position (GameEngine.player
      (run [CallStartGame; KeyDown "ArrowUp"; AnimationFrame 16 1000000] demoEngine)))
   <= Player.groundY (GameEngine.player
      (run [CallStartGame; KeyDown "ArrowUp"; AnimationFrame 16 1000000] demoEngine)))%Q.
Proof.
  assert (Hr : reachable demoEngine) by constructor.
  split; [exact Hr|].
  exact (proj1 (proj2 (player_stays_on_or_above_ground demoEngine
    [CallStartGame; KeyDown "ArrowUp"; AnimationFrame 16 1000000] Hr))).
Defined.

(** ** The player's countdowns *)

Lemma updateSlide_exact deltaTime p :
  let p' := Player.updateSlide deltaTime p in
  Player.isSliding p'
  = (if Player.isSliding p
     then negb (Qle_bool (Player.slideTime p - deltaTime * 1000) 0) else false) /\
  Player.slideTime p'
  = (if Player.isSliding p then (Player.slideTime p - deltaTime * 1000)%Q
     else Player.slideTime p).
Proof.
  destruct p as [[px py] [vx vy] cl tl j sl g jh st w h af inv it].
  unfold Player.updateSlide. player_norm.
  destruct sl; [destruct (Qle_bool _ _)|]; player_norm; split; reflexivity.
Qed.

Lemma updateInvulnerable_exact deltaTime p :
  let p' := Player.updateInvulnerable deltaTime p in
  Player.invulnerable p'
  = (if Player.invulnerable p
     then negb (Qle_bool (Player.invulnerableTime p - deltaTime * 1000) 0) else false) /\
  Player.invulnerableTime p'
  = (if Player.invulnerable p then (Player.invulnerableTime p - deltaTime * 1000)%Q
     else Player.invulnerableTime p).
Proof.
  destruct p as [[px py] [vx vy] cl tl j sl g jh st w h af inv it].
  unfold Player.updateInvulnerable. player_norm.
  destruct inv; [destruct (Qle_bool _ _)|]; player_norm; split; reflexivity.
Qed.

(** The two countdowns through one [update]. *)
Lemma Player_update_timers deltaTime lanePositions p :
  let p' := Player.update deltaTime lanePositions p in
  Player.invulnerable p'
  = (if Player.invulnerable p
     then negb (Qle_bool (Player.invulnerableTime p - deltaTime * 1000) 0) else false) /\
  Player.invulnerableTime p'
  = (if Player.invulnerable p then (Player.invulnerableTime p - deltaTime * 1000)%Q
     else Player.invulnerableTime p) /\
  Player.isSliding p'
  = (if Player.isSliding p
     then negb (Qle_bool (Player.slideTime p - deltaTime * 1000) 0) else false) /\
  Player.slideTime p'
  = (if Player.isSliding p then (Player.slideTime p - deltaTime * 1000)%Q
     else Player.slideTime p).
Proof.
  cbv zeta. unfold Player.update. cbv zeta.
  destruct (updateLane_rest deltaTime lanePositions p) as (_ & _ & _ & A1 & A2 & A3 & _).
  destruct (updateLane_fields deltaTime lanePositions p) as (_ & _ & _ & A4).
  set (p1 := Player.updateLane deltaTime lanePositions p) in *.
  destruct (updateJump_rest deltaTime p1) as (_ & _ & B1 & B2 & B3).
  destruct (updateJump_fields deltaTime p1) as (_ & _ & _ & B4).
  set (p2 := Player.updateJump deltaTime p1) in *.
  destruct (updateSlide_rest deltaTime p2) as (_ & _ & _ & C2 & C3).
  destruct (updateSlide_exact deltaTime p2) as (C4 & C1).
  set (p3 := Player.updateSlide deltaTime p2) in *.
  destruct (updateInvulnerable_rest deltaTime p3) as (_ & _ & _ & D1).
  destruct (updateInvulnerable_fields deltaTime p3) as (_ & _ & _ & D4).
  destruct (updateInvulnerable_exact deltaTime p3) as (D2 & D3).
  set (p4 := Player.updateInvulnerable deltaTime p3) in *.
  destruct (set_animationFrame_rest (Player.animationFrame p4 + deltaTime * 10)%Q p4)
    as (_ & _ & _ & _ & _ & _ & E4 & E1 & E2 & E3).
  cbv zeta in *.
  rewrite E1, E2, E3, E4, D1, D2, D3, D4, C1, C2, C3, C4, B1, B2, B3, B4, A1, A2, A3, A4.
  repeat split; reflexivity.
Qed.

Lemma elapsedMs_nonneg deltas :
  Forall (fun deltaTime => (0 <= deltaTime)%Q) deltas -> (0 <= elapsedMs deltas)%Q.
Proof.
  induction 1 as [|deltaTime deltas H _ IH]; cbn [elapsedMs fold_right]; [apply Qle_refl|].
  fold (elapsedMs deltas). lra.
Qed.

Lemma invulnerable_lasts lanePositions deltas : forall p,
  Forall (fun deltaTime => (0 <= deltaTime)%Q) deltas ->
  Player.invulnerable p = true ->
  (elapsedMs deltas < Player.invulnerableTime p)%Q ->
  Player.invulnerable (playerAfter lanePositions deltas p) = true /\
  (Player.invulnerableTime (playerAfter lanePositions deltas p)
   == Player.invulnerableTime p - elapsedMs deltas)%Q.
Proof.
  induction deltas as [|deltaTime deltas IH]; intros p Hpos Hinv Hlt.
  - cbn. split; [exact Hinv|]. ring.
  - apply Forall_cons in Hpos as [H0 Hpos].
    cbn [playerAfter fold_left elapsedMs fold_right] in *.
    fold (elapsedMs deltas) in *. fold (playerAfter lanePositions deltas).
    pose proof (elapsedMs_nonneg deltas Hpos) as Hrest.
    destruct (Player_update_timers deltaTime lanePositions p) as (E1 & E2 & _).
    cbv zeta in E1, E2. rewrite Hinv in E1, E2.
    assert (Hb : Qle_bool (Player.invulnerableTime p - deltaTime * 1000) 0 = false).
    { apply not_true_is_false. intros Hle. apply Qle_bool_iff in Hle. lra. }
    rewrite Hb in E1. cbn [negb] in E1.
    revert E1 E2. generalize (Player.update deltaTime lanePositions p). intros p1 E1 E2.
    destruct (IH p1 Hpos E1) as (I1 & I2); [rewrite E2; lra|].
    split; [exact I1|]. rewrite I2, E2. ring.
Qed.

Lemma sliding_lasts lanePositions deltas : forall p,
  Forall (fun deltaTime => (0 <= deltaTime)%Q) deltas ->
  Player.isSliding p = true ->
  (elapsedMs deltas < Player.slideTime p)%Q ->
  Player.isSliding (playerAfter lanePositions deltas p) = true /\
  (Player.slideTime (playerAfter lanePositions deltas p)
   == Player.slideTime p - elapsedMs deltas)%Q.
Proof.
  induction deltas as [|deltaTime deltas IH]; intros p Hpos Hsl Hlt.
  - cbn. split; [exact Hsl|]. ring.
  - apply Forall_cons in Hpos as [H0 Hpos].
    cbn [playerAfter fold_left elapsedMs fold_right] in *.
    fold (elapsedMs deltas) in *. fold (playerAfter lanePositions deltas).
    pose proof (elapsedMs_nonneg deltas Hpos) as Hrest.
    destruct (Player_update_timers deltaTime lanePositions p) as (_ & _ & E1 & E2).
    cbv zeta in E1, E2. rewrite Hsl in E1, E2.
    assert (Hb : Qle_bool (Player.slideTime p - deltaTime * 1000) 0 = false).
    { apply not_true_is_false. intros Hle. apply Qle_bool_iff in Hle. lra. }
    rewrite Hb in E1. cbn [negb] in E1.
    revert E1 E2. generalize (Player.update deltaTime lanePositions p). intros p1 E1 E2.
    destruct (IH p1 Hpos E1) as (I1 & I2); [rewrite E2; lra|].
    split; [exact I1|]. rewrite I2, E2. ring.
Qed.

(** X5. The invulnerability countdown runs on the delta times of the
    player's updates: an invulnerable player stays invulnerable through any run
    of updates with non-negative delta times that take less than the time
    left, which they reduce by 1000 per second; the update that brings the
    time left to zero or below ends the invulnerability, and a player that is
    not invulnerable stays so. *)
Theorem invulnerability_countdown (lanePositions : list Q) (deltas : list Q) (p : Player.t)
    (Hdeltas : Forall (fun deltaTime => (0 <= deltaTime)%Q) deltas) :
  let p' := playerAfter lanePositions deltas p in
  (Player.invulnerable p = true ->
   (elapsedMs deltas < Player.invulnerableTime p)%Q ->
     Player.invulnerable p' = true /\
     (Player.invulnerableTime p' == Player.invulnerableTime p - elapsedMs deltas)%Q) /\
  (forall deltaTime,
     (Player.invulnerableTime p <= deltaTime * 1000)%Q ->
     Player.invulnerable (Player.update deltaTime lanePositions p) = false) /\
  (forall deltaTime,
     Player.invulnerable p = false ->
     Player.invulnerable (Player.update deltaTime lanePositions p) = false).
Proof.
  cbv zeta. split; [|split].
  - intros Hinv Hlt. apply invulnerable_lasts; assumption.
  - intros deltaTime Hle.
    destruct (Player_update_timers deltaTime lanePositions p) as (E1 & _).
    cbv zeta in E1. rewrite E1. destruct (Player.invulnerable p); [|reflexivity].
    assert (Hb : Qle_bool (Player.invulnerableTime p - deltaTime * 1000) 0 = true)
      by (apply Qle_bool_iff; lra).
    rewrite Hb. reflexivity.
  - intros deltaTime Hinv.
    destruct (Player_update_timers deltaTime lanePositions p) as (E1 & _).
    cbv zeta in E1. rewrite E1, Hinv. reflexivity.
Qed.

Lemma invulnerability_countdown_witness :
  let p := Player.set_invulnerableTime 2000 (Player.set_invulnerable true (Player.new 300 640 640)) in
  Forall (fun deltaTime => (0 <= deltaTime)%Q) [0.016%Q; 0.016%Q] /\
  Player.invulnerable p = true /\
  (elapsedMs [0.016%Q; 0.016%Q] < Player.invulnerableTime p)%Q /\
  Player.invulnerable (playerAfter [150%Q; 300%Q; 450%Q] [0.016%Q; 0.016%Q] p) = true.
Proof.
  cbv zeta.
  assert (Hd : Forall (fun deltaTime => (0 <= deltaTime)%Q) [0.016%Q; 0.016%Q])
    by (repeat constructor; unfold Qle; simpl; lia).
  split; [exact Hd|]. split; [reflexivity|]. split; [vm_compute; reflexivity|].
  apply (proj1 (invulnerability_countdown [150%Q; 300%Q; 450%Q] [0.016%Q; 0.016%Q]
    (Player.set_invulnerableTime 2000 (Player.set_invulnerable true (Player.new 300 640 640)))
    Hd)); [reflexivity | vm_compute; reflexivity].
Defined.

(** X6. A slide lasts 800 ms of delta time: a slide started on a player at
    rest keeps the player sliding through any run of updates with non-negative
    delta times that take less than 800 ms, and the update that brings the
    slide time to zero or below ends it.  Until then neither [jump] nor
    [slide] has an effect. *)
Theorem slide_lasts_800ms (lanePositions : list Q) (deltas : list Q) (p : Player.t)
    (Hrest : Player.isJumping p = false /\ Player.isSliding p = false)
    (Hdeltas : Forall (fun deltaTime => (0 <= deltaTime)%Q) deltas)
    (Hshort : (elapsedMs deltas < 800)%Q) :
  let p' := playerAfter lanePositions deltas (Player.slide p) in
  Player.isSliding p' = true /\
  (Player.slideTime p' == 800 - elapsedMs deltas)%Q /\
  Player.jump p' = p' /\ Player.slide p' = p' /\
  (forall deltaTime,
     (800 - elapsedMs deltas <= deltaTime * 1000)%Q ->
     Player.isSliding (Player.update deltaTime lanePositions p') = false).
Proof.
  cbv zeta. destruct Hrest as (Hj & Hs).
  assert (H0 : Player.isSliding (Player.slide p) = true /\ Player.slideTime (Player.slide p) = 800%Q).
  { destruct p as [[px py] [vx vy] cl tl j sl g jh st w h af inv it].
    cbn in Hj, Hs. subst j sl. split; reflexivity. }
  destruct H0 as (H1 & H2).
  destruct (sliding_lasts lanePositions deltas (Player.slide p) Hdeltas H1) as (I1 & I2);
    [rewrite H2; exact Hshort|].
  rewrite H2 in I2.
  revert I1 I2. generalize (playerAfter lanePositions deltas (Player.slide p)). intros p' I1 I2.
  split; [exact I1|]. split; [exact I2|]. split; [|split].
  - unfold Player.jump. rewrite I1, andb_false_r. reflexivity.
  - unfold Player.slide. rewrite I1, andb_false_r. reflexivity.
  - intros deltaTime Hle.
    destruct (Player_update_timers deltaTime lanePositions p') as (_ & _ & E1 & _).
    cbv zeta in E1. rewrite E1, I1.
    assert (Hb : Qle_bool (Player.slideTime p' - deltaTime * 1000) 0 = true)
      by (apply Qle_bool_iff; lra).
    rewrite Hb. reflexivity.
Qed.

Lemma slide_lasts_800ms_witness :
  let p := Player.new 300 640 640 in
  (Player.isJumping p = false /\ Player.isSliding p = false) /\
  Forall (fun deltaTime => (0 <= deltaTime)%Q) [0.016%Q; 0.016%Q] /\
  (elapsedMs [0.016%Q; 0.016%Q] < 800)%Q /\
  Player.isSliding (playerAfter [150%Q; 300%Q; 450%Q] [0.016%Q; 0.016%Q] (Player.slide p)) = true.
Proof.
  cbv zeta.
  assert (Hr : Player.isJumping (Player.new 300 640 640) = false /\
               Player.isSliding (Player.new 300 640 640) = false) by (split; reflexivity).
  assert (Hd : Forall (fun deltaTime => (0 <= deltaTime)%Q) [0.016%Q; 0.016%Q])
    by (repeat constructor; unfold Qle; simpl; lia).
  assert (Hs : (elapsedMs [0.016%Q; 0.016%Q] < 800)%Q) by (vm_compute; reflexivity).
  split; [exact Hr|]. split; [exact Hd|]. split; [exact Hs|].
  exact (proj1 (slide_lasts_800ms [150%Q; 300%Q; 450%Q] [0.016%Q; 0.016%Q]
                  (Player.new 300 640 640) Hr Hd Hs)).
Defined.

(** ** Particles *)

Lemma burst_S mathRandom position color k count :
  burst mathRandom position color k (S count)
  = particleFrom position color (mathRandom k) (mathRandom (S k))
    :: burst mathRandom position color (S (S k)) count.
Proof.
  unfold burst. cbn [seq List.map]. rewrite Nat.mul_0_r, Nat.add_0_r. f_equal.
  rewrite <- seq_shift, List.map_map. apply List.map_ext. intros i.
  replace (k + 2 * S i)%nat with (S (S k) + 2 * i)%nat by lia. reflexivity.
Qed.

Lemma createParticles_spec count : forall position color this,
  GameEngine.createParticles position color count this
  = GameEngine.set_particles
      (GameEngine.particles this
       ++ burst (GameEngine.mathRandom this) position color (GameEngine.randomCalls this) count)
      (GameEngine.set_randomCalls (GameEngine.randomCalls this + 2 * count)%nat this).
Proof.
  induction count as [|count IH]; intros position color this.
  - destruct this. cbn [GameEngine.createParticles burst seq List.map]. GameEngine.engine_norm.
    rewrite app_nil_r, Nat.add_0_r. reflexivity.
  - cbn [GameEngine.createParticles GameEngine.Math_random]. rewrite IH, burst_S.
    destruct this. GameEngine.engine_norm. rewrite <- app_assoc. cbn [app].
    unfold particleFrom.
    replace (S (S randomCalls) + 2 * count)%nat with (randomCalls + 2 * S count)%nat by lia.
    reflexivity.
Qed.

(** X7. [createParticles] appends exactly [count] particles and consumes two
    draws for each, changing nothing else; every new particle starts at the
    given position with the given colour and a life of 1000 ms, and for draws
    in [[0, 1)] its velocity is in [[-100, 100)] horizontally and in
    [(-200, -100]] vertically, that is, upwards. *)
Theorem createParticles_burst (position : Vector2D.t) (color : string) (count : nat)
    (s : GameEngine.t) (Hdraws : validDraws s) :
  let new := burst (GameEngine.mathRandom s) position color (GameEngine.randomCalls s) count in
  GameEngine.createParticles position color count s
  = GameEngine.set_particles (GameEngine.particles s ++ new)
      (GameEngine.set_randomCalls (GameEngine.randomCalls s + 2 * count)%nat s) /\
  length new = count /\
  Forall (fun particle =>
            Particle.position particle = position /\ Particle.color particle = color /\
            Particle.life particle = 1000%Q /\ Particle.maxLife particle = 1000%Q /\
            (-100 <= Vector2D.x (Particle.velocity particle))%Q /\
            (Vector2D.x (Particle.velocity particle) < 100)%Q /\
            (-200 < Vector2D.y (Particle.velocity particle))%Q /\
            (Vector2D.y (Particle.velocity particle) <= -100)%Q) new.
Proof.
  cbv zeta. split; [apply createParticles_spec|]. split.
  - unfold burst. rewrite List.length_map. apply length_seq.
  - unfold burst. apply List.Forall_forall. intros particle Hin.
    apply List.in_map_iff in Hin as (i & <- & _).
    destruct (Hdraws (GameEngine.randomCalls s + 2 * i)%nat) as (H1 & H2).
    destruct (Hdraws (S (GameEngine.randomCalls s + 2 * i))) as (H3 & H4).
    revert H1 H2 H3 H4.
    generalize (GameEngine.mathRandom s (GameEngine.randomCalls s + 2 * i)%nat).
    generalize (GameEngine.mathRandom s (S (GameEngine.randomCalls s + 2 * i))).
    intros r2 r1 H1 H2 H3 H4.
    unfold particleFrom, Particle.new, random.
    cbn [Particle.position Particle.color Particle.life Particle.maxLife Particle.velocity
         Vector2D.x Vector2D.y].
    repeat split; try reflexivity; lra.
Qed.

Lemma createParticles_burst_witness :
  validDraws demoSession /\
  length (GameEngine.particles
            (GameEngine.createParticles (Vector2D.mk 300 640) "#FFD700" 5 demoSession)) = 5%nat.
Proof.
  assert (Hd : validDraws demoSession).
  { intros i. split; [unfold Qle | unfold Qlt]; simpl; lia. }
  split; [exact Hd|].
  rewrite (proj1 (createParticles_burst (Vector2D.mk 300 640) "#FFD700" 5 demoSession Hd)).
  reflexivity.
Defined.

(** ** Pickups *)

Section Pickups.
Import GameEngine.

Lemma burst_length rnd position color k count :
  length (burst rnd position color k count) = count.
Proof. unfold burst. rewrite List.length_map. apply length_seq. Qed.

(** The state in which a loop of [checkCollisions] goes on after a pickup. *)
Lemma createParticles_fields position color count s :
  let s1 := createParticles position color count s in
  events s1 = events s /\ score s1 = score s /\
  activePowerUps s1 = activePowerUps s /\ player s1 = player s /\
  randomCalls s1 = (randomCalls s + 2 * count)%nat /\
  length (particles s1) = (length (particles s) + count)%nat.
Proof.
  cbv zeta. rewrite createParticles_spec. destruct s. engine_norm.
  rewrite length_app, burst_length. repeat split; reflexivity.
Qed.

Lemma collectCoins_spec playerHitbox cs : forall s,
  let k := length (List.filter (picksCoin playerHitbox) cs) in
  let r := snd (collectCoins playerHitbox cs s) in
  fst (collectCoins playerHitbox cs s)
  = List.map (fun c => if picksCoin playerHitbox c then Coin.set_collected true c else c) cs /\
  events r = events s ++ repeat (PlaySound "coin") k /\
  (score r == score s + 10 * inject_Z (Z.of_nat k))%Q /\
  randomCalls r = (randomCalls s + 10 * k)%nat /\
  length (particles r) = (length (particles s) + 5 * k)%nat.
Proof.
  induction cs as [|coin rest IH]; intros s.
  - cbn. rewrite app_nil_r, !Nat.add_0_r. repeat split; try reflexivity. ring.
  - cbn [collectCoins List.filter List.map]. fold (picksCoin playerHitbox coin).
    destruct (picksCoin playerHitbox coin).
    + match goal with |- context [collectCoins playerHitbox rest ?s1] =>
        destruct (IH s1) as (I1 & I2 & I3 & I4 & I5);
        match s1 with createParticles ?p ?c ?n ?s0 =>
          destruct (createParticles_fields p c n s0) as (F1 & F2 & _ & _ & F5 & F6) end;
        cbv zeta in F1, F2, F5, F6; rewrite F1 in I2; rewrite F2 in I3; rewrite F5 in I4;
        rewrite F6 in I5;
        destruct (collectCoins playerHitbox rest s1) as [rest' s'] end.
      cbn [fst snd length repeat] in *.
      assert (E1 : events (emit (PlaySound "coin") (set_score (score s + 10) s))
                   = events s ++ [PlaySound "coin"]) by (destruct s; reflexivity).
      assert (E2 : score (emit (PlaySound "coin") (set_score (score s + 10) s))
                   = (score s + 10)%Q) by (destruct s; reflexivity).
      assert (E3 : randomCalls (emit (PlaySound "coin") (set_score (score s + 10) s))
                   = randomCalls s) by (destruct s; reflexivity).
      assert (E4 : particles (emit (PlaySound "coin") (set_score (score s + 10) s))
                   = particles s) by (destruct s; reflexivity).
      rewrite E1 in I2. rewrite E2 in I3. rewrite E3 in I4. rewrite E4 in I5.
      split; [rewrite I1; reflexivity|].
      split; [rewrite I2, <- app_assoc; reflexivity|].
      split; [rewrite I3, Nat2Z.inj_succ; unfold Z.succ; rewrite inject_Z_plus; ring|].
      split; lia.
    + destruct (IH s) as (I1 & I2 & I3 & I4 & I5).
      destruct (collectCoins playerHitbox rest s) as [rest' s'].
      cbn [fst snd] in *. rewrite I1. repeat split; assumption.
Qed.

Lemma invulnerable_again p :
  Player.set_invulnerableTime 10000 (Player.set_invulnerable true
    (Player.set_invulnerableTime 10000 (Player.set_invulnerable true p)))
  = Player.set_invulnerableTime 10000 (Player.set_invulnerable true p).
Proof. destruct p. reflexivity. Qed.

Lemma activatePowerUp_fields type now s :
  let s1 := activatePowerUp type now s in
  activePowerUps s1 = <[type := now + duration type]> (activePowerUps s) /\
  player s1 = (if bool_decide (type = shield)
               then Player.set_invulnerableTime 10000 (Player.set_invulnerable true (player s))
               else player s) /\
  events s1 = events s /\ score s1 = score s /\ particles s1 = particles s /\
  randomCalls s1 = randomCalls s.
Proof. destruct s, type; repeat split; reflexivity. Qed.

Lemma collectPowerUps_spec playerHitbox now ps : forall s,
  let picked := List.filter (picksPowerUp playerHitbox) ps in
  let r := snd (collectPowerUps playerHitbox now ps s) in
  fst (collectPowerUps playerHitbox now ps s)
  = List.map (fun p => if picksPowerUp playerHitbox p then PowerUp.set_collected true p else p)
             ps /\
  events r = events s ++ repeat (PlaySound "powerup") (length picked) /\
  score r = score s /\
  activePowerUps r = activated now picked (activePowerUps s) /\
  player r = (if existsb isShield picked
              then Player.set_invulnerableTime 10000
                     (Player.set_invulnerable true (player s))
              else player s).
Proof.
  induction ps as [|powerUp rest IH]; intros s.
  - cbn. rewrite app_nil_r. repeat split; reflexivity.
  - cbn [collectPowerUps List.filter List.map]. fold (picksPowerUp playerHitbox powerUp).
    destruct (picksPowerUp playerHitbox powerUp).
    + match goal with |- context [collectPowerUps playerHitbox now rest ?s1] =>
        destruct (IH s1) as (I1 & I2 & I3 & I4 & I5);
        match s1 with createParticles ?p ?c ?n ?s0 =>
          destruct (createParticles_fields p c n s0) as (F1 & F2 & F3 & F4 & _) end;
        cbv zeta in F1, F2, F3, F4; rewrite F1 in I2; rewrite F2 in I3; rewrite F3 in I4;
        rewrite F4 in I5;
        destruct (collectPowerUps playerHitbox now rest s1) as [rest' s'] end.
      cbn [fst snd length repeat existsb activated fold_left] in *.
      destruct (activatePowerUp_fields (PowerUp.type (PowerUp.set_collected true powerUp)) now s)
        as (A1 & A2 & A3 & A4 & _).
      cbv zeta in A1, A2, A3, A4.
      set (a := activatePowerUp (PowerUp.type (PowerUp.set_collected true powerUp)) now s) in *.
      assert (E1 : events (emit (PlaySound "powerup") a) = events a ++ [PlaySound "powerup"])
        by (destruct a; reflexivity).
      assert (E2 : score (emit (PlaySound "powerup") a) = score a) by (destruct a; reflexivity).
      assert (E3 : activePowerUps (emit (PlaySound "powerup") a) = activePowerUps a)
        by (destruct a; reflexivity).
      assert (E4 : player (emit (PlaySound "powerup") a) = player a) by (destruct a; reflexivity).
      rewrite E1, A3 in I2. rewrite E2, A4 in I3. rewrite E3, A1 in I4. rewrite E4, A2 in I5.
      assert (Ety : PowerUp.type (PowerUp.set_collected true powerUp) = PowerUp.type powerUp)
        by (destruct powerUp; reflexivity).
      rewrite Ety in *.
      split; [rewrite I1; reflexivity|].
      split; [rewrite I2, <- app_assoc; reflexivity|].
      split; [exact I3|]. split; [exact I4|].
      rewrite I5. unfold isShield at 2.
      destruct (bool_decide (PowerUp.type powerUp = shield)); cbn [orb]; [|reflexivity].
      destruct (existsb isShield _); [apply invulnerable_again | reflexivity].
    + destruct (IH s) as (I1 & I2 & I3 & I4 & I5).
      destruct (collectPowerUps playerHitbox now rest s) as [rest' s'].
      cbn [fst snd] in *. rewrite I1. repeat split; assumption.
Qed.
End Pickups.

(** Field reads of chains of field updates, leaving other reads folded. *)
Ltac engine_fields :=
  cbn [GameEngine.set_state GameEngine.set_lastTime GameEngine.set_fpsCounter
       GameEngine.set_fpsTime GameEngine.set_player GameEngine.set_obstacles
       GameEngine.set_coins GameEngine.set_powerUps GameEngine.set_particles
       GameEngine.set_gameSpeed GameEngine.set_score GameEngine.set_highScore
       GameEngine.set_lives GameEngine.set_lastObstacleSpawn GameEngine.set_lastCoinSpawn
       GameEngine.set_lastPowerUpSpawn GameEngine.set_obstacleSpawnInterval
       GameEngine.set_activePowerUps GameEngine.set_touchStartX GameEngine.set_touchStartY
       GameEngine.set_randomCalls GameEngine.set_nextUid GameEngine.set_events
       GameEngine.emit GameEngine.setState
       GameEngine.state GameEngine.lastTime GameEngine.fpsCounter GameEngine.fpsTime
       GameEngine.player GameEngine.obstacles GameEngine.coins GameEngine.powerUps
       GameEngine.particles GameEngine.lanePositions GameEngine.gameSpeed
       GameEngine.baseSpeed GameEngine.score GameEngine.highScore GameEngine.lives
       GameEngine.groundY GameEngine.lastObstacleSpawn GameEngine.lastCoinSpawn
       GameEngine.lastPowerUpSpawn GameEngine.obstacleSpawnInterval
       GameEngine.activePowerUps GameEngine.touchStartX GameEngine.touchStartY
       GameEngine.isMobile GameEngine.canvasHeight GameEngine.mathRandom
       GameEngine.randomCalls GameEngine.nextUid GameEngine.events] in *.

Section PickupsOfATick.
Import GameEngine.

Lemma afterPickups_spec now m :
  let playerHitbox := Player.getHitbox (player m) in
  let pickedCoins := List.filter (picksCoin playerHitbox) (coins m) in
  let pickedPowerUps := List.filter (picksPowerUp playerHitbox) (powerUps m) in
  let a := afterPickups now m in
  coins a
  = List.map (fun c => if picksCoin playerHitbox c then Coin.set_collected true c else c)
             (coins m) /\
  powerUps a
  = List.map (fun p => if picksPowerUp playerHitbox p then PowerUp.set_collected true p else p)
             (powerUps m) /\
  events a = events m ++ repeat (PlaySound "coin") (length pickedCoins)
                      ++ repeat (PlaySound "powerup") (length pickedPowerUps) /\
  (score a == score m + 10 * inject_Z (Z.of_nat (length pickedCoins)))%Q /\
  activePowerUps a = activated now pickedPowerUps (activePowerUps m) /\
  player a = (if existsb isShield pickedPowerUps
              then Player.set_invulnerableTime 10000
                     (Player.set_invulnerable true (player m))
              else player m).
Proof.
  cbv zeta. unfold afterPickups.
  set (hb := Player.getHitbox (player m)).
  destruct (collectCoins_spec hb (coins m) m) as (C1 & C2 & C3 & _).
  destruct (collectCoins_shape hb (coins m) m) as (sc & ev & pts & k & E).
  cbv zeta in C1, C2, C3.
  destruct (collectCoins hb (coins m) m) as [c s1]. cbn [fst snd] in *. subst s1.
  engine_fields.
  match goal with |- context [collectPowerUps hb now ?ps ?s] =>
    destruct (collectPowerUps_spec hb now ps s) as (P1 & P2 & P3 & P4 & P5);
    cbv zeta in P1, P2, P3, P4, P5;
    destruct (collectPowerUps_shape hb now ps s) as (a' & pl' & ev' & pts' & k' & E' & _);
    destruct (collectPowerUps hb now ps s) as [p s2] end.
  cbn [fst snd] in *. subst s2. engine_fields.
  split; [exact C1|]. split; [exact P1|].
  split; [rewrite P2, C2, <- app_assoc; reflexivity|].
  split; [exact C3|]. split; [exact P4 | exact P5].
Qed.
End PickupsOfATick.

(** ** One tick, phase by phase *)

Section TickPhases.
Import GameEngine.

Lemma update_phases deltaTime now s :
  update deltaTime now s
  = updateDifficulty deltaTime (checkCollisions now (beforeCollisions deltaTime now s)).
Proof. reflexivity. Qed.

Lemma expirePowerUps_fields now x :
  let m := expirePowerUps now x in
  events m = events x /\ score m = score x /\ lives m = lives x /\ state m = state x /\
  player m = player x /\ obstacles m = obstacles x /\ coins m = coins x /\
  powerUps m = powerUps x /\ highScore m = highScore x /\
  activePowerUps m
  = filter (fun entry : PowerUpType * Z => ~ (now > entry.2)) (activePowerUps x).
Proof. destruct x. repeat split; reflexivity. Qed.

(** What the phases before the collision check leave alone. *)
Lemma beforeCollisions_fields deltaTime now s :
  let m := beforeCollisions deltaTime now s in
  events m = events s /\ score m = score s /\ lives m = lives s /\ state m = state s /\
  player m = Player.update deltaTime (lanePositions s) (player s) /\
  activePowerUps m
  = filter (fun entry : PowerUpType * Z => ~ (now > entry.2)) (activePowerUps s) /\
  canvasHeight m = canvasHeight s.
Proof.
  cbv zeta. unfold beforeCollisions.
  set (t := set_player (Player.update deltaTime (lanePositions s) (player s)) s).
  assert (Ht : events t = events s /\ score t = score s /\ lives t = lives s /\
               state t = state s /\
               player t = Player.update deltaTime (lanePositions s) (player s) /\
               activePowerUps t = activePowerUps s /\ canvasHeight t = canvasHeight s)
    by (destruct s; repeat split; reflexivity).
  clearbody t. destruct Ht as (T1 & T2 & T3 & T4 & T5 & T6 & T7).
  pose proof (sameSession_trans _ _ _ (spawnGates_session now t)
                (advanceEntities_session deltaTime (spawnGates now t))) as Hs.
  revert Hs. generalize (advanceEntities deltaTime (spawnGates now t)). intros a Hs.
  destruct Hs as ((_ & _ & _ & _ & Hc & _) & S1 & S2 & S3 & S4 & S5 & S6 & _).
  destruct (expirePowerUps_fields now a) as (E1 & E2 & E3 & E4 & E5 & _ & _ & _ & _ & E6).
  cbv zeta in *.
  rewrite E1, E2, E3, E4, E5, E6, S1, S2, S3, S4, S5, S6.
  repeat split; try assumption.
  - rewrite T6. reflexivity.
  - destruct a; cbn in *. congruence.
Qed.

Lemma hitOutcome_rest pts k a :
  score (hitOutcome pts k a) = score a /\
  activePowerUps (hitOutcome pts k a) = activePowerUps a /\
  highScore (hitOutcome pts k a) = highScore a.
Proof. unfold hitOutcome. destruct (_ <=? _); destruct a; repeat split; reflexivity. Qed.

(** The obstacle block either leaves the state as the pickups left it or
    applies one unshielded hit. *)
Lemma checkCollisions_cases now m :
  let a := afterPickups now m in
  let playerHitbox := Player.getHitbox (player m) in
  (checkCollisions now m = a /\
   (Player.invulnerable (player a) = true \/ overlapsObstacle playerHitbox a = false \/
    has shield a = true)) \/
  (exists pts k,
     checkCollisions now m = hitOutcome pts k a /\
     Player.invulnerable (player a) = false /\ overlapsObstacle playerHitbox a = true /\
     has shield a = false).
Proof.
  cbv zeta. unfold checkCollisions. rewrite checkObstacles_cases.
  generalize (afterPickups now m). intros a.
  destruct (Player.invulnerable (player a)); cbn [negb andb]; [left; auto|].
  destruct (overlapsObstacle _ a); [|left; auto].
  destruct (has shield a) eqn:Hsh.
  - left. split; [apply handlePlayerHit_shield, Hsh | auto].
  - right. destruct (handlePlayerHit_hit a Hsh) as (pts & k & E).
    exists pts, k. auto.
Qed.

Lemma updateDifficulty_rest deltaTime c :
  let s' := updateDifficulty deltaTime c in
  events s' = events c ++ [ScoreChange (Qfloor (score s'))] /\
  score s' = (score c + deltaTime * 10)%Q /\
  lives s' = lives c /\ state s' = state c /\ player s' = player c /\
  activePowerUps s' = activePowerUps c /\ highScore s' = highScore c /\
  obstacles s' = obstacles c /\ coins s' = coins c /\ powerUps s' = powerUps c /\
  canvasHeight s' = canvasHeight c.
Proof. destruct c. repeat split; reflexivity. Qed.
End TickPhases.

Section TickSpec.
Import GameEngine.

(** One tick in terms of what it picks up and whether the player is hit. *)
Lemma update_spec deltaTime now s :
  let a := afterPickups now (beforeCollisions deltaTime now s) in
  let s' := update deltaTime now s in
  let picked := powerUpsPicked deltaTime now s in
  let kc := length (coinsPicked deltaTime now s) in
  exists hitEvents,
    events s' = events s ++ repeat (PlaySound "coin") kc
                ++ repeat (PlaySound "powerup") (length picked)
                ++ hitEvents ++ [ScoreChange (Qfloor (score s'))] /\
    (score s' == score s + 10 * inject_Z (Z.of_nat kc) + deltaTime * 10)%Q /\
    activePowerUps s'
    = activated now picked
        (filter (fun entry : PowerUpType * Z => ~ (now > entry.2)) (activePowerUps s)) /\
    player a = (if existsb isShield picked
                then Player.set_invulnerableTime 10000
                       (Player.set_invulnerable true
                          (Player.update deltaTime (lanePositions s) (player s)))
                else Player.update deltaTime (lanePositions s) (player s)) /\
    ((hitEvents = [] /\ lives s' = lives s /\ state s' = state s /\ player s' = player a /\
      (Player.invulnerable (player a) = true \/
       overlapsObstacle (Player.getHitbox (Player.update deltaTime (lanePositions s) (player s)))
                        a = false \/
       has shield a = true)) \/
     (Player.invulnerable (player a) = false /\ has shield a = false /\
      lives s' = lives s - 1 /\
      Player.invulnerable (player s') = true /\
      Player.invulnerableTime (player s') = 2000%Q /\
      ((hitEvents = [PlaySound "hit"] /\ 0 < lives s - 1 /\ state s' = state s) \/
       (hitEvents = [PlaySound "hit"; StateChange gameOver; PlaySound "gameover"] /\
        lives s - 1 <= 0 /\ state s' = gameOver)))).
Proof.
  cbv zeta. rewrite update_phases. unfold coinsPicked, powerUpsPicked. cbv zeta.
  pose proof (beforeCollisions_fields deltaTime now s) as M.
  pose proof (afterPickups_spec now (beforeCollisions deltaTime now s)) as A.
  pose proof (afterPickups_frame now (beforeCollisions deltaTime now s)) as A'.
  pose proof (checkCollisions_cases now (beforeCollisions deltaTime now s)) as C.
  pose proof (updateDifficulty_rest deltaTime
                (checkCollisions now (beforeCollisions deltaTime now s))) as D.
  cbv zeta in M, A, A', C, D.
  set (m := beforeCollisions deltaTime now s) in *. clearbody m.
  set (a := afterPickups now m) in *. clearbody a.
  set (c := checkCollisions now m) in *. clearbody c.
  set (s' := updateDifficulty deltaTime c) in *. clearbody s'.
  destruct M as (M1 & M2 & M3 & M4 & M5 & M6 & _).
  destruct A as (_ & _ & A3 & A4 & A5 & A6).
  destruct A' as (_ & _ & A7 & A8 & _).
  destruct D as (D1 & D2 & D3 & D4 & D5 & D6 & _).
  rewrite M5 in *. rewrite M6 in A5. rewrite M1 in A3. rewrite M2 in A4.
  rewrite M3 in A7. rewrite M4 in A8.
  set (kc := length (List.filter _ (coins m))) in *.
  set (picked := List.filter _ (powerUps m)) in *.
  destruct C as [(-> & Hwhy) | (pts & k & -> & Hinv & Hov & Hsh)].
  - exists []. split; [rewrite D1, A3, <- !app_assoc; reflexivity|].
    split; [rewrite D2, A4; reflexivity|]. split; [rewrite D6; exact A5|].
    split; [exact A6|]. left. split; [reflexivity|].
    split; [rewrite D3; exact A7|]. split; [rewrite D4; exact A8|].
    split; [exact D5 | exact Hwhy].
  - destruct (hitOutcome_fields pts k a) as (H1 & H2 & H3 & _ & H5 & H6).
    destruct (hitOutcome_rest pts k a) as (H7 & H8 & _).
    exists (if lives s - 1 <=? 0
            then [PlaySound "hit"; StateChange gameOver; PlaySound "gameover"]
            else [PlaySound "hit"]).
    split; [rewrite D1, H6, A3, A7, <- !app_assoc; reflexivity|].
    split; [rewrite D2, H7, A4; reflexivity|]. split; [rewrite D6, H8; exact A5|].
    split; [exact A6|].
    right. split; [exact Hinv|]. split; [exact Hsh|].
    split; [rewrite D3, H1, A7; reflexivity|].
    split; [rewrite D5; exact H2|]. split; [rewrite D5; exact H3|].
    rewrite D4, H5, A7, A8.
    destruct (lives s - 1 <=? 0) eqn:E.
    + right. apply Z.leb_le in E. auto.
    + left. apply Z.leb_gt in E. auto.
Qed.
End TickSpec.

(** ** What one tick tells, scores and activates *)

(** X8. The observer calls of one tick come in a fixed order: one coin sound
    per coin picked up, one power-up sound per power-up picked up, then the
    sounds of the hit if the player is hit (with the game-over notification
    and sound when that hit takes the last life), and last exactly one score
    notification, carrying the floor of the new score. *)
Theorem tick_event_order (deltaTime : Q) (now : Z) (s : GameEngine.t) :
  let s' := GameEngine.update deltaTime now s in
  exists hitEvents,
    GameEngine.events s'
    = GameEngine.events s
      ++ repeat (PlaySound "coin") (length (coinsPicked deltaTime now s))
      ++ repeat (PlaySound "powerup") (length (powerUpsPicked deltaTime now s))
      ++ hitEvents ++ [ScoreChange (Qfloor (GameEngine.score s'))] /\
    ((hitEvents = [] /\ GameEngine.lives s' = GameEngine.lives s /\
      GameEngine.state s' = GameEngine.state s) \/
     (hitEvents = [PlaySound "hit"] /\ GameEngine.lives s' = GameEngine.lives s - 1 /\
      0 < GameEngine.lives s' /\ GameEngine.state s' = GameEngine.state s) \/
     (hitEvents = [PlaySound "hit"; StateChange gameOver; PlaySound "gameover"] /\
      GameEngine.lives s' = GameEngine.lives s - 1 /\ GameEngine.lives s' <= 0 /\
      GameEngine.state s' = gameOver)).
Proof.
  cbv zeta.
  destruct (update_spec deltaTime now s) as (hitEvents & E & _ & _ & _ & H).
  cbv zeta in E, H. exists hitEvents. split; [exact E|].
  revert H. generalize (GameEngine.update deltaTime now s). intros s' H.
  destruct H as [(-> & Hl & Hs & _) | (_ & _ & Hl & _ & _ & [(-> & Hp & Hs) | (-> & Hp & Hs)])].
  - left. auto.
  - right. left. repeat split; [exact Hl | lia | exact Hs].
  - right. right. repeat split; [exact Hl | lia | exact Hs].
Qed.

(** X9. One tick adds to the score 10 for every coin it picks up and 10 per
    second of its delta time; so the score never decreases in a tick whose
    delta time is not negative.  A coin already flagged as collected is not
    picked up again. *)
Theorem tick_score (deltaTime : Q) (now : Z) (s : GameEngine.t) :
  (GameEngine.score (GameEngine.update deltaTime now s)
   == GameEngine.score s + 10 * inject_Z (Z.of_nat (length (coinsPicked deltaTime now s)))
      + deltaTime * 10)%Q /\
  ((0 <= deltaTime)%Q ->
     (GameEngine.score s <= GameEngine.score (GameEngine.update deltaTime now s))%Q) /\
  Forall (fun c => Coin.collected c = false) (coinsPicked deltaTime now s).
Proof.
  destruct (update_spec deltaTime now s) as (hitEvents & _ & E & _).
  cbv zeta in E. split; [exact E|]. split.
  - intros Hdt. rewrite E.
    assert (H : (0 <= inject_Z (Z.of_nat (length (coinsPicked deltaTime now s))))%Q).
    { change 0%Q with (inject_Z 0). rewrite <- Zle_Qle. lia. }
    revert H. generalize (inject_Z (Z.of_nat (length (coinsPicked deltaTime now s)))).
    intros k Hk. nra.
  - unfold coinsPicked. cbv zeta. apply List.Forall_forall. intros c Hin.
    apply List.filter_In in Hin as (_ & Hp). unfold picksCoin in Hp.
    apply andb_true_iff in Hp as (Hp & _). destruct (Coin.collected c); [discriminate|reflexivity].
Qed.

Lemma tick_score_witness :
  (0 <= 0.016)%Q /\
  (GameEngine.score demoCoinAhead
   <= GameEngine.score (GameEngine.update 0.016 1000016 demoCoinAhead))%Q.
Proof.
  assert (H : (0 <= 0.016)%Q) by (unfold Qle; simpl; lia).
  split; [exact H|].
  exact (proj1 (proj2 (tick_score 0.016 1000016 demoCoinAhead)) H).
Defined.

Lemma activated_lookup now picked kind : forall registry,
  activated now picked registry !! kind
  = if existsb (fun p => bool_decide (PowerUp.type p = kind)) picked
    then Some (now + GameEngine.duration kind) else registry !! kind.
Proof.
  induction picked as [|p rest IH]; intros registry; [reflexivity|].
  change (activated now (p :: rest) registry)
    with (activated now rest
            (<[PowerUp.type p := now + GameEngine.duration (PowerUp.type p)]> registry)).
  cbn [existsb]. rewrite IH.
  destruct (bool_decide_reflect (PowerUp.type p = kind)) as [->|Hne]; cbn [orb].
  - rewrite lookup_insert. destruct (existsb _ rest); [reflexivity|].
    destruct (decide (kind = kind)); [reflexivity | congruence].
  - rewrite lookup_insert_ne by exact Hne. reflexivity.
Qed.

(** X10. The effect registry after one tick at wall-clock time [now]: a kind
    picked up in the tick ends [duration] after [now]; any other kind keeps
    its entry unless that entry's end time is before [now], in which case it
    is gone.  So no entry left by a tick has its end time before that tick's
    clock. *)
Theorem effects_after_tick (deltaTime : Q) (now : Z) (s : GameEngine.t) (kind : PowerUpType) :
  let s' := GameEngine.update deltaTime now s in
  GameEngine.activePowerUps s' !! kind
  = (if existsb (fun p => bool_decide (PowerUp.type p = kind)) (powerUpsPicked deltaTime now s)
     then Some (now + GameEngine.duration kind)
     else match GameEngine.activePowerUps s !! kind with
          | Some endTime => if bool_decide (now > endTime) then None else Some endTime
          | None => None
          end) /\
  (forall endTime, GameEngine.activePowerUps s' !! kind = Some endTime -> now <= endTime).
Proof.
  cbv zeta.
  destruct (update_spec deltaTime now s) as (hitEvents & _ & _ & E & _).
  cbv zeta in E.
  assert (H : GameEngine.activePowerUps (GameEngine.update deltaTime now s) !! kind
    = (if existsb (fun p => bool_decide (PowerUp.type p = kind)) (powerUpsPicked deltaTime now s)
       then Some (now + GameEngine.duration kind)
       else match GameEngine.activePowerUps s !! kind with
            | Some endTime => if bool_decide (now > endTime) then None else Some endTime
            | None => None
            end)).
  { rewrite E, activated_lookup. destruct (existsb _ _); [reflexivity|].
    rewrite map_lookup_filter.
    destruct (GameEngine.activePowerUps s !! kind) as [endTime|]; [|reflexivity].
    cbn. destruct (bool_decide_reflect (now > endTime)) as [Hgt|Hle].
    - rewrite option_guard_False; [reflexivity | intros Hn; exact (Hn Hgt)].
    - rewrite option_guard_True; [reflexivity | exact Hle]. }
  split; [exact H|].
  intros endTime Hlook. rewrite H in Hlook.
  destruct (existsb _ _).
  - injection Hlook as <-. destruct kind; cbn; lia.
  - destruct (GameEngine.activePowerUps s !! kind) as [e|]; [|discriminate].
    destruct (bool_decide_reflect (now > e)); [discriminate|].
    injection Hlook as <-. lia.
Qed.

Lemma effects_after_tick_witness :
  GameEngine.activePowerUps (GameEngine.update 0.016 1000016 demoMagnet) !! magnet
    = Some 1008000 /\
  1000016 <= 1008000.
Proof.
  assert (H : GameEngine.activePowerUps (GameEngine.update 0.016 1000016 demoMagnet) !! magnet
              = Some 1008000) by (vm_compute; reflexivity).
  split; [exact H|].
  exact (proj2 (effects_after_tick 0.016 1000016 demoMagnet magnet) 1008000 H).
Defined.

(** X11. Pickups are resolved before obstacles: a tick that picks up a Shield
    costs no life, cannot end the game and plays no hit sound, whatever
    obstacle overlaps the player in it.  It leaves the player invulnerable
    with 10000 ms on the timer and the Shield effect registered until 10000 ms
    after the tick's clock. *)
Theorem shield_pickup_protects (deltaTime : Q) (now : Z) (s : GameEngine.t)
    (Hpicked : existsb isShield (powerUpsPicked deltaTime now s) = true) :
  let s' := GameEngine.update deltaTime now s in
  GameEngine.lives s' = GameEngine.lives s /\
  GameEngine.state s' = GameEngine.state s /\
  Player.invulnerable (GameEngine.player s') = true /\
  Player.invulnerableTime (GameEngine.player s') = 10000%Q /\
  GameEngine.activePowerUps s' !! shield = Some (now + 10000) /\
  exists tail,
    GameEngine.events s' = GameEngine.events s ++ tail /\ ~ In (PlaySound "hit") tail.
Proof.
  cbv zeta.
  destruct (update_spec deltaTime now s) as (hitEvents & E1 & _ & E3 & E4 & H).
  cbv zeta in E1, E3, E4, H. rewrite Hpicked in E4.
  assert (Hlook : GameEngine.activePowerUps (GameEngine.update deltaTime now s) !! shield
                  = Some (now + 10000)).
  { rewrite E3, activated_lookup. unfold isShield in Hpicked. rewrite Hpicked. reflexivity. }
  revert E1 H Hlook. generalize (GameEngine.update deltaTime now s). intros s' E1 H Hlook.
  revert E4 H.
  generalize (GameEngine.afterPickups now (beforeCollisions deltaTime now s)).
  intros a E4 H.
  destruct H as [(-> & Hl & Hs & Hp & _) | (Hinv & _)].
  - rewrite Hp, E4. split; [exact Hl|]. split; [exact Hs|].
    split; [destruct (Player.update _ _ _); reflexivity|].
    split; [destruct (Player.update _ _ _); reflexivity|].
    split; [exact Hlook|].
    eexists. split; [exact E1|]. intros Hin.
    apply in_app_or in Hin as [Hin | Hin]; [apply repeat_spec in Hin; discriminate|].
    apply in_app_or in Hin as [Hin | Hin]; [apply repeat_spec in Hin; discriminate|].
    cbn in Hin. destruct Hin as [Hin | []]. discriminate.
  - rewrite E4 in Hinv. destruct (Player.update _ _ _); discriminate.
Qed.

Lemma shield_pickup_protects_witness :
  existsb isShield (powerUpsPicked 0.016 1000016 demoShieldAhead) = true /\
  GameEngine.lives (GameEngine.update 0.016 1000016 demoShieldAhead)
  = GameEngine.lives demoShieldAhead.
Proof.
  assert (H : existsb isShield (powerUpsPicked 0.016 1000016 demoShieldAhead) = true)
    by (vm_compute; reflexivity).
  split; [exact H|].
  exact (proj1 (shield_pickup_protects 0.016 1000016 demoShieldAhead H)).
Defined.

(** ** Frames *)

Section Bookkeeping.
Import GameEngine.

Lemma sameBookkeeping_refl s : sameBookkeeping s s.
Proof. repeat split. Qed.

Lemma sameBookkeeping_trans s1 s2 s3 :
  sameBookkeeping s1 s2 -> sameBookkeeping s2 s3 -> sameBookkeeping s1 s3.
Proof.
  unfold sameBookkeeping.
  intros (A1 & A2 & A3 & A4 & A5 & A6) (B1 & B2 & B3 & B4 & B5 & B6).
  repeat split; congruence.
Qed.

Lemma sameBookkeeping_if (b : bool) s s1 :
  sameBookkeeping s s1 -> sameBookkeeping s (if b then s1 else s).
Proof. intros H. destruct b; [exact H | apply sameBookkeeping_refl]. Qed.

Lemma spawnGates_bookkeeping currentTime s : sameBookkeeping s (spawnGates currentTime s).
Proof.
  unfold spawnGates. cbv zeta.
  eapply sameBookkeeping_trans; [|apply sameBookkeeping_if].
  eapply sameBookkeeping_trans; [|apply sameBookkeeping_if].
  apply sameBookkeeping_if.
  - destruct (spawnObstacle_shape s) as (o & k & -> & _). destruct s; repeat split; reflexivity.
  - match goal with |- sameBookkeeping ?x _ => generalize x end. intros x.
    rewrite spawnCoin_spec. destruct x; repeat split; reflexivity.
  - match goal with |- sameBookkeeping ?x _ => generalize x end. intros x.
    destruct (spawnPowerUp_shape x) as (o & k & -> & _). destruct x; repeat split; reflexivity.
Qed.

Lemma checkCollisions_bookkeeping now m : sameBookkeeping m (checkCollisions now m).
Proof.
  destruct (checkCollisions_cases now m) as [(-> & _) | (pts & k & -> & _)];
    destruct (afterPickups_shape now m) as (c & p & sc & a & pl & ev & pts' & k' & -> & _).
  - destruct m; repeat split; reflexivity.
  - unfold hitOutcome. destruct m. engine_norm. destruct (_ <=? _); repeat split; reflexivity.
Qed.

Lemma update_bookkeeping deltaTime now s : sameBookkeeping s (update deltaTime now s).
Proof.
  rewrite update_phases. unfold beforeCollisions.
  set (t := set_player (Player.update deltaTime (lanePositions s) (player s)) s).
  assert (Ht : sameBookkeeping s t) by (destruct s; repeat split; reflexivity).
  clearbody t.
  eapply sameBookkeeping_trans; [exact Ht|]. clear Ht.
  eapply sameBookkeeping_trans; [apply (spawnGates_bookkeeping now)|].
  generalize (spawnGates now t). intros g.
  eapply sameBookkeeping_trans;
    [instantiate (1 := advanceEntities deltaTime g); destruct g; repeat split; reflexivity|].
  generalize (advanceEntities deltaTime g). intros a.
  eapply sameBookkeeping_trans;
    [instantiate (1 := expirePowerUps now a); destruct a; repeat split; reflexivity|].
  generalize (expirePowerUps now a). intros m.
  eapply sameBookkeeping_trans; [apply (checkCollisions_bookkeeping now)|].
  generalize (checkCollisions now m). intros c. destruct c; repeat split; reflexivity.
Qed.

(** The frame bookkeeping of [gameLoop], made explicit. *)
Lemma gameLoop_spec time now s :
  let deltaTime := Qmin ((time - lastTime s) / 1000) 0.016 in
  let full := Qle_bool 1 (fpsTime s + deltaTime) in
  let s1 :=
    set_fpsTime (if full then 0%Q else (fpsTime s + deltaTime)%Q)
      (set_fpsCounter (if full then 0 else fpsCounter s + 1)
         (set_events
            (events s ++ if full
                         then [FpsChange (inject_Z (fpsCounter s + 1) / (fpsTime s + deltaTime))]
                         else [])
            (set_lastTime time s))) in
  gameLoop time now s
  = if bool_decide (state s = playing) then update deltaTime now s1 else s1.
Proof.
  cbv zeta. unfold gameLoop. cbv zeta. destruct s. engine_norm.
  destruct (Qle_bool 1 _); engine_norm; rewrite ?app_nil_r; reflexivity.
Qed.
End Bookkeeping.

(** ** The event log of a step *)

Section EventLog.
Import GameEngine.

Lemma announcedStates_app l l' :
  announcedStates (l ++ l') = announcedStates l ++ announcedStates l'.
Proof. apply flat_map_app. Qed.

Lemma reportedFps_app l l' : reportedFps (l ++ l') = reportedFps l ++ reportedFps l'.
Proof. apply flat_map_app. Qed.

Lemma announcedStates_sounds name n : announcedStates (repeat (PlaySound name) n) = [].
Proof. induction n as [|n IH]; [reflexivity | exact IH]. Qed.

Lemma reportedFps_sounds name n : reportedFps (repeat (PlaySound name) n) = [].
Proof. induction n as [|n IH]; [reflexivity | exact IH]. Qed.

(** The log of one tick: no frame rate, and a state announcement exactly when
    the tick ends the game. *)
Lemma update_log deltaTime now s :
  let s' := update deltaTime now s in
  exists tail,
    events s' = events s ++ tail /\ reportedFps tail = [] /\
    ((announcedStates tail = [] /\ state s' = state s /\
      (lives s' = lives s \/ (lives s' = lives s - 1 /\ 0 < lives s - 1))) \/
     (announcedStates tail = [gameOver] /\ state s' = gameOver /\
      lives s' = lives s - 1 /\ lives s - 1 <= 0)).
Proof.
  cbv zeta.
  destruct (update_spec deltaTime now s) as (hitEvents & E & _ & _ & _ & H).
  cbv zeta in E, H. eexists. split; [exact E|].
  rewrite !reportedFps_app, !announcedStates_app, !reportedFps_sounds, !announcedStates_sounds.
  cbn [app].
  revert H. generalize (update deltaTime now s). intros s' H.
  destruct H as [(-> & Hl & Hs & _) | (_ & _ & Hl & _ & _ & [(-> & Hp & Hs) | (-> & Hp & Hs)])].
  - split; [reflexivity|]. left. auto.
  - split; [reflexivity|]. left. auto.
  - split; [reflexivity|]. right. auto.
Qed.

(** What one input does to the state, the life count and the event log. *)
Lemma effect_log s s' :
  Effect s s' ->
  exists tail,
    events s' = events s ++ tail /\
    ((reportedFps tail = [] /\ fpsTime s' = fpsTime s /\ fpsCounter s' = fpsCounter s) \/
     exists time now, s' = gameLoop time now s) /\
    ((announcedStates tail = [] /\ state s' = state s /\
      (lives s' = lives s \/ lives s' = 3 \/
       (state s = playing /\ lives s' = lives s - 1 /\ 0 < lives s - 1))) \/
     (announcedStates tail = [playing] /\ state s' = playing /\ lives s' = 3) \/
     (announcedStates tail = [paused] /\ state s = playing /\ state s' = paused /\
      lives s' = lives s) \/
     (announcedStates tail = [playing] /\ state s = paused /\ state s' = playing /\
      lives s' = lives s) \/
     (announcedStates tail = [gameOver] /\ state s = playing /\ state s' = gameOver /\
      lives s' = lives s - 1 /\ lives s - 1 <= 0)).
Proof.
  intros [ | x y | | | Hst | Hst | d Hd Hst | Hst | Hst | q | time now].
  - exists []. rewrite app_nil_r. split; [reflexivity|]. split; [left|left]; auto.
  - exists []. rewrite app_nil_r. destruct s. split; [reflexivity|]. split; [left|left]; auto.
  - exists [ScoreChange 0; StateChange playing]. destruct s. unfold startGame, resetGame.
    engine_norm. rewrite <- app_assoc. split; [reflexivity|].
    split; [left; auto | right; left; auto].
  - exists [ScoreChange 0]. destruct s. split; [reflexivity|]. split; [left|left]; auto.
  - exists [StateChange paused]. destruct s. cbn in Hst. split; [reflexivity|].
    split; [left; auto | right; right; left; auto].
  - exists [StateChange playing]. destruct s. cbn in Hst. split; [reflexivity|].
    split; [left; auto | right; right; right; left; auto].
  - exists []. rewrite app_nil_r. destruct s. split; [reflexivity|]. split; [left|left]; auto.
  - exists [PlaySound "jump"]. destruct s. split; [reflexivity|]. split; [left|left]; auto.
  - exists [PlaySound "slide"]. destruct s. split; [reflexivity|]. split; [left|left]; auto.
  - exists []. rewrite app_nil_r. destruct s. split; [reflexivity|]. split; [left|left]; auto.
  - pose proof (gameLoop_spec time now s) as E. cbv zeta in E.
    set (deltaTime := Qmin _ _) in E.
    set (fps := if Qle_bool 1 (fpsTime s + deltaTime)
                then [FpsChange (inject_Z (fpsCounter s + 1) / (fpsTime s + deltaTime))]
                else []) in E.
    assert (Hfps : announcedStates fps = [])
      by (unfold fps; destruct (Qle_bool _ _); reflexivity).
    set (s1 := set_fpsTime _ _) in E.
    assert (H1 : events s1 = events s ++ fps /\ state s1 = state s /\ lives s1 = lives s)
      by (destruct s; repeat split; reflexivity).
    clearbody s1 fps. destruct H1 as (H1 & H2 & H3).
    destruct (bool_decide_reflect (state s = playing)) as [Hst|Hst].
    + destruct (update_log deltaTime now s1) as (tail & T1 & _ & T2).
      cbv zeta in T1, T2. rewrite <- E in T1, T2. clear E.
      exists (fps ++ tail). rewrite app_assoc, <- H1, announcedStates_app, Hfps.
      split; [exact T1|]. split; [right; eauto|]. rewrite H2, H3 in T2. cbn [app].
      destruct T2 as [(A1 & A2 & [A3 | (A3 & A4)]) | (A1 & A2 & A3 & A4)].
      * left. auto.
      * left. auto 10.
      * right. right. right. right. auto 10.
    + exists fps. rewrite E. split; [exact H1|]. split; [right; eauto|]. left. auto.
Qed.

Lemma inSync_step s s' : Effect s s' -> inSync s -> inSync s'.
Proof.
  intros He Hs. destruct (effect_log s s' He) as (tail & E & _ & H).
  unfold inSync in *. rewrite E, announcedStates_app.
  destruct H as [(A & St & _) | [(A & St & _) | [(A & _ & St & _) | [(A & _ & St & _)
                | (A & _ & St & _)]]]]; rewrite A, St.
  - rewrite app_nil_r. exact Hs.
  - left. apply last_snoc.
  - left. apply last_snoc.
  - left. apply last_snoc.
  - left. apply last_snoc.
Qed.

Lemma reachable_inSync s : reachable s -> inSync s.
Proof.
  induction 1 as [canvasHeight width height mobile rnd | s input Hs IH].
  - right. split; reflexivity.
  - apply (inSync_step s); [apply step_effect | exact IH].
Qed.
End EventLog.

(** X12. The observer of [onStateChange] always knows the state of the
    engine: in every state reached from a fresh engine the last state
    announced is the current one, and as long as nothing was announced the
    engine is still in the menu.  One input announces at most one state. *)
Theorem state_changes_are_announced (s : GameEngine.t) (input : Input) (Hs : reachable s) :
  inSync s /\
  exists tail,
    GameEngine.events (step s input) = GameEngine.events s ++ tail /\
    ((announcedStates tail = [] /\ GameEngine.state (step s input) = GameEngine.state s) \/
     announcedStates tail = [GameEngine.state (step s input)]).
Proof.
  split; [apply reachable_inSync, Hs|].
  destruct (effect_log s (step s input) (step_effect s input)) as (tail & E & _ & H).
  exists tail. split; [exact E|].
  destruct H as [(A & St & _) | [(A & St & _) | [(A & _ & St & _) | [(A & _ & St & _)
                | (A & _ & St & _)]]]]; rewrite A, St; auto.
Qed.

Lemma state_changes_are_announced_witness :
  reachable demoEngine /\ inSync demoEngine.
Proof.
  assert (Hr : reachable demoEngine) by constructor.
  split; [exact Hr|].
  exact (proj1 (state_changes_are_announced demoEngine CallStartGame Hr)).
Defined.

(** ** The state machine *)

(** X13. The state graph of the engine.  One input leaves the state as it
    is, or starts a session ([playing], with 3 lives), or pauses a playing
    session, or resumes a paused one, or ends a playing session whose life
    count drops to zero or below.  In particular the menu, once left, is never
    entered again. *)
Theorem state_graph (s : GameEngine.t) (input : Input) (inputs : list Input) :
  let s' := step s input in
  (GameEngine.state s' = GameEngine.state s \/
   (GameEngine.state s' = playing /\ GameEngine.lives s' = 3) \/
   (GameEngine.state s = playing /\ GameEngine.state s' = paused /\
    GameEngine.lives s' = GameEngine.lives s) \/
   (GameEngine.state s = paused /\ GameEngine.state s' = playing /\
    GameEngine.lives s' = GameEngine.lives s) \/
   (GameEngine.state s = playing /\ GameEngine.state s' = gameOver /\
    GameEngine.lives s' = GameEngine.lives s - 1 /\ GameEngine.lives s' <= 0)) /\
  (GameEngine.state (run inputs s) = menu -> GameEngine.state s = menu).
Proof.
  assert (Hstep : forall s input,
    GameEngine.state (step s input) = GameEngine.state s \/
    (GameEngine.state (step s input) = playing /\ GameEngine.lives (step s input) = 3) \/
    (GameEngine.state s = playing /\ GameEngine.state (step s input) = paused /\
     GameEngine.lives (step s input) = GameEngine.lives s) \/
    (GameEngine.state s = paused /\ GameEngine.state (step s input) = playing /\
     GameEngine.lives (step s input) = GameEngine.lives s) \/
    (GameEngine.state s = playing /\ GameEngine.state (step s input) = gameOver /\
     GameEngine.lives (step s input) = GameEngine.lives s - 1 /\
     GameEngine.lives (step s input) <= 0)).
  { clear. intros s input.
    destruct (effect_log s (step s input) (step_effect s input)) as (tail & _ & _ & H).
    revert H. generalize (step s input). intros s' H.
    destruct H as [(_ & St & _) | [(_ & St & L) | [(_ & S0 & St & L) | [(_ & S0 & St & L)
                  | (_ & S0 & St & L & L')]]]]; auto 10.
    right. right. right. right. repeat split; [exact S0 | exact St | exact L | lia]. }
  cbv zeta. split; [apply Hstep|].
  revert s. induction inputs as [|i inputs IH]; intros s Hmenu; [exact Hmenu|].
  cbn [run fold_left] in Hmenu. apply IH in Hmenu.
  destruct (Hstep s i) as [E | [(E & _) | [(_ & E & _) | [(_ & E & _) | (_ & E & _)]]]];
    congruence.
Qed.

Lemma state_graph_witness :
  GameEngine.state (run [KeyDown "ArrowLeft"] demoEngine) = menu /\
  GameEngine.state demoEngine = menu.
Proof.
  assert (H : GameEngine.state (run [KeyDown "ArrowLeft"] demoEngine) = menu) by reflexivity.
  split; [exact H|].
  exact (proj2 (state_graph demoEngine Click [KeyDown "ArrowLeft"]) H).
Defined.

Lemma livesInRange_step s s' : Effect s s' -> livesInRange s -> livesInRange s'.
Proof.
  intros He (Hr & Hplay & Hover).
  destruct (effect_log s s' He) as (tail & _ & _ & H).
  unfold livesInRange.
  destruct H as [(_ & St & [L | [L | (S0 & L & L')]]) | [(_ & St & L) | [(_ & S0 & St & L)
                | [(_ & S0 & St & L) | (_ & S0 & St & L & L')]]]]; rewrite ?St, ?L;
    try (assert (1 <= GameEngine.lives s) by (apply Hplay; congruence));
    repeat split; try lia; try discriminate; try congruence; auto.
Qed.

(** X14. In every state reached from a fresh engine the life count is
    between 0 and 3; it is at least 1 unless the session is over, and in a
    session that is over it is 0, or 3 after a [resetGame]. *)
Theorem lives_stay_in_range (s : GameEngine.t) (Hs : reachable s) : livesInRange s.
Proof.
  induction Hs as [canvasHeight width height mobile rnd | s input Hs IH].
  - unfold livesInRange. cbn. repeat split; try lia; discriminate.
  - apply (livesInRange_step s); [apply step_effect | exact IH].
Qed.

Lemma lives_stay_in_range_witness : reachable demoFirstFrame /\ livesInRange demoFirstFrame.
Proof.
  assert (Hr : reachable demoFirstFrame)
    by (apply run_reachable; constructor).
  split; [exact Hr|].
  exact (lives_stay_in_range demoFirstFrame Hr).
Defined.

(** ** The frame counter *)

Section FrameRate.
Import GameEngine.



End FrameRate.



(** ** Frames outside a session *)

Section Idle.
Import GameEngine.

Lemma idle_refl s : idle s s.
Proof.
  unfold idle. repeat split. exists []. rewrite app_nil_r. split; [reflexivity | constructor].
Qed.

Lemma idle_trans s1 s2 s3 : idle s1 s2 -> idle s2 s3 -> idle s1 s3.
Proof.
  unfold idle.
  intros (A1 & A2 & A3 & A4 & A5 & A6 & A7 & ta & A8 & A9)
         (B1 & B2 & B3 & B4 & B5 & B6 & B7 & tb & B8 & B9).
  split; [congruence|]. split; [eapply frozen_trans; eassumption|].
  repeat (split; [congruence|]).
  exists (ta ++ tb). rewrite B8, A8, app_assoc. split; [reflexivity|].
  apply Forall_app. split; assumption.
Qed.

Lemma gameLoop_idle time now s : state s <> playing -> idle s (gameLoop time now s).
Proof.
  intros Hst. rewrite gameLoop_spec. cbv zeta.
  destruct (bool_decide_reflect (state s = playing)) as [H|_]; [contradiction|].
  unfold idle, frozen. destruct s. engine_norm.
  destruct (Qle_bool 1 _);
    (split; [reflexivity|]); (split; [repeat split; reflexivity|]);
    do 5 (split; [reflexivity|]);
    (eexists; split; [reflexivity|]); repeat constructor.
Qed.

Lemma frames_idle frames : forall s,
  Forall isFrame frames -> state s <> playing -> idle s (run frames s).
Proof.
  induction frames as [|input frames IH]; intros s Hf Hst; [apply idle_refl|].
  apply Forall_cons in Hf as [Hi Hf].
  destruct input; try contradiction. cbn [run fold_left step].
  pose proof (gameLoop_idle time now s Hst) as H1.
  eapply idle_trans; [exact H1|]. apply IH; [exact Hf|].
  destruct H1 as (-> & _). exact Hst.
Qed.
End Idle.

(** X16. Outside a session nothing moves: while the engine is in the menu,
    paused or over, animation frames leave the state, the player, the
    entities, the particles, the score, the lives, the spawn stamps and the
    effect registry as they are, consume no random draw, and tell the
    observers nothing but frame rates. *)
Theorem frames_outside_play_change_nothing (s : GameEngine.t) (frames : list Input)
    (Hstate : GameEngine.state s <> playing) (Hframes : Forall isFrame frames) :
  idle s (run frames s).
Proof. apply frames_idle; assumption. Qed.

Lemma frames_outside_play_change_nothing_witness :
  GameEngine.state demoEngine <> playing /\
  Forall isFrame [AnimationFrame 16 1000000; AnimationFrame 32 1000016] /\
  idle demoEngine (run [AnimationFrame 16 1000000; AnimationFrame 32 1000016] demoEngine).
Proof.
  assert (H1 : GameEngine.state demoEngine <> playing) by discriminate.
  assert (H2 : Forall isFrame [AnimationFrame 16 1000000; AnimationFrame 32 1000016])
    by (repeat constructor).
  split; [exact H1|]. split; [exact H2|].
  exact (frames_outside_play_change_nothing demoEngine _ H1 H2).
Defined.

(** X17. [resetGame] alone does not resume play: called on an engine that is
    not playing it clears the session (score 0, 3 lives, no entities, no
    effects, the base speed) but leaves the state as it is, so the frames
    that follow change none of this; only [startGame] puts the engine back
    into [playing]. *)
Theorem reset_does_not_resume (s : GameEngine.t) (frames : list Input)
    (Hstate : GameEngine.state s <> playing) (Hframes : Forall isFrame frames) :
  let s' := run (CallResetGame :: frames) s in
  GameEngine.state s' = GameEngine.state s /\
  GameEngine.score s' = 0%Q /\ GameEngine.lives s' = 3 /\
  GameEngine.obstacles s' = [] /\ GameEngine.coins s' = [] /\ GameEngine.powerUps s' = [] /\
  GameEngine.activePowerUps s' = ∅ /\
  GameEngine.gameSpeed s' = GameEngine.baseSpeed s /\
  GameEngine.state (GameEngine.startGame s) = playing.
Proof.
  cbv zeta. cbn [run fold_left step].
  assert (R : GameEngine.state (GameEngine.resetGame s) = GameEngine.state s /\
              GameEngine.score (GameEngine.resetGame s) = 0%Q /\
              GameEngine.lives (GameEngine.resetGame s) = 3 /\
              GameEngine.obstacles (GameEngine.resetGame s) = [] /\
              GameEngine.coins (GameEngine.resetGame s) = [] /\
              GameEngine.powerUps (GameEngine.resetGame s) = [] /\
              GameEngine.activePowerUps (GameEngine.resetGame s) = ∅ /\
              GameEngine.gameSpeed (GameEngine.resetGame s) = GameEngine.baseSpeed s /\
              GameEngine.state (GameEngine.startGame s) = playing)
    by (destruct s; repeat split; reflexivity).
  destruct R as (R1 & R2 & R3 & R4 & R5 & R6 & R7 & R8 & R9).
  assert (Hst : GameEngine.state (GameEngine.resetGame s) <> playing) by congruence.
  pose proof (frames_idle frames (GameEngine.resetGame s) Hframes Hst) as H.
  change (fold_left step frames (GameEngine.resetGame s))
    with (run frames (GameEngine.resetGame s)).
  revert H. generalize (run frames (GameEngine.resetGame s)). intros s' H.
  destruct H as (I1 & (_ & _ & _ & _ & I2 & _ & I3 & I4 & I5 & I6 & I7) & _ & I8 & _).
  repeat split; congruence.
Qed.

Lemma reset_does_not_resume_witness :
  GameEngine.state demoEngine <> playing /\
  Forall isFrame [AnimationFrame 16 1000000] /\
  GameEngine.state (run [CallResetGame; AnimationFrame 16 1000000] demoEngine)
  = GameEngine.state demoEngine.
Proof.
  assert (H1 : GameEngine.state demoEngine <> playing) by discriminate.
  assert (H2 : Forall isFrame [AnimationFrame 16 1000000]) by (repeat constructor).
  split; [exact H1|]. split; [exact H2|].
  exact (proj1 (reset_does_not_resume demoEngine _ H1 H2)).
Defined.

(** ** What the inputs can reach *)

(** X18. Outside a session the controls do not move the player: when the
    engine is not playing, an input leaves the player as it is, or (a start
    or a reset) replaces it by a fresh player on the middle lane, standing on
    the ground line. *)
Theorem player_moves_only_while_playing (s : GameEngine.t) (input : Input)
    (Hstate : GameEngine.state s <> playing) :
  GameEngine.player (step s input) = GameEngine.player s \/
  GameEngine.player (step s input)
  = Player.new (laneAt (GameEngine.lanePositions s) 1) (GameEngine.groundY s)
               (GameEngine.groundY s).
Proof.
  pose proof (step_effect s input) as He. revert He. generalize (step s input). intros s' He.
  destruct He as [ | x y | | | Hst | Hst | d Hd Hst | Hst | Hst | q | time now];
    try contradiction;
    try (left; destruct s; reflexivity);
    try (right; destruct s; reflexivity).
  left. destruct (gameLoop_idle time now s Hstate) as (_ & (_ & _ & _ & _ & _ & H & _) & _).
  exact H.
Qed.

Lemma player_moves_only_while_playing_witness :
  GameEngine.state demoEngine <> playing /\
  (GameEngine.player (step demoEngine (KeyDown "ArrowLeft")) = GameEngine.player demoEngine \/
   GameEngine.player (step demoEngine (KeyDown "ArrowLeft"))
   = Player.new (laneAt (GameEngine.lanePositions demoEngine) 1) (GameEngine.groundY demoEngine)
                (GameEngine.groundY demoEngine)).
Proof.
  assert (H : GameEngine.state demoEngine <> playing) by discriminate.
  split; [exact H|].
  exact (player_moves_only_while_playing demoEngine (KeyDown "ArrowLeft") H).
Defined.

Section HighScore.
Import GameEngine.

Lemma startGame_highScore s : highScore (startGame s) = highScore s.
Proof. destruct s; reflexivity. Qed.

Lemma onTouchEnd_highScore x y s : highScore (onTouchEnd x y s) = highScore s.
Proof.
  unfold onTouchEnd. cbv zeta.
  repeat match goal with |- context [if ?b then _ else _] => destruct b end;
    first [apply startGame_highScore | destruct s; reflexivity].
Qed.

Lemma onKeyDown_highScore code s : highScore (onKeyDown code s) = highScore s.
Proof.
  unfold onKeyDown, pauseGame, resumeGame.
  repeat match goal with |- context [if ?b then _ else _] => destruct b end;
    first [apply startGame_highScore | destruct s; reflexivity].
Qed.

Lemma gameLoop_highScore time now s : highScore (gameLoop time now s) = highScore s.
Proof.
  rewrite gameLoop_spec. cbv zeta.
  match goal with |- context [update ?dt now ?s1] =>
    destruct (update_bookkeeping dt now s1) as (_ & _ & _ & H & _);
    assert (H1 : highScore s1 = highScore s) by (destruct s; reflexivity);
    revert H H1; generalize (update dt now s1); generalize s1 end.
  intros s1 u H H1. destruct (bool_decide _); congruence.
Qed.
End HighScore.

(** X19. The engine never writes the high score on its own: whatever the
    score reaches, no listener, no frame and no other method changes
    [highScore]; only a call of [setHighScore] does, and it stores its
    argument as it is, be it lower than the value before. *)
Theorem only_setHighScore_writes_highScore (s : GameEngine.t) (input : Input) :
  match input with
  | CallSetHighScore score => GameEngine.highScore (step s input) = score
  | _ => GameEngine.highScore (step s input) = GameEngine.highScore s
  end.
Proof.
  destruct input; cbn [step].
  - destruct (GameEngine.isMobile s); destruct s; reflexivity.
  - destruct (GameEngine.isMobile s); [apply onTouchEnd_highScore | reflexivity].
  - destruct (GameEngine.isMobile s); [reflexivity | apply onKeyDown_highScore].
  - unfold GameEngine.onClick. destruct (_ || _); [apply startGame_highScore | reflexivity].
  - apply gameLoop_highScore.
  - apply startGame_highScore.
  - unfold GameEngine.pauseGame. destruct (bool_decide _); destruct s; reflexivity.
  - unfold GameEngine.resumeGame. destruct (bool_decide _); destruct s; reflexivity.
  - destruct s; reflexivity.
  - destruct s; reflexivity.
  - apply gameLoop_highScore.
Qed.

(** ** The entities on the track *)

Section Entities.
Import GameEngine.

(** The three lists after one tick, from the lists the spawn gates leave. *)
Lemma update_entities deltaTime now s :
  let g := spawnGates now (set_player (Player.update deltaTime (lanePositions s) (player s)) s) in
  let s' := update deltaTime now s in
  obstacles s'
  = List.filter (obstacleStays (canvasHeight s))
      (List.map (Obstacle.update deltaTime (gameSpeed g)) (obstacles g)) /\
  (exists playerHitbox,
     coins s'
     = List.map (fun c => if picksCoin playerHitbox c then Coin.set_collected true c else c)
         (List.filter (coinStays (canvasHeight s))
            (List.map (Coin.update deltaTime (gameSpeed g) (Player.position (player g))
                                   (has magnet g))
                      (coins g)))) /\
  (exists playerHitbox,
     powerUps s'
     = List.map (fun p => if picksPowerUp playerHitbox p then PowerUp.set_collected true p
                          else p)
         (List.filter (powerUpStays (canvasHeight s))
            (List.map (PowerUp.update deltaTime (gameSpeed g)) (powerUps g)))).
Proof.
  cbv zeta. rewrite update_phases. unfold beforeCollisions.
  set (t := set_player (Player.update deltaTime (lanePositions s) (player s)) s).
  assert (Hh : canvasHeight (spawnGates now t) = canvasHeight s).
  { destruct (spawnGates_session now t) as ((_ & _ & _ & _ & -> & _) & _).
    unfold t. destruct s; reflexivity. }
  revert Hh. generalize (spawnGates now t). intros g Hh. rewrite <- Hh. clear Hh t.
  assert (A : obstacles (advanceEntities deltaTime g)
              = List.filter (obstacleStays (canvasHeight g))
                  (List.map (Obstacle.update deltaTime (gameSpeed g)) (obstacles g)) /\
              coins (advanceEntities deltaTime g)
              = List.filter (coinStays (canvasHeight g))
                  (List.map (Coin.update deltaTime (gameSpeed g) (Player.position (player g))
                                         (has magnet g)) (coins g)) /\
              powerUps (advanceEntities deltaTime g)
              = List.filter (powerUpStays (canvasHeight g))
                  (List.map (PowerUp.update deltaTime (gameSpeed g)) (powerUps g)))
    by (destruct g; repeat split; reflexivity).
  destruct A as (A1 & A2 & A3). rewrite <- A1, <- A2, <- A3.
  generalize (advanceEntities deltaTime g). intros a.
  destruct (expirePowerUps_fields now a) as (_ & _ & _ & _ & _ & E1 & E2 & E3 & _).
  cbv zeta in E1, E2, E3. rewrite <- E1, <- E2, <- E3.
  generalize (expirePowerUps now a). intros m.
  destruct (afterPickups_spec now m) as (P1 & P2 & _).
  destruct (afterPickups_frame now m) as (_ & _ & _ & _ & P3).
  cbv zeta in P1, P2. rewrite <- P3.
  assert (C : obstacles (checkCollisions now m) = obstacles (afterPickups now m) /\
              coins (checkCollisions now m) = coins (afterPickups now m) /\
              powerUps (checkCollisions now m) = powerUps (afterPickups now m)).
  { destruct (checkCollisions_cases now m) as [(-> & _) | (pts & k & -> & _)].
    - repeat split.
    - apply hitOutcome_lists. }
  destruct C as (C1 & C2 & C3).
  destruct (updateDifficulty_rest deltaTime (checkCollisions now m))
    as (_ & _ & _ & _ & _ & _ & _ & D1 & D2 & D3 & _).
  cbv zeta in D1, D2, D3. rewrite D1, D2, D3, C1, C2, C3.
  split; [reflexivity|]. split; eexists; eassumption.
Qed.

Lemma laneAt_lookup (lanePositions : list Q) (lane : Z) :
  length lanePositions = 3%nat -> 0 <= lane <= 2 ->
  lanePositions !! Z.to_nat lane = Some (laneAt lanePositions lane).
Proof.
  intros Hlen Hlane. unfold laneAt.
  destruct (lane <? 0) eqn:E; [apply Z.ltb_lt in E; lia|].
  destruct (lookup_lt_is_Some_2 lanePositions (Z.to_nat lane)) as (x & ->); [lia|].
  reflexivity.
Qed.

Lemma spawnObstacle_inv s : spawnInv s -> spawnInv (spawnObstacle s).
Proof.
  intros (Hd & Hl & Ho & Hc & Hp).
  destruct (Hd (randomCalls s)) as (R1 & R2).
  pose proof (laneIndex_range _ R1 R2) as Hlane.
  pose proof (laneAt_lookup (lanePositions s) _ Hl Hlane) as Hx.
  unfold spawnInv, entitiesOk, validDraws, spawnObstacle, Math_random in *.
  destruct s. engine_norm. engine_norm in Hd. engine_norm in Hl. engine_norm in Hx.
  engine_norm in Hlane. engine_norm in Ho. engine_norm in Hc. engine_norm in Hp.
  split; [exact Hd|]. split; [exact Hl|]. split; [|split; assumption].
  apply Forall_app. split; [exact Ho|]. constructor; [|constructor].
  unfold obstacleOk. destruct (obstacleTypeAt _); cbn; auto.
Qed.

Lemma spawnPowerUp_inv s : spawnInv s -> spawnInv (spawnPowerUp s).
Proof.
  intros (Hd & Hl & Ho & Hc & Hp).
  destruct (Hd (randomCalls s)) as (R1 & R2).
  pose proof (laneIndex_range _ R1 R2) as Hlane.
  pose proof (laneAt_lookup (lanePositions s) _ Hl Hlane) as Hx.
  unfold spawnInv, entitiesOk, validDraws, spawnPowerUp, Math_random in *.
  destruct s. engine_norm. engine_norm in Hd. engine_norm in Hl. engine_norm in Hx.
  engine_norm in Hlane. engine_norm in Ho. engine_norm in Hc. engine_norm in Hp.
  split; [exact Hd|]. split; [exact Hl|]. split; [exact Ho|]. split; [exact Hc|].
  apply Forall_app. split; [exact Hp|]. constructor; [|constructor].
  unfold powerUpOk. cbn. auto.
Qed.

Lemma spawnCoin_inv s : spawnInv s -> spawnInv (spawnCoin s).
Proof.
  intros (Hd & Hl & Ho & Hc & Hp).
  assert (Hlane : 0 <= laneIndex (coinBaseDraw s) <= 2).
  { unfold coinBaseDraw. destruct (Hd (if Qltb (coinDraw1 s) 0.3 then S (randomCalls s)
                                       else S (S (randomCalls s)))) as (R1 & R2).
    apply laneIndex_range; assumption. }
  rewrite spawnCoin_spec. cbv zeta.
  revert Hlane. generalize (laneIndex (coinBaseDraw s)) (numCoins (coinDraw1 s) (coinDraw2 s)).
  intros baseLane n Hlane.
  assert (Hnew : Forall coinOk (cluster (lanePositions s) baseLane (nextUid s) n)).
  { unfold cluster. apply List.Forall_forall. intros c Hin.
    apply List.in_map_iff in Hin as (i & <- & _).
    unfold coinOk, clusterCoin, Coin.new. cbn. repeat split; lia. }
  unfold spawnInv, entitiesOk, validDraws in *.
  destruct s. engine_norm. engine_norm in Hd. engine_norm in Hl. engine_norm in Hnew.
  engine_norm in Ho. engine_norm in Hc. engine_norm in Hp.
  split; [exact Hd|]. split; [exact Hl|]. split; [exact Ho|]. split; [|exact Hp].
  apply Forall_app. split; assumption.
Qed.

Lemma set_stamp_inv s :
  spawnInv s ->
  (forall v, spawnInv (set_lastObstacleSpawn v s)) /\
  (forall v, spawnInv (set_lastCoinSpawn v s)) /\
  (forall v, spawnInv (set_lastPowerUpSpawn v s)).
Proof. intros H. destruct s. repeat split; apply H. Qed.

Lemma spawnGates_inv now s : spawnInv s -> spawnInv (spawnGates now s).
Proof.
  intros H0. unfold spawnGates. cbv zeta.
  set (s1 := if _ >? _ then set_lastObstacleSpawn now (spawnObstacle s) else s).
  assert (H1 : spawnInv s1).
  { subst s1. destruct (_ >? _); [|exact H0]. apply set_stamp_inv, spawnObstacle_inv, H0. }
  clearbody s1. clear H0 s.
  set (s2 := if _ >? _ then set_lastCoinSpawn now (spawnCoin s1) else s1).
  assert (H2 : spawnInv s2).
  { subst s2. destruct (_ >? _); [|exact H1]. apply set_stamp_inv, spawnCoin_inv, H1. }
  clearbody s2. clear H1 s1.
  destruct (_ >? _); [|exact H2]. apply set_stamp_inv, spawnPowerUp_inv, H2.
Qed.

Lemma Forall_filter_map {A} (P : A -> Prop) (f : A -> A) (keep : A -> bool) (l : list A) :
  (forall a, P a -> P (f a)) -> Forall P l -> Forall P (List.filter keep (List.map f l)).
Proof.
  intros Hf Hl. apply List.Forall_forall. intros b Hin.
  apply List.filter_In in Hin as (Hin & _). apply List.in_map_iff in Hin as (a & <- & Ha).
  apply Hf. exact (proj1 (List.Forall_forall P l) Hl a Ha).
Qed.

Lemma Forall_map_same {A} (P : A -> Prop) (f : A -> A) (l : list A) :
  (forall a, P a -> P (f a)) -> Forall P l -> Forall P (List.map f l).
Proof.
  intros Hf Hl. apply List.Forall_forall. intros b Hin.
  apply List.in_map_iff in Hin as (a & <- & Ha).
  apply Hf. exact (proj1 (List.Forall_forall P l) Hl a Ha).
Qed.

Lemma coinOk_update deltaTime gameSpeed playerPos magnetActive c :
  coinOk c -> coinOk (Coin.update deltaTime gameSpeed playerPos magnetActive c).
Proof.
  destruct c as [uid pos lane w h col af mt]. unfold coinOk, Coin.update. cbn.
  intros (H1 & H2 & H3 & H4). subst mt.
  destruct (magnetActive && negb col); [destruct (Qltb _ _)|]; cbn; auto.
Qed.

Lemma update_inv deltaTime now s : spawnInv s -> spawnInv (update deltaTime now s).
Proof.
  intros H0.
  destruct (update_frame deltaTime now s) as ((C1 & _ & _ & _ & _ & C6) & _).
  destruct (update_entities deltaTime now s) as (Eo & (hb1 & Ec) & (hb2 & Ep)).
  cbv zeta in Eo, Ec, Ep.
  set (t := set_player (Player.update deltaTime (lanePositions s) (player s)) s) in *.
  assert (Ht : spawnInv t) by (destruct s; exact H0).
  apply (spawnGates_inv now) in Ht.
  assert (Hlp : lanePositions (spawnGates now t) = lanePositions s).
  { destruct (spawnGates_session now t) as ((-> & _) & _). destruct s; reflexivity. }
  revert Eo Ec Ep Ht Hlp. generalize (spawnGates now t). intros g Eo Ec Ep Ht Hlp.
  destruct H0 as (Hd & Hl & _). destruct Ht as (_ & _ & Go & Gc & Gp). rewrite Hlp in Go, Gp.
  revert C1 C6 Eo Ec Ep. generalize (update deltaTime now s). intros s' C1 C6 Eo Ec Ep.
  unfold spawnInv, entitiesOk, validDraws. rewrite C1, C6, Eo, Ec, Ep.
  split; [exact Hd|]. split; [exact Hl|]. split; [|split].
  - apply Forall_filter_map; [|exact Go]. intros o Ho. destruct o; exact Ho.
  - apply Forall_map_same.
    + intros c Hc. destruct (picksCoin hb1 c); [destruct c; exact Hc | exact Hc].
    + apply Forall_filter_map; [|exact Gc]. intros c. apply coinOk_update.
  - apply Forall_map_same.
    + intros p Hp. destruct (picksPowerUp hb2 p); [destruct p; exact Hp | exact Hp].
    + apply Forall_filter_map; [|exact Gp]. intros p Hp. destruct p; exact Hp.
Qed.

Lemma effect_inv s s' : Effect s s' -> spawnInv s -> spawnInv s'.
Proof.
  intros [ | x y | | | Hst | Hst | d Hd Hst | Hst | Hst | q | time now] H0;
    try (destruct s; exact H0);
    try (destruct H0 as (Hd & Hl & _); destruct s; split; [exact Hd|]; split; [exact Hl|];
         repeat split; constructor).
  rewrite gameLoop_spec. cbv zeta.
  match goal with |- context [update ?dt now ?s1] =>
    assert (H1 : spawnInv s1) by (destruct s; exact H0);
    revert H1; generalize s1; generalize dt end.
  intros dt u H1. destruct (bool_decide _); [apply update_inv, H1 | exact H1].
Qed.
End Entities.

(** X20. With a random source that yields draws in [[0, 1)], every obstacle,
    coin and power-up in a state reached from a fresh engine is on one of the
    three lanes.  An obstacle and a power-up sit for life at their lane's
    entry of the lane table horizontally and keep the size their type gave
    them; no coin ever has a magnet target, so every coin moves down the track
    on each tick. *)
Theorem entities_keep_their_lane (s : GameEngine.t) (Hs : reachable s)
    (Hdraws : validDraws s) :
  Forall (obstacleOk (GameEngine.lanePositions s)) (GameEngine.obstacles s) /\
  Forall coinOk (GameEngine.coins s) /\
  Forall (powerUpOk (GameEngine.lanePositions s)) (GameEngine.powerUps s).
Proof.
  assert (H : spawnInv s); [|apply H].
  induction Hs as [canvasHeight width height mobile rnd | s input Hs IH].
  - split; [exact Hdraws|]. split; [reflexivity|]. repeat split; constructor.
  - pose proof (step_effect s input) as He.
    apply (effect_inv s); [exact He|]. apply IH.
    destruct (effect_config _ _ He) as (_ & _ & _ & _ & _ & Hr).
    unfold validDraws in *. rewrite <- Hr. exact Hdraws.
Qed.

Lemma entities_keep_their_lane_witness :
  reachable demoFirstFrame /\ validDraws demoFirstFrame /\
  Forall coinOk (GameEngine.coins demoFirstFrame).
Proof.
  assert (Hr : reachable demoFirstFrame) by (apply run_reachable; constructor).
  assert (Hd : validDraws demoFirstFrame).
  { assert (E : GameEngine.mathRandom demoFirstFrame = fun _ => 1 # 2)
      by (vm_compute; reflexivity).
    intros i. rewrite E. split; [unfold Qle | unfold Qlt]; simpl; lia. }
  split; [exact Hr|]. split; [exact Hd|].
  exact (proj1 (proj2 (entities_keep_their_lane demoFirstFrame Hr Hd))).
Defined.

Section Band.
Import GameEngine.


End Band.



(** ** A jump *)

Lemma updateJump_exact deltaTime p :
  Player.isJumping p = true ->
  let vy := (Vector2D.y (Player.velocity p) + 800 * deltaTime)%Q in
  let y := (Vector2D.y (Player.position p) + vy * deltaTime)%Q in
  let p' := Player.updateJump deltaTime p in
  if Qle_bool (Player.groundY p) y
  then Player.isJumping p' = false /\ Vector2D.y (Player.position p') = Player.groundY p /\
       Vector2D.y (Player.velocity p') = 0%Q
  else Player.isJumping p' = true /\ Vector2D.y (Player.position p') = y /\
       Vector2D.y (Player.velocity p') = vy.
Proof.
  destruct p as [[px py] [vx vy] cl tl j sl g jh st w h af inv it].
  unfold Player.updateJump. player_norm. intros ->.
  destruct (Qle_bool _ _); player_norm; repeat split; reflexivity.
Qed.

(** The vertical motion through one [update] of a jumping player. *)
Lemma Player_update_jump deltaTime lanePositions p :
  Player.isJumping p = true ->
  let vy := (Vector2D.y (Player.velocity p) + 800 * deltaTime)%Q in
  let y := (Vector2D.y (Player.position p) + vy * deltaTime)%Q in
  let p' := Player.update deltaTime lanePositions p in
  Player.groundY p' = Player.groundY p /\
  if Qle_bool (Player.groundY p) y
  then Player.isJumping p' = false /\ Vector2D.y (Player.position p') = Player.groundY p /\
       Vector2D.y (Player.velocity p') = 0%Q
  else Player.isJumping p' = true /\ Vector2D.y (Player.position p') = y /\
       Vector2D.y (Player.velocity p') = vy.
Proof.
  intros Hj. cbv zeta. unfold Player.update. cbv zeta.
  destruct (updateLane_rest deltaTime lanePositions p) as (A1 & A2 & A3 & _).
  destruct (updateLane_fields deltaTime lanePositions p) as (_ & _ & A4 & _).
  set (p1 := Player.updateLane deltaTime lanePositions p) in *.
  assert (A5 : Vector2D.y (Player.position p1) = Vector2D.y (Player.position p))
    by (rewrite A1; reflexivity).
  clear A1. rewrite <- A4 in Hj. rewrite <- A2, <- A3, <- A5. clear A2 A3 A4 A5. clearbody p1.
  pose proof (updateJump_exact deltaTime p1 Hj) as B. cbv zeta in B.
  destruct (updateJump_rest deltaTime p1) as (_ & B1 & _).
  set (p2 := Player.updateJump deltaTime p1) in *.
  destruct (updateSlide_rest deltaTime p2) as (C1 & C2 & C3 & _).
  destruct (updateSlide_fields deltaTime p2) as (_ & _ & C4 & _).
  set (p3 := Player.updateSlide deltaTime p2) in *.
  destruct (updateInvulnerable_rest deltaTime p3) as (D1 & D2 & D3 & _).
  destruct (updateInvulnerable_fields deltaTime p3) as (_ & _ & D4 & _).
  set (p4 := Player.updateInvulnerable deltaTime p3) in *.
  destruct (set_animationFrame_rest (Player.animationFrame p4 + deltaTime * 10)%Q p4)
    as (E1 & E2 & E3 & _ & _ & E4 & _).
  rewrite E1, E2, E3, E4, D1, D2, D3, D4, C1, C2, C3, C4, B1.
  split; [reflexivity | exact B].
Qed.

Lemma playerAfter_snoc lanePositions deltas deltaTime p :
  playerAfter lanePositions (deltas ++ [deltaTime]) p
  = Player.update deltaTime lanePositions (playerAfter lanePositions deltas p).
Proof. unfold playerAfter. rewrite fold_left_app. reflexivity. Qed.

Lemma repeat_snoc {A} (x : A) n : repeat x (S n) = repeat x n ++ [x].
Proof. induction n as [|n IH]; [reflexivity|]. cbn [repeat app] in *. rewrite <- IH. reflexivity. Qed.

(** While [(n + 1) * deltaTime] is below 1.5 s, [n] updates of equal delta
    time leave a jump in the air, on its parabola. *)
Lemma jump_in_the_air deltaTime lanePositions p0 (n : nat) :
  (0 < deltaTime)%Q ->
  Player.isJumping p0 = true ->
  Vector2D.y (Player.velocity p0) = (-600)%Q ->
  Vector2D.y (Player.position p0) = Player.groundY p0 ->
  ((inject_Z (Z.of_nat n) + 1) * deltaTime < 1.5)%Q ->
  let p := playerAfter lanePositions (repeat deltaTime n) p0 in
  Player.isJumping p = true /\ Player.groundY p = Player.groundY p0 /\
  (Vector2D.y (Player.velocity p) == -600 + 800 * inject_Z (Z.of_nat n) * deltaTime)%Q /\
  (Vector2D.y (Player.position p)
   == Player.groundY p0
      - deltaTime * inject_Z (Z.of_nat n)
        * (600 - 400 * deltaTime * (inject_Z (Z.of_nat n) + 1)))%Q.
Proof.
  intros Hdt Hj Hv Hy. cbv zeta. induction n as [|n IH]; intros Hn.
  - cbn [repeat playerAfter fold_left]. rewrite Hv, Hy. cbn [Z.of_nat].
    change (inject_Z 0) with 0%Q. repeat split; try assumption; ring.
  - rewrite repeat_snoc, playerAfter_snoc.
    rewrite Nat2Z.inj_succ in *. unfold Z.succ in *. rewrite inject_Z_plus in *.
    change (inject_Z 1) with 1%Q in *.
    assert (Hpos : (0 <= inject_Z (Z.of_nat n))%Q)
      by (change 0%Q with (inject_Z 0); rewrite <- Zle_Qle; lia).
    revert Hn Hpos IH. generalize (inject_Z (Z.of_nat n)). intros k Hn Hpos IH.
    destruct IH as (I1 & I2 & I3 & I4); [nra|].
    revert I1 I2 I3 I4. generalize (playerAfter lanePositions (repeat deltaTime n) p0).
    intros p I1 I2 I3 I4.
    destruct (Player_update_jump deltaTime lanePositions p I1) as (G & H). cbv zeta in H.
    rewrite G, I2.
    destruct (Qle_bool _ _) eqn:E.
    + exfalso. apply Qle_bool_iff in E. rewrite I2, I3, I4 in E.
      assert (0 < deltaTime * (k + 1) * (600 - 400 * deltaTime * (k + 1 + 1)))%Q; [|nra].
      apply Qmult_lt_0_compat; [apply Qmult_lt_0_compat|]; nra.
    + destruct H as (-> & -> & ->). split; [reflexivity|]. split; [reflexivity|].
      rewrite I3, I4. split; ring.
Qed.

(** X22. A jump lasts 1.5 s of equal frames.  After [jump] on a player at
    rest on the ground, [n] updates of the same positive delta time leave the
    player in the air, strictly above the ground line for [n >= 1], as long as
    [(n + 1) * deltaTime < 1.5]; the first update for which this fails lands
    the player: back on the ground line, at rest, free to jump or slide
    again. *)
Theorem jump_lasts_one_and_a_half_seconds (deltaTime : Q) (lanePositions : list Q)
    (p : Player.t) (n : nat)
    (Hdelta : (0 < deltaTime)%Q)
    (Hrest : Player.isJumping p = false /\ Player.isSliding p = false)
    (Hground : Vector2D.y (Player.position p) = Player.groundY p)
    (Hair : ((inject_Z (Z.of_nat n) + 1) * deltaTime < 1.5)%Q) :
  let airborne := playerAfter lanePositions (repeat deltaTime n) (Player.jump p) in
  let next := Player.update deltaTime lanePositions airborne in
  Player.isJumping airborne = true /\
  ((1 <= n)%nat -> (Vector2D.y (Player.position airborne) < Player.groundY p)%Q) /\
  ((1.5 <= (inject_Z (Z.of_nat n) + 2) * deltaTime)%Q ->
     Player.isJumping next = false /\
     Vector2D.y (Player.position next) = Player.groundY p /\
     Vector2D.y (Player.velocity next) = 0%Q).
Proof.
  cbv zeta. destruct Hrest as (Hj & Hs).
  assert (H0 : Player.isJumping (Player.jump p) = true /\
               Vector2D.y (Player.velocity (Player.jump p)) = (-600)%Q /\
               Vector2D.y (Player.position (Player.jump p)) = Player.groundY (Player.jump p) /\
               Player.groundY (Player.jump p) = Player.groundY p).
  { destruct p as [[px py] [vx vy] cl tl j sl g jh st w h af inv it].
    cbn in Hj, Hs, Hground. subst j sl. repeat split; assumption. }
  destruct H0 as (J1 & J2 & J3 & J4).
  destruct (jump_in_the_air deltaTime lanePositions (Player.jump p) n Hdelta J1 J2 J3 Hair)
    as (I1 & I2 & I3 & I4).
  rewrite J4 in I2, I4.
  revert I1 I2 I3 I4.
  generalize (playerAfter lanePositions (repeat deltaTime n) (Player.jump p)).
  intros a I1 I2 I3 I4.
  assert (Hpos : (0 <= inject_Z (Z.of_nat n))%Q)
    by (change 0%Q with (inject_Z 0); rewrite <- Zle_Qle; lia).
  split; [exact I1|]. split.
  - intros Hn. rewrite I4.
    assert (H1 : (1 <= inject_Z (Z.of_nat n))%Q)
      by (change 1%Q with (inject_Z 1); rewrite <- Zle_Qle; lia).
    revert Hair H1. generalize (inject_Z (Z.of_nat n)). intros k Hair H1.
    assert (0 < deltaTime * k * (600 - 400 * deltaTime * (k + 1)))%Q; [|lra].
    apply Qmult_lt_0_compat; [apply Qmult_lt_0_compat|]; nra.
  - intros Hland.
    destruct (Player_update_jump deltaTime lanePositions a I1) as (_ & H). cbv zeta in H.
    rewrite I2 in H.
    destruct (Qle_bool _ _) eqn:E; [exact H|].
    exfalso. apply not_true_iff_false in E. apply E. apply Qle_bool_iff.
    rewrite I3, I4.
    revert Hair Hland Hpos. generalize (inject_Z (Z.of_nat n)). intros k Hair Hland Hpos.
    assert (0 <= deltaTime * (k + 1) * (400 * deltaTime * (k + 2) - 600))%Q; [|nra].
    apply Qmult_le_0_compat; [apply Qmult_le_0_compat|]; nra.
Qed.

Lemma jump_lasts_one_and_a_half_seconds_witness :
  let p := Player.new 300 640 640 in
  (0 < 0.5)%Q /\
  (Player.isJumping p = false /\ Player.isSliding p = false) /\
  Vector2D.y (Player.position p) = Player.groundY p /\
  ((inject_Z (Z.of_nat 1) + 1) * 0.5 < 1.5)%Q /\
  (1.5 <= (inject_Z (Z.of_nat 1) + 2) * 0.5)%Q /\
  Player.isJumping
    (Player.update 0.5 [150%Q; 300%Q; 450%Q]
       (playerAfter [150%Q; 300%Q; 450%Q] (repeat 0.5%Q 1) (Player.jump p))) = false.
Proof.
  cbv zeta.
  assert (H1 : (0 < 0.5)%Q) by reflexivity.
  assert (H2 : Player.isJumping (Player.new 300 640 640) = false /\
               Player.isSliding (Player.new 300 640 640) = false) by (split; reflexivity).
  assert (H3 : Vector2D.y (Player.position (Player.new 300 640 640))
               = Player.groundY (Player.new 300 640 640)) by reflexivity.
  assert (H4 : ((inject_Z (Z.of_nat 1) + 1) * 0.5 < 1.5)%Q) by reflexivity.
  assert (H5 : (1.5 <= (inject_Z (Z.of_nat 1) + 2) * 0.5)%Q) by (vm_compute; discriminate).
  split; [exact H1|]. split; [exact H2|]. split; [exact H3|]. split; [exact H4|].
  split; [exact H5|].
  exact (proj1 (proj2 (proj2 (jump_lasts_one_and_a_half_seconds 0.5 [150%Q; 300%Q; 450%Q]
                                (Player.new 300 640 640) 1 H1 H2 H3 H4)) H5)).
Defined.

(** ** The magnet *)

(** X23. The pull of the Magnet on a coin without magnet target.  With the
    effect active, a coin that is not collected and strictly less than 150
    from the player moves a fraction [5 * deltaTime] of the way to the player
    on both axes, and then down the track like any coin; for a delta time
    between 0 and 0.2 it does not move away horizontally.  A collected coin,
    a coin at 150 or more, and any coin while the effect is off only move
    down the track.  The flag, the lane and the serial number are never
    touched. *)
Theorem magnet_pull (deltaTime gameSpeed : Q) (playerPos : Vector2D.t) (c : Coin.t)
    (Hfree : Coin.magnetTarget c = None) :
  let x := Vector2D.x (Coin.position c) in
  let y := Vector2D.y (Coin.position c) in
  let near := Qltb (Vector2D.distanceSquared (Coin.position c) playerPos) (150 * 150) in
  let pulled := Coin.update deltaTime gameSpeed playerPos true c in
  let falling := Coin.update deltaTime gameSpeed playerPos false c in
  (Coin.collected c = false -> near = true ->
     (Vector2D.x (Coin.position pulled) == lerp x (Vector2D.x playerPos) (deltaTime * 5))%Q /\
     (Vector2D.y (Coin.position pulled)
      == lerp y (Vector2D.y playerPos) (deltaTime * 5) + gameSpeed * deltaTime)%Q /\
     ((0 <= deltaTime)%Q -> (deltaTime * 5 <= 1)%Q ->
        (Qabs (Vector2D.x (Coin.position pulled) - Vector2D.x playerPos)
         <= Qabs (x - Vector2D.x playerPos))%Q)) /\
  (Coin.collected c = true \/ near = false ->
     Coin.position pulled = Vector2D.mk x (y + gameSpeed * deltaTime)) /\
  Coin.position falling = Vector2D.mk x (y + gameSpeed * deltaTime) /\
  (Coin.collected pulled = Coin.collected c /\ Coin.lane pulled = Coin.lane c /\
   Coin.uid pulled = Coin.uid c).
Proof.
  destruct c as [uid [x y] lane w h col af mt]. cbn in Hfree. subst mt.
  cbv zeta. unfold Coin.update, Coin.magnetForce.
  cbn [Coin.set_animationFrame Coin.set_position Coin.position Coin.collected Coin.magnetTarget
       Coin.lane Coin.uid Vector2D.x Vector2D.y andb negb].
  split; [|split; [|split]].
  - intros -> ->.
    cbn [negb Coin.set_animationFrame Coin.set_position Coin.position Coin.collected
         Coin.magnetTarget Coin.lane Coin.uid Vector2D.x Vector2D.y].
    assert (E : (lerp x (Vector2D.x playerPos) (deltaTime * 1 * 5)
                 == lerp x (Vector2D.x playerPos) (deltaTime * 5))%Q) by (unfold lerp; ring).
    split; [exact E|]. split; [unfold lerp; ring|].
    intros H0 H1. rewrite E.
    assert (Hd : (lerp x (Vector2D.x playerPos) (deltaTime * 5) - Vector2D.x playerPos
                  == (1 - deltaTime * 5) * (x - Vector2D.x playerPos))%Q) by (unfold lerp; ring).
    rewrite Hd, Qabs_Qmult. rewrite (Qabs_pos (1 - deltaTime * 5)) by lra.
    pose proof (Qabs_nonneg (x - Vector2D.x playerPos)). nra.
  - intros [-> | ->]; [reflexivity|].
    destruct col; reflexivity.
  - reflexivity.
  - destruct col; [|destruct (Qltb _ _)]; repeat split; reflexivity.
Qed.

Lemma magnet_pull_witness :
  let c := Coin.new 1 (Vector2D.mk 300 600) 1 in
  let playerPos := Vector2D.mk 350 640 in
  Coin.magnetTarget c = None /\ Coin.collected c = false /\
  Qltb (Vector2D.distanceSquared (Coin.position c) playerPos) (150 * 150) = true /\
  (Vector2D.x (Coin.position (Coin.update 0.016 300 playerPos true c))
   == lerp 300 350 (0.016 * 5))%Q.
Proof.
  cbv zeta.
  assert (H1 : Coin.magnetTarget (Coin.new 1 (Vector2D.mk 300 600) 1) = None) by reflexivity.
  assert (H2 : Coin.collected (Coin.new 1 (Vector2D.mk 300 600) 1) = false) by reflexivity.
  assert (H3 : Qltb (Vector2D.distanceSquared (Coin.position (Coin.new 1 (Vector2D.mk 300 600) 1))
                                              (Vector2D.mk 350 640)) (150 * 150) = true)
    by (vm_compute; reflexivity).
  split; [exact H1|]. split; [exact H2|]. split; [exact H3|].
  exact (proj1 (proj1 (magnet_pull 0.016 300 (Vector2D.mk 350 640)
                         (Coin.new 1 (Vector2D.mk 300 600) 1) H1) H2 H3)).
Defined.

(** ** Swipes *)

(** X24. How a playing engine reads a touch that ends [deltaX], [deltaY] from
    where it started.  A touch that moves at most 30 on both axes does
    nothing.  A mostly horizontal one (strictly more horizontal than
    vertical) moves one lane right when [deltaX] exceeds 30 and one lane left
    when it is below -30; any other moves up ([deltaY] below -30) for a jump
    or down ([deltaY] above 30) for a slide, with its sound played even when
    the player cannot jump or slide. *)
Theorem swipe_classification (clientX clientY : Q) (s : GameEngine.t)
    (Hplaying : GameEngine.state s = playing) :
  let deltaX := (clientX - GameEngine.touchStartX s)%Q in
  let deltaY := (clientY - GameEngine.touchStartY s)%Q in
  let s' := GameEngine.onTouchEnd clientX clientY s in
  ((Qabs deltaX <= 30)%Q -> (Qabs deltaY <= 30)%Q -> s' = s) /\
  ((Qabs deltaY < Qabs deltaX)%Q -> (30 < deltaX)%Q ->
     s' = GameEngine.set_player (Player.moveLane 1 (GameEngine.player s)) s) /\
  ((Qabs deltaY < Qabs deltaX)%Q -> (deltaX < -30)%Q ->
     s' = GameEngine.set_player (Player.moveLane (-1) (GameEngine.player s)) s) /\
  ((Qabs deltaX <= Qabs deltaY)%Q -> (deltaY < -30)%Q ->
     s' = GameEngine.emit (PlaySound "jump")
            (GameEngine.set_player (Player.jump (GameEngine.player s)) s)) /\
  ((Qabs deltaX <= Qabs deltaY)%Q -> (30 < deltaY)%Q ->
     s' = GameEngine.emit (PlaySound "slide")
            (GameEngine.set_player (Player.slide (GameEngine.player s)) s)).
Proof.
  cbv zeta. unfold GameEngine.onTouchEnd. rewrite Hplaying.
  cbn [bool_decide decide_rel orb negb]. cbv zeta.
  change (bool_decide (playing = menu) || bool_decide (playing = gameOver)) with false.
  change (negb (bool_decide (playing = playing))) with false. cbv iota.
  set (deltaX := (clientX - GameEngine.touchStartX s)%Q).
  set (deltaY := (clientY - GameEngine.touchStartY s)%Q).
  pose proof (Qabs_nonneg deltaX) as HX. pose proof (Qabs_nonneg deltaY) as HY.
  pose proof (Qle_Qabs deltaX) as UX. pose proof (Qle_Qabs deltaY) as UY.
  pose proof (Qle_Qabs (- deltaX)) as LX. pose proof (Qle_Qabs (- deltaY)) as LY.
  rewrite Qabs_opp in LX, LY.
  destruct (Qltb (Qabs deltaY) (Qabs deltaX)) eqn:Hh;
    [apply Qltb_lt in Hh | apply Qltb_ge in Hh];
    destruct (Qltb 30 deltaX) eqn:A; [apply Qltb_lt in A | apply Qltb_ge in A
                                     | apply Qltb_lt in A | apply Qltb_ge in A];
    destruct (Qltb deltaX (- (30))) eqn:B; [apply Qltb_lt in B | apply Qltb_ge in B
      | apply Qltb_lt in B | apply Qltb_ge in B | apply Qltb_lt in B | apply Qltb_ge in B
      | apply Qltb_lt in B | apply Qltb_ge in B];
    destruct (Qltb deltaY (- (30))) eqn:C; [apply Qltb_lt in C | apply Qltb_ge in C
      | apply Qltb_lt in C | apply Qltb_ge in C | apply Qltb_lt in C | apply Qltb_ge in C
      | apply Qltb_lt in C | apply Qltb_ge in C | apply Qltb_lt in C | apply Qltb_ge in C
      | apply Qltb_lt in C | apply Qltb_ge in C | apply Qltb_lt in C | apply Qltb_ge in C
      | apply Qltb_lt in C | apply Qltb_ge in C];
    destruct (Qltb 30 deltaY) eqn:D;
    repeat split; intros; try reflexivity; exfalso;
    try (apply Qltb_lt in D); try (apply Qltb_ge in D); lra.
Qed.

Lemma swipe_classification_witness :
  GameEngine.state demoSession = playing /\
  (Qabs (0 - GameEngine.touchStartY demoSession)
   < Qabs (50 - GameEngine.touchStartX demoSession))%Q /\
  (30 < 50 - GameEngine.touchStartX demoSession)%Q /\
  GameEngine.onTouchEnd 50 0 demoSession
  = GameEngine.set_player (Player.moveLane 1 (GameEngine.player demoSession)) demoSession.
Proof.
  assert (H1 : GameEngine.state demoSession = playing) by reflexivity.
  assert (H2 : (Qabs (0 - GameEngine.touchStartY demoSession)
                < Qabs (50 - GameEngine.touchStartX demoSession))%Q) by reflexivity.
  assert (H3 : (30 < 50 - GameEngine.touchStartX demoSession)%Q) by reflexivity.
  split; [exact H1|]. split; [exact H2|]. split; [exact H3|].
  exact (proj1 (proj2 (swipe_classification 50 0 demoSession H1)) H2 H3).
Defined.

(** ** The particle list *)

Section ParticleList.
Import GameEngine.

Lemma createParticles_alive position color count s :
  Forall alive (particles s) -> Forall alive (particles (createParticles position color count s)).
Proof.
  intros H. rewrite createParticles_spec.
  assert (E : forall l k, particles (set_particles l (set_randomCalls k s)) = l)
    by (intros; destruct s; reflexivity).
  rewrite E. apply Forall_app. split; [exact H|].
  unfold burst. apply List.Forall_forall. intros particle Hin.
  apply List.in_map_iff in Hin as (i & <- & _). split; reflexivity.
Qed.

Lemma collectCoins_alive playerHitbox cs : forall s,
  Forall alive (particles s) -> Forall alive (particles (snd (collectCoins playerHitbox cs s))).
Proof.
  induction cs as [|coin rest IH]; intros s H; [exact H|].
  cbn [collectCoins].
  destruct (negb (Coin.collected coin) && isColliding playerHitbox (Coin.getHitbox coin)).
  - match goal with |- context [collectCoins playerHitbox rest ?s1] =>
      assert (H1 : Forall alive (particles s1))
        by (apply createParticles_alive; destruct s; exact H);
      specialize (IH s1 H1); destruct (collectCoins playerHitbox rest s1) end.
    exact IH.
  - specialize (IH s H). destruct (collectCoins playerHitbox rest s). exact IH.
Qed.

Lemma collectPowerUps_alive playerHitbox now ps : forall s,
  Forall alive (particles s) ->
  Forall alive (particles (snd (collectPowerUps playerHitbox now ps s))).
Proof.
  induction ps as [|powerUp rest IH]; intros s H; [exact H|].
  cbn [collectPowerUps].
  destruct (negb (PowerUp.collected powerUp)
            && isColliding playerHitbox (PowerUp.getHitbox powerUp)).
  - match goal with |- context [collectPowerUps playerHitbox now rest ?s1] =>
      assert (H1 : Forall alive (particles s1));
      [|specialize (IH s1 H1); destruct (collectPowerUps playerHitbox now rest s1); exact IH]
    end.
    apply createParticles_alive.
    destruct (activatePowerUp_fields (PowerUp.type (PowerUp.set_collected true powerUp)) now s)
      as (_ & _ & _ & _ & A & _).
    cbv zeta in A. revert A. generalize (activatePowerUp
      (PowerUp.type (PowerUp.set_collected true powerUp)) now s).
    intros a A. destruct a; cbn in *. rewrite A. exact H.
  - specialize (IH s H). destruct (collectPowerUps playerHitbox now rest s). exact IH.
Qed.

Lemma afterPickups_alive now s :
  Forall alive (particles s) -> Forall alive (particles (afterPickups now s)).
Proof.
  intros H. unfold afterPickups.
  pose proof (collectCoins_alive (Player.getHitbox (player s)) (coins s) s H) as H1.
  destruct (collectCoins (Player.getHitbox (player s)) (coins s) s) as [c s1].
  cbn [snd] in H1.
  match goal with |- context [collectPowerUps ?hb now ?ps ?s2] =>
    assert (H2 : Forall alive (particles s2)) by (destruct s1; exact H1);
    pose proof (collectPowerUps_alive hb now ps s2 H2) as H3;
    destruct (collectPowerUps hb now ps s2) as [p s3] end.
  cbn [snd] in H3. destruct s3; exact H3.
Qed.

Lemma handlePlayerHit_alive s :
  Forall alive (particles s) -> Forall alive (particles (handlePlayerHit s)).
Proof.
  intros H. unfold handlePlayerHit. destruct (has shield s); [exact H|].
  match goal with |- context [createParticles ?p ?c ?n ?s0] =>
    assert (H1 : Forall alive (particles (createParticles p c n s0)))
      by (apply createParticles_alive; destruct s; exact H);
    revert H1; generalize (createParticles p c n s0) end.
  intros u H1. destruct u. engine_norm. engine_norm in H1.
  destruct (_ <=? _); exact H1.
Qed.

Lemma spawnGates_particles now s : particles (spawnGates now s) = particles s.
Proof.
  unfold spawnGates. cbv zeta.
  set (s1 := if _ >? _ then set_lastObstacleSpawn now (spawnObstacle s) else s).
  assert (H1 : particles s1 = particles s).
  { subst s1. destruct (_ >? _); [|reflexivity].
    destruct (spawnObstacle_shape s) as (o & k & -> & _). destruct s; reflexivity. }
  rewrite <- H1. clearbody s1. clear H1 s.
  set (s2 := if _ >? _ then set_lastCoinSpawn now (spawnCoin s1) else s1).
  assert (H2 : particles s2 = particles s1).
  { subst s2. destruct (_ >? _); [|reflexivity].
    rewrite spawnCoin_spec. destruct s1; reflexivity. }
  rewrite <- H2. clearbody s2. clear H2 s1.
  destruct (_ >? _); [|reflexivity].
  destruct (spawnPowerUp_shape s2) as (o & k & -> & _). destruct s2; reflexivity.
Qed.

Lemma update_alive deltaTime now s :
  Forall alive (particles s) -> Forall alive (particles (update deltaTime now s)).
Proof.
  intros H0. rewrite update_phases. unfold beforeCollisions.
  assert (G : Forall alive (particles (spawnGates now
                (set_player (Player.update deltaTime (lanePositions s) (player s)) s)))).
  { rewrite spawnGates_particles. destruct s; exact H0. }
  revert G. generalize (spawnGates now
    (set_player (Player.update deltaTime (lanePositions s) (player s)) s)).
  intros g G.
  assert (A : Forall alive (particles (advanceEntities deltaTime g))).
  { assert (E : particles (advanceEntities deltaTime g)
                = List.map fst (List.filter snd
                    (List.map (Particle.update deltaTime) (particles g))))
      by (destruct g; reflexivity).
    rewrite E. apply List.Forall_forall. intros particle Hin.
    apply List.in_map_iff in Hin as ([particle' keep] & <- & Hin).
    apply List.filter_In in Hin as (Hin & Hkeep). cbn [snd fst] in *. subst keep.
    apply List.in_map_iff in Hin as (old & Hupd & Hold).
    pose proof (proj1 (List.Forall_forall _ _) G old Hold) as (_ & Hmax).
    unfold Particle.update in Hupd. injection Hupd as <- Hlife.
    split; [apply Qltb_lt; exact Hlife | exact Hmax]. }
  revert A. generalize (advanceEntities deltaTime g). intros a A.
  assert (M : Forall alive (particles (expirePowerUps now a))) by (destruct a; exact A).
  revert M. generalize (expirePowerUps now a). intros m M.
  assert (C : Forall alive (particles (checkCollisions now m))).
  { unfold checkCollisions. rewrite checkObstacles_cases.
    pose proof (afterPickups_alive now m M) as P.
    destruct (_ && _); [apply handlePlayerHit_alive, P | exact P]. }
  revert C. generalize (checkCollisions now m). intros c C. destruct c; exact C.
Qed.

Lemma effect_alive s s' : Effect s s' -> Forall alive (particles s) -> Forall alive (particles s').
Proof.
  intros [ | x y | | | Hst | Hst | d Hd Hst | Hst | Hst | q | time now] H0;
    try (destruct s; exact H0);
    try (destruct s; constructor).
  rewrite gameLoop_spec. cbv zeta.
  match goal with |- context [update ?dt now ?s1] =>
    assert (H1 : Forall alive (particles s1)) by (destruct s; exact H0);
    revert H1; generalize s1; generalize dt end.
  intros dt u H1. destruct (bool_decide _); [apply update_alive, H1 | exact H1].
Qed.
End ParticleList.

(** X25. The particle list holds live particles only: in every state reached
    from a fresh engine each particle has life left (more than 0 of the
    1000 ms it started with), because a tick drops the particles whose life
    ran out and the pickups and hits that follow in the tick only add fresh
    ones. *)
Theorem particles_are_alive (s : GameEngine.t) (Hs : reachable s) :
  Forall (fun particle => (0 < Particle.life particle)%Q /\
                          Particle.maxLife particle = 1000%Q)
         (GameEngine.particles s).
Proof.
  change (Forall alive (GameEngine.particles s)).
  induction Hs as [canvasHeight width height mobile rnd | s input Hs IH].
  - constructor.
  - apply (effect_alive s); [apply step_effect | exact IH].
Qed.

Lemma particles_are_alive_witness :
  reachable demoFirstFrame /\
  Forall (fun particle => (0 < Particle.life particle)%Q /\
                          Particle.maxLife particle = 1000%Q)
         (GameEngine.particles demoFirstFrame).
Proof.
  assert (Hr : reachable demoFirstFrame) by (apply run_reachable; constructor).
  split; [exact Hr|].
  exact (particles_are_alive demoFirstFrame Hr).
Defined.

(** ** The life of a particle *)

Lemma elapsedMs_snoc deltas deltaTime :
  (elapsedMs (deltas ++ [deltaTime]) == elapsedMs deltas + deltaTime * 1000)%Q.
Proof.
  induction deltas as [|d deltas IH]; cbn [app elapsedMs fold_right].
  - ring.
  - fold (elapsedMs (deltas ++ [deltaTime])). fold (elapsedMs deltas). rewrite IH. ring.
Qed.

(** X26. A particle is kept for as long as the delta times of its updates
    add up to less than its life: after any run of updates its life is the
    initial life less 1000 per second, its velocity has lost 2 % per update,
    and the next update reports it alive exactly when life is left after it.
    One update moves it by its velocity times the delta time. *)
Theorem particle_lifetime (deltas : list Q) (deltaTime : Q) (particle : Particle.t) :
  let now := particleAfter deltas particle in
  (Particle.life now == Particle.life particle - elapsedMs deltas)%Q /\
  (Vector2D.x (Particle.velocity now)
   == Vector2D.x (Particle.velocity particle) * 0.98 ^ Z.of_nat (length deltas))%Q /\
  (Vector2D.y (Particle.velocity now)
   == Vector2D.y (Particle.velocity particle) * 0.98 ^ Z.of_nat (length deltas))%Q /\
  Particle.maxLife now = Particle.maxLife particle /\
  Particle.color now = Particle.color particle /\
  (snd (Particle.update deltaTime now) = true <->
   (elapsedMs (deltas ++ [deltaTime]) < Particle.life particle)%Q) /\
  Particle.position (fst (Particle.update deltaTime particle))
  = Vector2D.add (Particle.position particle)
                 (Vector2D.multiply (Particle.velocity particle) deltaTime).
Proof.
  cbv zeta.
  assert (H : forall deltas particle,
    (Particle.life (particleAfter deltas particle) == Particle.life particle - elapsedMs deltas)%Q /\
    (Vector2D.x (Particle.velocity (particleAfter deltas particle))
     == Vector2D.x (Particle.velocity particle) * 0.98 ^ Z.of_nat (length deltas))%Q /\
    (Vector2D.y (Particle.velocity (particleAfter deltas particle))
     == Vector2D.y (Particle.velocity particle) * 0.98 ^ Z.of_nat (length deltas))%Q /\
    Particle.maxLife (particleAfter deltas particle) = Particle.maxLife particle /\
    Particle.color (particleAfter deltas particle) = Particle.color particle).
  { clear. induction deltas as [|d deltas IH]; intros particle.
    - cbn [particleAfter fold_left elapsedMs fold_right length Z.of_nat].
      change (0.98 ^ Z.of_nat 0)%Q with 1%Q.
      split; [ring|]. split; [ring|]. split; [ring|]. split; reflexivity.
    - change (particleAfter (d :: deltas) particle)
        with (particleAfter deltas (fst (Particle.update d particle))).
      change (elapsedMs (d :: deltas)) with (d * 1000 + elapsedMs deltas)%Q.
      change (length (d :: deltas)) with (S (length deltas)).
      destruct (IH (fst (Particle.update d particle))) as (I1 & I2 & I3 & I4 & I5).
      rewrite I1, I2, I3, I4, I5.
      assert (Hpow : (0.98 ^ Z.of_nat (S (length deltas))
                      == 0.98 * 0.98 ^ Z.of_nat (length deltas))%Q).
      { rewrite Nat2Z.inj_succ. unfold Z.succ. rewrite Z.add_comm.
        rewrite Qpower_plus by discriminate. reflexivity. }
      rewrite Hpow.
      destruct particle as [pos [vx vy] col life maxLife].
      unfold Particle.update, Vector2D.multiply.
      cbn [fst Particle.life Particle.velocity Particle.maxLife Particle.color Vector2D.x
           Vector2D.y].
      split; [ring|]. split; [ring|]. split; [ring|]. split; reflexivity. }
  destruct (H deltas particle) as (H1 & H2 & H3 & H4 & H5).
  split; [exact H1|]. split; [exact H2|]. split; [exact H3|]. split; [exact H4|].
  split; [exact H5|]. split; [|reflexivity].
  rewrite elapsedMs_snoc. unfold Particle.update. cbn [snd]. rewrite Qltb_lt, H1.
  split; intros; lra.
Qed.

(** ** Player against obstacle *)

(** X27. When the player's box and an obstacle's box collide, in terms of
    the two positions: horizontally the centres are closer than half the sum
    of the widths; vertically the obstacle's foot is below the top of the
    player's box and the obstacle's top above its bottom, where the box of a
    standing player reaches from its height above the feet down to the feet,
    and that of a sliding player from 0.2 of its height above the feet to 0.4
    of its height below them. *)
Theorem player_obstacle_overlap (p : Player.t) (o : Obstacle.t) :
  let px := Vector2D.x (Player.position p) in
  let py := Vector2D.y (Player.position p) in
  let ox := Vector2D.x (Obstacle.position o) in
  let oy := Vector2D.y (Obstacle.position o) in
  let top := if Player.isSliding p then (py - Player.height p * 0.2)%Q
             else (py - Player.height p)%Q in
  let bottom := if Player.isSliding p then (py + Player.height p * 0.4)%Q else py in
  GameEngine.isColliding (Player.getHitbox p) (Obstacle.getHitbox o) = true <->
  (2 * Qabs (px - ox) < Player.width p + Obstacle.width o)%Q /\
  (top < oy)%Q /\ (oy - Obstacle.height o < bottom)%Q.
Proof.
  cbv zeta. unfold GameEngine.isColliding.
  rewrite !andb_true_iff, !Qltb_lt.
  destruct p as [[px py] v cl tl j sl g jh st w h af inv it].
  destruct o as [uid [ox oy] lane ty ow oh].
  unfold Player.getHitbox, Obstacle.getHitbox.
  cbn [Player.position Player.isSliding Player.width Player.height Obstacle.position
       Obstacle.width Obstacle.height Vector2D.x Vector2D.y Hitbox.x Hitbox.y Hitbox.width
       Hitbox.height].
  unfold Qdiv. change (/ 2)%Q with (1 # 2)%Q.
  assert (Habs : (2 * Qabs (px - ox) < w + ow)%Q <->
                 (px - ox < (w + ow) * (1 # 2))%Q /\ (ox - px < (w + ow) * (1 # 2))%Q).
  { split.
    - intros H. pose proof (Qle_Qabs (px - ox)). pose proof (Qle_Qabs (- (px - ox))) as H'.
      rewrite Qabs_opp in H'. split; lra.
    - intros (H1 & H2). apply (Qabs_case (px - ox) (fun a => (2 * a < w + ow)%Q)); intros; lra. }
  rewrite Habs. destruct sl; split; intros; repeat split; lra.
Qed.

(** ** The spawn gates *)

Section Gates.
Import GameEngine.

Lemma spawnGates_counts now s :
  let g := spawnGates now s in
  let fo := obstacleGateFires now s in
  let fc := coinGateFires now s in
  let fp := powerUpGateFires now s in
  lastObstacleSpawn g = (if fo then now else lastObstacleSpawn s) /\
  lastCoinSpawn g = (if fc then now else lastCoinSpawn s) /\
  lastPowerUpSpawn g = (if fp then now else lastPowerUpSpawn s) /\
  length (obstacles g) = (length (obstacles s) + if fo then 1 else 0)%nat /\
  length (powerUps g) = (length (powerUps s) + if fp then 1 else 0)%nat /\
  exists n, (1 <= n <= 3)%nat /\
    length (coins g) = (length (coins s) + if fc then n else 0)%nat /\
    nextUid g = (nextUid s + (if fo then 1 else 0) + (if fc then n else 0)
                 + (if fp then 1 else 0))%nat.
Proof.
  cbv zeta. unfold spawnGates, obstacleGateFires, coinGateFires, powerUpGateFires. cbv zeta.
  set (s1 := if _ >? _ then set_lastObstacleSpawn now (spawnObstacle s) else s).
  assert (H1 : lastObstacleSpawn s1
               = (if now - lastObstacleSpawn s >? obstacleSpawnInterval s
                  then now else lastObstacleSpawn s) /\
               lastCoinSpawn s1 = lastCoinSpawn s /\
               lastPowerUpSpawn s1 = lastPowerUpSpawn s /\
               length (obstacles s1)
               = (length (obstacles s)
                  + if now - lastObstacleSpawn s >? obstacleSpawnInterval s then 1 else 0)%nat /\
               length (powerUps s1) = length (powerUps s) /\
               length (coins s1) = length (coins s) /\
               nextUid s1
               = (nextUid s
                  + if now - lastObstacleSpawn s >? obstacleSpawnInterval s then 1 else 0)%nat).
  { subst s1. destruct (now - lastObstacleSpawn s >? obstacleSpawnInterval s).
    - destruct (spawnObstacle_shape s) as (o & k & -> & _). destruct s. engine_norm.
      rewrite length_app. cbn [length]. repeat split; lia.
    - repeat split; lia. }
  clearbody s1. destruct H1 as (A1 & A2 & A3 & A4 & A5 & A6 & A7).
  rewrite <- A2, <- A3. 
  set (s2 := if _ >? _ then set_lastCoinSpawn now (spawnCoin s1) else s1).
  assert (H2 : exists n, (1 <= n <= 3)%nat /\
               lastObstacleSpawn s2 = lastObstacleSpawn s1 /\
               lastCoinSpawn s2
               = (if now - lastCoinSpawn s1 >? 1500 then now else lastCoinSpawn s1) /\
               lastPowerUpSpawn s2 = lastPowerUpSpawn s1 /\
               length (obstacles s2) = length (obstacles s1) /\
               length (powerUps s2) = length (powerUps s1) /\
               length (coins s2)
               = (length (coins s1) + if now - lastCoinSpawn s1 >? 1500 then n else 0)%nat /\
               nextUid s2
               = (nextUid s1 + if now - lastCoinSpawn s1 >? 1500 then n else 0)%nat).
  { subst s2. destruct (now - lastCoinSpawn s1 >? 1500).
    - exists (numCoins (coinDraw1 s1) (coinDraw2 s1)).
      split; [unfold numCoins; destruct (Qltb _ _); [lia | destruct (Qltb _ _); lia]|].
      rewrite spawnCoin_spec. cbv zeta.
      pose proof (cluster_length (lanePositions s1) (laneIndex (coinBaseDraw s1)) (nextUid s1)
                    (numCoins (coinDraw1 s1) (coinDraw2 s1))) as Hlen.
      revert Hlen. generalize (cluster (lanePositions s1) (laneIndex (coinBaseDraw s1))
                                 (nextUid s1) (numCoins (coinDraw1 s1) (coinDraw2 s1))).
      generalize (numCoins (coinDraw1 s1) (coinDraw2 s1)).
      intros n new Hlen. destruct s1. engine_norm.
      rewrite length_app, Hlen. repeat split; lia.
    - exists 1%nat. split; [lia|]. repeat split; lia. }
  clearbody s2. destruct H2 as (n & Hn & B1 & B2 & B3 & B4 & B5 & B6 & B7).
  rewrite <- B3.
  assert (H3 : forall s3,
    s3 = (if now - lastPowerUpSpawn s2 >? 15000
          then set_lastPowerUpSpawn now (spawnPowerUp s2) else s2) ->
    lastObstacleSpawn s3 = lastObstacleSpawn s2 /\
    lastCoinSpawn s3 = lastCoinSpawn s2 /\
    lastPowerUpSpawn s3
    = (if now - lastPowerUpSpawn s2 >? 15000 then now else lastPowerUpSpawn s2) /\
    length (obstacles s3) = length (obstacles s2) /\
    length (powerUps s3)
    = (length (powerUps s2) + if now - lastPowerUpSpawn s2 >? 15000 then 1 else 0)%nat /\
    length (coins s3) = length (coins s2) /\
    nextUid s3 = (nextUid s2 + if now - lastPowerUpSpawn s2 >? 15000 then 1 else 0)%nat).
  { intros s3 ->. destruct (now - lastPowerUpSpawn s2 >? 15000).
    - destruct (spawnPowerUp_shape s2) as (o & k & -> & _). destruct s2. engine_norm.
      rewrite length_app. cbn [length]. repeat split; lia.
    - repeat split; lia. }
  destruct (H3 _ eq_refl) as (C1 & C2 & C3 & C4 & C5 & C6 & C7).
  rewrite C1, C2, C3, C4, C5, C6, C7, B1, B2, B4, B5, B6, B7, A1, A4, A5, A6, A7.
  split; [reflexivity|]. split; [reflexivity|]. split; [reflexivity|].
  split; [reflexivity|]. split; [reflexivity|].
  exists n. split; [exact Hn|]. split; reflexivity.
Qed.
End Gates.

(** X28. Entities enter only through the three spawn gates.  A tick at
    wall-clock time [now] fires a gate exactly when more than the gate's
    interval has passed since its stamp (the obstacle interval of the state,
    1500 ms for coins, 15000 ms for power-ups), and a gate that fires is
    stamped with [now] while the others keep their stamps.  The tick creates
    one obstacle per firing of the obstacle gate, one power-up per firing of
    the power-up gate and one cluster of one to three coins per firing of the
    coin gate, and nothing else: that many serial numbers are handed out, and
    no list grows by more. *)
Theorem entities_enter_through_the_gates (deltaTime : Q) (now : Z) (s : GameEngine.t) :
  let s' := GameEngine.update deltaTime now s in
  let fo := obstacleGateFires now s in
  let fc := coinGateFires now s in
  let fp := powerUpGateFires now s in
  GameEngine.lastObstacleSpawn s' = (if fo then now else GameEngine.lastObstacleSpawn s) /\
  GameEngine.lastCoinSpawn s' = (if fc then now else GameEngine.lastCoinSpawn s) /\
  GameEngine.lastPowerUpSpawn s' = (if fp then now else GameEngine.lastPowerUpSpawn s) /\
  exists n, (1 <= n <= 3)%nat /\
    GameEngine.nextUid s'
    = (GameEngine.nextUid s + (if fo then 1 else 0) + (if fc then n else 0)
       + (if fp then 1 else 0))%nat /\
    (length (GameEngine.obstacles s')
     <= length (GameEngine.obstacles s) + if fo then 1 else 0)%nat /\
    (length (GameEngine.coins s') <= length (GameEngine.coins s) + if fc then n else 0)%nat /\
    (length (GameEngine.powerUps s')
     <= length (GameEngine.powerUps s) + if fp then 1 else 0)%nat.
Proof.
  cbv zeta.
  set (t := GameEngine.set_player
              (Player.update deltaTime (GameEngine.lanePositions s) (GameEngine.player s)) s).
  assert (Ht : obstacleGateFires now t = obstacleGateFires now s /\
               coinGateFires now t = coinGateFires now s /\
               powerUpGateFires now t = powerUpGateFires now s /\
               GameEngine.lastObstacleSpawn t = GameEngine.lastObstacleSpawn s /\
               GameEngine.lastCoinSpawn t = GameEngine.lastCoinSpawn s /\
               GameEngine.lastPowerUpSpawn t = GameEngine.lastPowerUpSpawn s /\
               GameEngine.obstacles t = GameEngine.obstacles s /\
               GameEngine.coins t = GameEngine.coins s /\
               GameEngine.powerUps t = GameEngine.powerUps s /\
               GameEngine.nextUid t = GameEngine.nextUid s)
    by (destruct s; repeat split; reflexivity).
  destruct Ht as (T1 & T2 & T3 & T4 & T5 & T6 & T7 & T8 & T9 & T10).
  destruct (spawnGates_counts now t) as (G1 & G2 & G3 & G4 & G5 & n & Hn & G6 & G7).
  cbv zeta in G1, G2, G3, G4, G5, G6, G7.
  rewrite T1, T4 in G1. rewrite T2, T5 in G2. rewrite T3, T6 in G3.
  rewrite T1, T7 in G4. rewrite T3, T9 in G5. rewrite T2, T8 in G6.
  rewrite T1, T2, T3, T10 in G7.
  destruct (update_entities deltaTime now s) as (Eo & (hb1 & Ec) & (hb2 & Ep)).
  cbv zeta in Eo, Ec, Ep. fold t in Eo, Ec, Ep.
  rewrite update_phases in *. unfold beforeCollisions in *. fold t in Eo, Ec, Ep |- *.
  pose proof (afterAdvance_frame deltaTime now
                (GameEngine.advanceEntities deltaTime (GameEngine.spawnGates now t)))
    as (Z1 & Z2 & Z3 & _ & _ & _ & Z4).
  cbv zeta in Z1, Z2, Z3, Z4.
  assert (A : GameEngine.lastObstacleSpawn
                (GameEngine.advanceEntities deltaTime (GameEngine.spawnGates now t))
              = GameEngine.lastObstacleSpawn (GameEngine.spawnGates now t) /\
              GameEngine.lastCoinSpawn
                (GameEngine.advanceEntities deltaTime (GameEngine.spawnGates now t))
              = GameEngine.lastCoinSpawn (GameEngine.spawnGates now t) /\
              GameEngine.lastPowerUpSpawn
                (GameEngine.advanceEntities deltaTime (GameEngine.spawnGates now t))
              = GameEngine.lastPowerUpSpawn (GameEngine.spawnGates now t) /\
              GameEngine.nextUid
                (GameEngine.advanceEntities deltaTime (GameEngine.spawnGates now t))
              = GameEngine.nextUid (GameEngine.spawnGates now t))
    by (destruct (GameEngine.spawnGates now t); repeat split; reflexivity).
  destruct A as (A1 & A2 & A3 & A4).
  rewrite A1 in Z1. rewrite A2 in Z2. rewrite A3 in Z3. rewrite A4 in Z4.
  revert G1 G2 G3 G4 G5 G6 G7 Eo Ec Ep Z1 Z2 Z3 Z4.
  generalize (GameEngine.updateDifficulty deltaTime
                (GameEngine.checkCollisions now
                   (GameEngine.expirePowerUps now
                      (GameEngine.advanceEntities deltaTime (GameEngine.spawnGates now t))))).
  generalize (GameEngine.spawnGates now t).
  intros g s' G1 G2 G3 G4 G5 G6 G7 Eo Ec Ep Z1 Z2 Z3 Z4.
  split; [congruence|]. split; [congruence|]. split; [congruence|].
  exists n. split; [exact Hn|]. split; [congruence|].
  rewrite Eo, Ec, Ep, List.length_map, List.length_map.
  split; [|split].
  - rewrite <- G4. etransitivity; [apply List.filter_length_le|]. rewrite List.length_map. lia.
  - rewrite <- G6. etransitivity; [apply List.filter_length_le|]. rewrite List.length_map. lia.
  - rewrite <- G5. etransitivity; [apply List.filter_length_le|]. rewrite List.length_map. lia.
Qed.

(** ** Difficulty *)

(** X29. Difficulty only grows with the score.  Of two sessions with the same
    base speed, the one with the higher score gets, from the last block of
    its tick, a game speed at least as high and an obstacle interval at most
    as long.  The interval reaches its floor of 800 ms from a score of 2400
    on and is at least 900 ms below that score; the speed has no cap. *)
Theorem difficulty_grows_with_score (deltaTime1 deltaTime2 : Q) (m1 m2 : GameEngine.t)
    (Hbase : GameEngine.baseSpeed m1 = GameEngine.baseSpeed m2)
    (Hscore : (GameEngine.score m1 <= GameEngine.score m2)%Q) :
  let s1 := GameEngine.updateDifficulty deltaTime1 m1 in
  let s2 := GameEngine.updateDifficulty deltaTime2 m2 in
  (GameEngine.gameSpeed s1 <= GameEngine.gameSpeed s2)%Q /\
  GameEngine.obstacleSpawnInterval s2 <= GameEngine.obstacleSpawnInterval s1 /\
  ((2400 <= GameEngine.score m2)%Q -> GameEngine.obstacleSpawnInterval s2 = 800) /\
  ((GameEngine.score m2 < 2400)%Q -> 900 <= GameEngine.obstacleSpawnInterval s2).
Proof.
  cbv zeta.
  destruct (updateDifficulty_fields deltaTime1 m1) as (A1 & A2 & _).
  destruct (updateDifficulty_fields deltaTime2 m2) as (B1 & B2 & _).
  cbv zeta in A1, A2, B1, B2. rewrite A1, A2, B1, B2, Hbase.
  assert (Hdiv : forall d : positive, (GameEngine.score m1 / (Z.pos d # 1)
                                       <= GameEngine.score m2 / (Z.pos d # 1))%Q).
  { intros d. unfold Qdiv. apply Qmult_le_compat_r; [exact Hscore|]. unfold Qle. cbn. lia. }
  pose proof (Qfloor_resp_le _ _ (Hdiv 500%positive)) as H500.
  pose proof (Qfloor_resp_le _ _ (Hdiv 200%positive)) as H200.
  change (Z.pos 500 # 1) with 500%Q in H500. change (Z.pos 200 # 1) with 200%Q in H200.
  split; [|split; [|split]].
  - apply Qplus_le_r. rewrite <- Zle_Qle. lia.
  - lia.
  - intros H. assert (H12 : 12 <= Qfloor (GameEngine.score m2 / 200)).
    { change 12 with (Qfloor (2400 / 200)). apply Qfloor_resp_le.
      unfold Qdiv. apply Qmult_le_compat_r; [exact H|]. unfold Qle. cbn. lia. }
    lia.
  - intros H. assert (H11 : Qfloor (GameEngine.score m2 / 200) < 12).
    { apply Z.lt_nge. intros H12.
      assert (Hle : (inject_Z 12 <= GameEngine.score m2 / 200)%Q).
      { eapply Qle_trans; [|apply Qfloor_le]. rewrite <- Zle_Qle. exact H12. }
      unfold Qdiv in Hle. change (/ 200)%Q with (1 # 200)%Q in Hle.
      change (inject_Z 12) with 12%Q in Hle. lra. }
    lia.
Qed.

Lemma difficulty_grows_with_score_witness :
  GameEngine.baseSpeed demoSession = GameEngine.baseSpeed (GameEngine.set_score 1000 demoSession) /\
  (GameEngine.score demoSession <= GameEngine.score (GameEngine.set_score 1000 demoSession))%Q /\
  GameEngine.obstacleSpawnInterval
    (GameEngine.updateDifficulty 0.016 (GameEngine.set_score 1000 demoSession))
  <= GameEngine.obstacleSpawnInterval (GameEngine.updateDifficulty 0.016 demoSession).
Proof.
  assert (H1 : GameEngine.baseSpeed demoSession
               = GameEngine.baseSpeed (GameEngine.set_score 1000 demoSession)) by reflexivity.
  assert (H2 : (GameEngine.score demoSession
                <= GameEngine.score (GameEngine.set_score 1000 demoSession))%Q)
    by (vm_compute; discriminate).
  split; [exact H1|]. split; [exact H2|].
  exact (proj1 (proj2 (difficulty_grows_with_score 0.016 0.016 demoSession
                         (GameEngine.set_score 1000 demoSession) H1 H2))).
Defined.
